(** * StreamBot: the playback queue and streaming state machine

    A shallow embedding of the TypeScript services of the bot, and the
    properties of its specification proved (or refuted) on it.

    - [JS]          strings, truthiness and thrown errors as the code uses them
    - [GeneralUtils], [MediaService]   src/utils/shared.ts, src/services/media.ts
    - [Ffmpeg]      src/utils/ffmpeg.ts
    - [Queue]       the interface of QueueService (src/services/queue.ts is not
                    part of the sources) and a model of it from the specification
    - [Streaming]   class StreamingService, the version with the playback
                    snapshot, the prefetcher and the idle timer
    - [Youtube], [HelpCommand], [TVCommand]   the class behind the resolver,
                    the help text and the arguments of the tv command
    - [PlainStreaming]   class StreamingService as src/services/streaming.ts
                    has it, without snapshot, prefetcher and timer

    Asynchronous functions are modelled as state transformers over the service
    object.  Results of the outside world (Discord, yt-dlp, ffmpeg, the file
    system, the clock) are read from an explicit record of oracles. *)

From Stdlib Require Import ZArith QArith Lia Bool List String Ascii.
From stdpp Require Import base option list gmap strings pretty sorting.

Local Open Scope string_scope.

(* ===================================================================== *)
(** * Part I: definitions                                                 *)
(* ===================================================================== *)

Module JS.

(** The message of a thrown [Error]. *)
Definition JsError := string.

(** A call either returns or throws; an awaited promise either fulfils or
    rejects. *)
Inductive Outcome (A : Type) : Type :=
| Returned (a : A)
| Thrown (e : JsError).
Arguments Returned {A} a.
Arguments Thrown {A} e.

#[export] Instance Outcome_ret : MRet Outcome := fun A a => Returned a.
#[export] Instance Outcome_bind : MBind Outcome := fun A B f o =>
  match o with
  | Returned a => f a
  | Thrown e => Thrown e
  end.
#[export] Instance Outcome_fmap : FMap Outcome := fun A B f o =>
  match o with
  | Returned a => Returned (f a)
  | Thrown e => Thrown e
  end.

(** [try { return await o } catch (e) { return h e }] *)
Definition catch_ {A} (o : Outcome A) (h : JsError -> Outcome A) : Outcome A :=
  match o with
  | Returned a => Returned a
  | Thrown e => h e
  end.

(** What a [return] inside the [try] block of an async function hands over:
    [return await p] settles inside the block, so a rejection reaches the
    [catch]; [return p] passes the promise on as it is, and a rejection of
    [p] goes to the caller. *)
Inductive TryReturn (A : Type) : Type :=
| Awaited (o : Outcome A)
| Passed (p : Outcome A).
Arguments Awaited {A} o.
Arguments Passed {A} p.

Definition try_catch {A} (body : TryReturn A) (h : JsError -> Outcome A) : Outcome A :=
  match body with
  | Awaited o => catch_ o h
  | Passed p => p
  end.

Definition raises {A} (o : Outcome A) : bool :=
  match o with
  | Returned _ => false
  | Thrown _ => true
  end.

(** [s.includes(sub)] *)
Fixpoint includes (s sub : string) : bool :=
  String.prefix sub s ||
  match s with
  | EmptyString => false
  | String _ s' => includes s' sub
  end.

(** [s.startsWith(p)] *)
Definition startsWith (s p : string) : bool := String.prefix p s.

(** A string in boolean position: only the empty string is falsy. *)
Definition truthy (s : string) : bool := negb (String.eqb s "").

(** An optional string ([string | null | undefined]) in boolean position. *)
Definition truthy_opt (o : option string) : bool :=
  match o with
  | Some s => truthy s
  | None => false
  end.

(** [a || b] where [a] is an optional string and [b] a string. *)
Definition or_else (a : option string) (b : string) : string :=
  match a with
  | Some s => if truthy s then s else b
  | None => b
  end.

(** [s.split(sep)] for a separator of one character: never empty. *)
Fixpoint split (sep : ascii) (s : string) : list string :=
  match s with
  | EmptyString => [EmptyString]
  | String c s' =>
      if Ascii.eqb c sep then EmptyString :: split sep s'
      else match split sep s' with
           | w :: ws => String c w :: ws
           | [] => [String c EmptyString]
           end
  end.

(** [s.split('/').pop()] *)
Definition lastSegment (s : string) : string :=
  List.last (split "/" s) EmptyString.

(** The reversed string without its leading run of characters other than
    [.] and [/], when that run is not empty and a [.] follows it. *)
Fixpoint dropExtRev (l : list ascii) (n : nat) : option (list ascii) :=
  match l with
  | [] => None
  | c :: l' =>
      if Ascii.eqb c "." then (if Nat.eqb n 0 then None else Some l')
      else if Ascii.eqb c "/" then None
      else dropExtRev l' (S n)
  end.

(** [s.replace(/\.[^/.]+$/, "")] *)
Definition stripExtension (s : string) : string :=
  match dropExtRev (rev (list_ascii_of_string s)) 0 with
  | Some l => string_of_list_ascii (rev l)
  | None => s
  end.

(** [array.join(sep)] for an array of strings. *)
Fixpoint join (sep : string) (l : list string) : string :=
  match l with
  | [] => ""
  | [s] => s
  | s :: ((_ :: _) as rest) => s +:+ sep +:+ join sep rest
  end.

(** [s.padEnd(targetLength)]: spaces are added up to the length, and a
    string that is as long or longer stays as it is. *)
Definition padEnd (targetLength : nat) (s : string) : string :=
  s +:+ string_of_list_ascii (replicate (targetLength - String.length s) " "%char).

End JS.
Export JS.

(** Vocabulary for statements about the characters of a string. *)
Module Text.

(** Every character of the string passes the test. *)
Fixpoint allChars (p : ascii -> bool) (s : string) : bool :=
  match s with
  | EmptyString => true
  | String c s' => p c && allChars p s'
  end.

(** The characters of an integer printed in decimal. *)
Definition decimalChar (c : ascii) : bool :=
  let n := nat_of_ascii c in
  (Nat.leb 48 n && Nat.leb n 57) || Ascii.eqb c "-".

(** Whether [s] could be the beginning of an occurrence of [sub] that goes
    on after the end of [s], or holds one at its start. *)
Fixpoint compatible (sub s : string) : bool :=
  match sub, s with
  | EmptyString, _ => true
  | _, EmptyString => true
  | String c sub', String a s' => Ascii.eqb c a && compatible sub' s'
  end.

(** No occurrence of [sub] begins inside [lit], whatever follows [lit]. *)
Fixpoint clearOf (lit sub : string) : bool :=
  match lit with
  | EmptyString => true
  | String _ lit' => negb (compatible sub lit) && clearOf lit' sub
  end.

(** The strings of a list one after the other. *)
Definition concatenation (l : list string) : string := foldr String.append "" l.

End Text.

(** Request headers for the transport: [Record<string, string>]. *)
Abbreviation Headers := (gmap string string).

Inductive MediaType := T_youtube | T_twitch | T_local | T_url.

#[export] Instance MediaType_eq_dec : EqDecision MediaType.
Proof. solve_decision. Defined.

(** [interface MediaSource { url, title, type, isLive?, headers? }] *)
Module MediaSource.
Record t := mk {
  url : string;
  title : string;
  type : MediaType;
  isLive : option bool;
  headers : option Headers
}.
End MediaSource.

(** src/utils/shared.ts, [GeneralUtils] *)
Module GeneralUtils.

(** [isValidUrl(input)] *)
Definition isValidUrl (input : string) : bool :=
  if negb (truthy input) then false
  else
    includes input "youtube.com/" ||
    includes input "youtu.be/" ||
    includes input "twitch.tv/" ||
    includes input "cinemaos.tech/" ||
    includes input "vidking.net/" ||
    startsWith input "http://" ||
    startsWith input "https://".

(** [isLocalFile(filePath)]: [fs.existsSync(p) && fs.lstatSync(p).isFile()]
    inside a [try]; the file system answers [isFile]. *)
Definition isLocalFile (isFile : string -> Outcome bool) (filePath : string) : bool :=
  match isFile filePath with
  | Returned b => b
  | Thrown _ => false
  end.

End GeneralUtils.

(** src/services/media.ts, [class MediaService] *)
Module MediaService.

(** What [Youtube.getVideoInfo] returns: the title and
    [videoDetails.isLiveContent]. *)
Record YouTubeVideo := {
  yv_title : string;
  yv_isLiveContent : option bool
}.

(** One entry of [metadata.formats] of a yt-dlp JSON dump. *)
Record Format := {
  f_url : option string;
  f_ext : string
}.

(** The fields of a yt-dlp JSON dump ([YTResponse]) that the service reads. *)
Record YTResponse := {
  yt_title : option string;
  yt_url : option string;
  yt_formats : option (list Format);
  yt_http_headers : Headers
}.

(** What [Youtube.searchAndGetPageUrl] returns. *)
Record SearchResult := {
  pageUrl : option string;
  sr_title : option string
}.

(** The collaborators of the resolver.  Each may answer or throw. *)
Record Backend := {
  (** [this.youtube.getVideoInfo(url)] *)
  getVideoInfo : string -> Outcome (option YouTubeVideo);
  (** [this.youtube.getLiveStreamUrl(url)] *)
  getLiveStreamUrl : string -> Outcome (option string);
  (** [this.youtube.searchAndGetPageUrl(query)] *)
  searchAndGetPageUrl : string -> Outcome SearchResult;
  (** [ytdl(url, { dumpJson, skipDownload, noWarnings, quiet })] *)
  ytdl : string -> Outcome (option YTResponse);
  (** The headless browser of [_resolveEmbedSource]: the first intercepted
      .m3u8 or .mp4 response, or a failure (launch, navigation, the 15 s
      timeout). *)
  findStream : string -> Outcome string;
  (** [fs.existsSync(p) && fs.lstatSync(p).isFile()] *)
  isFile : string -> Outcome bool;
  (** [path.basename(p, path.extname(p))] *)
  basenameNoExt : string -> string;
  (** [new URL(url).pathname] *)
  pathname : string -> Outcome string;
  (** [decodeURIComponent(s)] *)
  decodeURIComponent : string -> Outcome string;
  (** [formats.sort(byScore)]: the comparator adds floating-point scores *)
  sortByScore : list Format -> list Format;
  (** [downloadToTempFile(url, options)] *)
  downloadToTempFile : string -> Outcome (option string)
}.

Definition chromeUserAgent : string :=
  "Mozilla/5.0 (Windows NT 10.0; Win64; x64) AppleWebKit/537.36 (KHTML, like Gecko) Chrome/120.0.0.0 Safari/537.36".

(** [_resolveEmbedSource(url)]: every failure is caught inside. *)
Definition _resolveEmbedSource (B : Backend) (url : string)
  : Outcome (option MediaSource.t) :=
  catch_
    (streamUrl ← findStream B url;
     mret (Some (MediaSource.mk streamUrl "Extracted Stream" T_url None
                   (Some (<["Referer" := url]>
                          (<["User-Agent" := chromeUserAgent]> ∅))))))
    (fun _ => Returned None).

(** [_resolveYouTubeSource(url)]: no [try] of its own. *)
Definition _resolveYouTubeSource (B : Backend) (url : string)
  : Outcome (option MediaSource.t) :=
  videoDetails ← getVideoInfo B url;
  match videoDetails with
  | None => mret None
  | Some vd =>
      let isLive := default false (yv_isLiveContent vd) in
      streamUrl ← (if isLive then getLiveStreamUrl B url else mret (Some url));
      if truthy_opt streamUrl
      then mret (Some (MediaSource.mk (or_else streamUrl "") (yv_title vd)
                         T_youtube (Some isLive) None))
      else mret None
  end.

(** [_resolveTwitchSource(url)] *)
Definition _resolveTwitchSource (B : Backend) (url : string)
  : Outcome (option MediaSource.t) :=
  catch_
    (metadata ← ytdl B url;
     match metadata with
     | Some md =>
         if truthy_opt (yt_url md)
         then mret (Some (MediaSource.mk
                            (or_else (yt_url md) "")
                            (or_else (yt_title md) ("twitch.tv/" +:+ lastSegment url))
                            T_twitch (Some true)
                            (Some (<["Referer" := "https://www.twitch.tv/"]>
                                   (yt_http_headers md)))))
         else mret None
     | None => mret None
     end)
    (fun _ => Returned None).

(** [_resolveLocalSource(url)] *)
Definition _resolveLocalSource (B : Backend) (url : string) : MediaSource.t :=
  MediaSource.mk url (basenameNoExt B url) T_local None None.

(** The first part of [_resolveDirectUrlSource]: the metadata probe.
    [None] when the probe fails or finds no title. *)
Definition probeDirectUrl (B : Backend) (url : string) : option MediaSource.t :=
  match ytdl B url with
  | Returned (Some md) =>
      if truthy_opt (yt_title md) then
        let streamUrl :=
          match yt_formats md with
          | Some ((_ :: _) as formats) =>
              let usable :=
                List.filter
                  (fun f => truthy_opt (f_url f) && negb (String.eqb (f_ext f) "m3u8"))
                  formats in
              match sortByScore B usable with
              | bestFormat :: _ => or_else (f_url bestFormat) url
              | [] => url
              end
          | _ => url
          end in
        Some (MediaSource.mk streamUrl (or_else (yt_title md) "") T_url None None)
      else None
  | _ => None
  end.

(** The second part: the title from the file name of the URL. *)
Definition titleFromUrl (B : Backend) (url : string) : string :=
  match pathname B url with
  | Returned pathname =>
      let filename := lastSegment pathname in
      if truthy filename && includes filename "." then
        match decodeURIComponent B (stripExtension filename) with
        | Returned t => t
        | Thrown _ => "Direct URL"
        end
      else if negb (String.eqb pathname "/") && Nat.ltb 1 (String.length pathname) then
        let pathSegment := lastSegment pathname in
        if truthy pathSegment then
          match decodeURIComponent B pathSegment with
          | Returned t => t
          | Thrown _ => "Direct URL"
          end
        else "Direct URL"
      else "Direct URL"
  | Thrown _ => "Direct URL"
  end.

(** [_resolveDirectUrlSource(url)]: both parts run in a [try] of their own;
    nothing is thrown outside them. *)
Definition _resolveDirectUrlSource (B : Backend) (url : string)
  : Outcome MediaSource.t :=
  match probeDirectUrl B url with
  | Some source => Returned source
  | None => Returned (MediaSource.mk url (titleFromUrl B url) T_url None None)
  end.

(** [searchAndPlayYouTube(query)] *)
Definition searchAndPlayYouTube (B : Backend) (query : string)
  : Outcome (option MediaSource.t) :=
  catch_
    (searchResult ← searchAndGetPageUrl B query;
     if truthy_opt (pageUrl searchResult) && truthy_opt (sr_title searchResult)
     then mret (Some (MediaSource.mk (or_else (pageUrl searchResult) "")
                        (or_else (sr_title searchResult) "") T_youtube None None))
     else mret None)
    (fun _ => Returned None).

(** The strategy that [resolveMediaSource] gives an input to. *)
Inductive Strategy :=
| YouTubeLink | TwitchLink | EmbedHost | LocalFile | DirectUrl | Search.

#[export] Instance Strategy_eq_dec : EqDecision Strategy.
Proof. solve_decision. Defined.

(** The chain of tests of [resolveMediaSource], in the order written. *)
Definition dispatch (B : Backend) (url : string) : Strategy :=
  if includes url "youtube.com/" || includes url "youtu.be/" then YouTubeLink
  else if includes url "twitch.tv/" then TwitchLink
  else if includes url "vidsrc.cc" || includes url "vidlink.pro" then EmbedHost
  else if GeneralUtils.isLocalFile (isFile B) url then LocalFile
  else if GeneralUtils.isValidUrl url then DirectUrl
  else Search.

(** What each branch returns.  The first three are [return await ...]; the
    local branch is a plain call; the last two return the promise of the
    strategy without awaiting it. *)
Definition runStrategy (B : Backend) (st : Strategy) (url : string)
  : TryReturn (option MediaSource.t) :=
  match st with
  | YouTubeLink => Awaited (_resolveYouTubeSource B url)
  | TwitchLink => Awaited (_resolveTwitchSource B url)
  | EmbedHost => Awaited (_resolveEmbedSource B url)
  | LocalFile => Awaited (Returned (Some (_resolveLocalSource B url)))
  | DirectUrl => Passed (Some <$> _resolveDirectUrlSource B url)
  | Search => Passed (searchAndPlayYouTube B url)
  end.

(** [resolveMediaSource(url)] *)
Definition resolveMediaSource (B : Backend) (url : string)
  : Outcome (option MediaSource.t) :=
  try_catch (runStrategy B (dispatch B url) url) (fun _ => Returned None).

(** [downloadYouTubeVideo(url)] *)
Definition downloadYouTubeVideo (B : Backend) (url : string)
  : Outcome (option string) :=
  catch_ (downloadToTempFile B url) (fun _ => Returned None).

(** Follows the spec's words: an input "parseable as an absolute URL", in
    the widest sense: a scheme (a letter, then letters, digits, [+], [-] or
    [.]) followed by a colon. *)
Definition isAlpha (c : ascii) : bool :=
  let n := nat_of_ascii c in
  (Nat.leb 65 n && Nat.leb n 90) || (Nat.leb 97 n && Nat.leb n 122).

Definition isSchemeChar (c : ascii) : bool :=
  let n := nat_of_ascii c in
  isAlpha c || (Nat.leb 48 n && Nat.leb n 57)
  || Ascii.eqb c "+" || Ascii.eqb c "-" || Ascii.eqb c ".".

Fixpoint schemeRest (s : string) : bool :=
  match s with
  | EmptyString => false
  | String c s' => Ascii.eqb c ":" || (isSchemeChar c && schemeRest s')
  end.

Definition parseableAsAbsoluteUrl (s : string) : bool :=
  match s with
  | EmptyString => false
  | String c s' => isAlpha c && schemeRest s'
  end.

(** Follows the spec's words: the fifth rule of the dispatch order, "anything
    parseable as an absolute URL" that no earlier rule has taken goes to the
    direct-URL strategy. *)
Definition absolute_urls_are_direct : Prop :=
  forall (B : Backend) (url : string),
    parseableAsAbsoluteUrl url = true ->
    dispatch B url <> YouTubeLink -> dispatch B url <> TwitchLink ->
    dispatch B url <> EmbedHost -> dispatch B url <> LocalFile ->
    dispatch B url = DirectUrl.

(** The embed links.  A TMDB id, a season and an episode are integers, which
    a template literal prints in decimal. *)

(** [getVidKingEmbedUrl(tmdbId)] *)
Definition getVidKingEmbedUrl (tmdbId : Z) : string :=
  "https://www.vidking.net/embed/movie/" +:+ pretty tmdbId.

(** [getCinemaOSEmbedUrl(tmdbId)] *)
Definition getCinemaOSEmbedUrl (tmdbId : Z) : string :=
  "https://cinemaos.tech/player/" +:+ pretty tmdbId.

(** [getVidSrcMovieEmbedUrl(tmdbId)] *)
Definition getVidSrcMovieEmbedUrl (tmdbId : Z) : string :=
  "https://vidsrc.cc/v2/embed/movie/" +:+ pretty tmdbId.

(** [getVidSrcTvEmbedUrl(tmdbId, season, episode)] *)
Definition getVidSrcTvEmbedUrl (tmdbId season episode : Z) : string :=
  "https://vidsrc.cc/v2/embed/tv/" +:+ pretty tmdbId +:+ "/" +:+ pretty season
  +:+ "/" +:+ pretty episode.

(** [getCinemaOSTVEmbedUrl(tmdbId, season, episode)] *)
Definition getCinemaOSTVEmbedUrl (tmdbId season episode : Z) : string :=
  "https://cinemaos.tech/player/" +:+ pretty tmdbId +:+ "/" +:+ pretty season
  +:+ "/" +:+ pretty episode.

(** [options?: { autoplay?: boolean, primaryColor?: string }] *)
Record LinkOptions := {
  autoplay : option bool;
  primaryColor : option string
}.

(** [params], as both VidLink builders fill it. *)
Definition linkParams (options : option LinkOptions) : list string :=
  match options with
  | Some o =>
      ((if default false (autoplay o) then ["autoplay=true"] else [])
       ++ (if truthy_opt (primaryColor o)
           then ["primaryColor=" +:+ default "" (primaryColor o)] else []))%list
  | None => []
  end.

(** [if (params.length > 0) url += `?${params.join('&')}`] *)
Definition withParams (url : string) (params : list string) : string :=
  if Nat.ltb 0 (length params) then url +:+ "?" +:+ join "&" params else url.

(** [getVidLinkMovieEmbedUrl(tmdbId, options)] *)
Definition getVidLinkMovieEmbedUrl (tmdbId : Z) (options : option LinkOptions) : string :=
  withParams ("https://vidlink.pro/movie/" +:+ pretty tmdbId) (linkParams options).

(** [getVidLinkTvEmbedUrl(tmdbId, season, episode, options)] *)
Definition getVidLinkTvEmbedUrl (tmdbId season episode : Z)
    (options : option LinkOptions) : string :=
  withParams ("https://vidlink.pro/tv/" +:+ pretty tmdbId +:+ "/" +:+ pretty season
              +:+ "/" +:+ pretty episode) (linkParams options).

(** The colour of the options names no YouTube or Twitch link. *)
Definition plainColor (options : option LinkOptions) : Prop :=
  forall color, options ≫= primaryColor = Some color ->
    includes color "youtube.com/" = false
    /\ includes color "youtu.be/" = false
    /\ includes color "twitch.tv/" = false.

(** The resolver hands [url] to the direct-URL strategy unless it names a
    local file, and then it always comes back with a source of type [url]. *)
Definition goesDirect (B : Backend) (url : string) : Prop :=
  dispatch B url
  = (if GeneralUtils.isLocalFile (isFile B) url then LocalFile else DirectUrl)
  /\ (GeneralUtils.isLocalFile (isFile B) url = false ->
      exists source,
        resolveMediaSource B url = Returned (Some source)
        /\ MediaSource.type source = T_url).

(** The resolver hands [url] to the headless browser. *)
Definition goesToBrowser (B : Backend) (url : string) : Prop :=
  dispatch B url = EmbedHost
  /\ resolveMediaSource B url = _resolveEmbedSource B url.

(** A backend on which every collaborator fails and no path is a file. *)
Definition deadBackend : Backend := {|
  getVideoInfo := fun _ => Thrown "offline";
  getLiveStreamUrl := fun _ => Thrown "offline";
  searchAndGetPageUrl := fun _ => Thrown "offline";
  ytdl := fun _ => Thrown "offline";
  findStream := fun _ => Thrown "offline";
  isFile := fun _ => Returned false;
  basenameNoExt := fun p => p;
  pathname := fun _ => Thrown "Invalid URL";
  decodeURIComponent := fun s => Returned s;
  sortByScore := fun l => l;
  downloadToTempFile := fun _ => Thrown "offline"
|}.

(** Every collaborator that reaches out of the process fails. *)
Definition outOfReach (B : Backend) : Prop :=
  (forall url, raises (getVideoInfo B url) = true)
  /\ (forall url, raises (getLiveStreamUrl B url) = true)
  /\ (forall query, raises (searchAndGetPageUrl B query) = true)
  /\ (forall url, raises (ytdl B url) = true)
  /\ (forall url, raises (findStream B url) = true).

(** Follows the spec's words: the resolver returns absent on any backend
    error.  An input that is a local file needs no backend. *)
Definition backend_error_gives_null : Prop :=
  forall (B : Backend) (input : string),
    outOfReach B ->
    dispatch B input <> LocalFile ->
    resolveMediaSource B input = Returned None.

(** Options with both fields set. *)
Definition redAutoplay : LinkOptions :=
  {| autoplay := Some true; primaryColor := Some "ff0000" |}.

(** A backend whose probe finds a title and two formats, the first of them a
    playlist. *)
Definition probedBackend : Backend := {|
  getVideoInfo := fun _ => Thrown "offline";
  getLiveStreamUrl := fun _ => Thrown "offline";
  searchAndGetPageUrl := fun _ => Thrown "offline";
  ytdl := fun _ =>
    Returned (Some {| yt_title := Some "Clip";
                      yt_url := None;
                      yt_formats :=
                        Some [ {| f_url := Some "https://cdn.example.com/clip.m3u8";
                                  f_ext := "m3u8" |};
                               {| f_url := Some "https://cdn.example.com/clip.mp4";
                                  f_ext := "mp4" |} ];
                      yt_http_headers := ∅ |});
  findStream := fun _ => Thrown "offline";
  isFile := fun _ => Returned false;
  basenameNoExt := fun p => p;
  pathname := fun _ => Thrown "Invalid URL";
  decodeURIComponent := fun s => Returned s;
  sortByScore := fun l => l;
  downloadToTempFile := fun _ => Thrown "offline"
|}.

End MediaService.

(** [class Youtube] of utils/youtube.ts, and [MediaService.searchYouTube] *)
Module Youtube.

Import MediaService.

(** A value of a field of the JSON that yt-dlp prints, or of an option handed
    to it, as far as the class tells values apart. *)
Inductive JsValue :=
| VBool (b : bool)
| VString (s : string)
| VOther.

(** What [ytdl_dlp(url, options)] resolves to: a parsed JSON object, the text
    of the standard output, or anything else ([null], an array, a number). *)
Inductive YtOutput :=
| OutObject (fields : gmap string JsValue)
| OutString (s : string)
| OutOther.

(** One result of [yts.search]. *)
Record SearchHit := {
  hit_url : option string;
  hit_title : option string
}.

(** What the class calls. *)
Record Tools := {
  (** [ytdl_dlp(url, options)] *)
  ytdl_dlp : string -> gmap string JsValue -> Outcome YtOutput;
  (** [yts.search(query, { limit })] *)
  ytsSearch : string -> Z -> Outcome (list SearchHit);
  (** [join(process.cwd(), 'cookies.txt')] *)
  cookiesFile : string;
  (** [existsSync(path)] *)
  existsSync : string -> bool;
  (** [s.trim()] *)
  trim : string -> string
}.

(** [getCookiesPath()] *)
Definition getCookiesPath (Y : Tools) : option string :=
  if existsSync Y (cookiesFile Y) then Some (cookiesFile Y) else None.

(** [getYtdlpOptions(baseOptions)] *)
Definition getYtdlpOptions (Y : Tools) (baseOptions : gmap string JsValue)
  : gmap string JsValue :=
  match getCookiesPath Y with
  | Some cookiesPath =>
      if truthy cookiesPath then <["cookies" := VString cookiesPath]> baseOptions
      else baseOptions
  | None => baseOptions
  end.

(** [typeof v === 'string'] *)
Definition isString (v : option JsValue) : bool :=
  match v with
  | Some (VString _) => true
  | _ => false
  end.

(** The string that a field holds ([""] stands for the other values, which
    the callers have ruled out). *)
Definition stringOf (v : option JsValue) : string :=
  match v with
  | Some (VString s) => s
  | _ => ""
  end.

(** [isValidVideoData(data)] *)
Definition isValidVideoData (data : YtOutput) : bool :=
  match data with
  | OutObject fields => isString (fields !! "id") && isString (fields !! "title")
  | _ => false
  end.

(** [videoData.is_live === true || videoData.live_status === 'is_live'] *)
Definition isLiveData (fields : gmap string JsValue) : bool :=
  match fields !! "is_live" with
  | Some (VBool true) => true
  | _ =>
      match fields !! "live_status" with
      | Some (VString status) => String.eqb status "is_live"
      | _ => false
      end
  end.

(** [{ dumpSingleJson: true, noPlaylist: true }] *)
Definition infoOptions : gmap string JsValue :=
  <["dumpSingleJson" := VBool true]> (<["noPlaylist" := VBool true]> ∅).

(** The options of [getLiveStreamUrl]. *)
Definition liveOptions : gmap string JsValue :=
  <["getUrl" := VBool true]>
    (<["format" :=
         VString "best[protocol=m3u8_native]/best[protocol=http_dash_segments]/best"]>
     (<["noPlaylist" := VBool true]>
      (<["quiet" := VBool true]>
       (<["noWarnings" := VBool true]> ∅)))).

(** [getVideoInfo(url)] *)
Definition getVideoInfo (Y : Tools) (url : string) : Outcome (option YouTubeVideo) :=
  catch_
    (let options := getYtdlpOptions Y infoOptions in
     videoData ← ytdl_dlp Y url options;
     match videoData with
     | OutObject fields =>
         if isValidVideoData videoData
         then mret (Some {| yv_title := stringOf (fields !! "title");
                            yv_isLiveContent := Some (isLiveData fields) |})
         else mret None
     | _ => mret None
     end)
    (fun _ => Returned None).

(** [searchAndGetPageUrl(title)] *)
Definition searchAndGetPageUrl (Y : Tools) (title : string) : Outcome SearchResult :=
  catch_
    (results ← ytsSearch Y title 1;
     match results with
     | hit :: _ =>
         if truthy_opt (hit_url hit)
         then mret {| pageUrl := hit_url hit;
                      sr_title := if truthy_opt (hit_title hit) then hit_title hit
                                  else None |}
         else mret {| pageUrl := None; sr_title := None |}
     | [] => mret {| pageUrl := None; sr_title := None |}
     end)
    (fun _ => Returned {| pageUrl := None; sr_title := None |}).

(** [search(query, limit)]: a missing title is printed as [undefined]. *)
Definition search (Y : Tools) (query : string) (limit : Z) : Outcome (list string) :=
  catch_
    (searchResults ← ytsSearch Y query limit;
     mret (imap (fun index video =>
                   pretty (index + 1)%nat +:+ ". `"
                   +:+ default "undefined" (hit_title video) +:+ "`")
             searchResults))
    (fun _ => Returned []).

(** [getLiveStreamUrl(youtubePageUrl)] *)
Definition getLiveStreamUrl (Y : Tools) (youtubePageUrl : string)
  : Outcome (option string) :=
  catch_
    (let options := getYtdlpOptions Y liveOptions in
     streamUrl ← ytdl_dlp Y youtubePageUrl options;
     match streamUrl with
     | OutString text =>
         if truthy (trim Y text) then mret (Some (trim Y text)) else mret None
     | _ => mret None
     end)
    (fun _ => Returned None).

(** [MediaService.searchYouTube(query, limit)] (src/services/media.ts) *)
Definition searchYouTube (Y : Tools) (query : string) (limit : Z) : Outcome (list string) :=
  catch_ (search Y query limit) (fun _ => Returned []).

(** The collaborators of the resolver when [this.youtube] is the class. *)
Definition withYoutube (Y : Tools) (B : Backend) : Backend := {|
  MediaService.getVideoInfo := getVideoInfo Y;
  MediaService.getLiveStreamUrl := getLiveStreamUrl Y;
  MediaService.searchAndGetPageUrl := searchAndGetPageUrl Y;
  ytdl := ytdl B;
  findStream := findStream B;
  isFile := isFile B;
  basenameNoExt := basenameNoExt B;
  pathname := pathname B;
  decodeURIComponent := decodeURIComponent B;
  sortByScore := sortByScore B;
  downloadToTempFile := downloadToTempFile B
|}.

(** yt-dlp knows one video, which is not live; the search finds it first.
    There is no cookies file. *)
Definition oneVideo : Tools := {|
  ytdl_dlp := fun _ _ =>
    Returned (OutObject (<["id" := VString "dQw4w9WgXcQ"]>
                         (<["title" := VString "Song"]>
                          (<["is_live" := VBool false]> ∅))));
  ytsSearch := fun _ _ =>
    Returned [ {| hit_url := Some "https://www.youtube.com/watch?v=dQw4w9WgXcQ";
                  hit_title := Some "Song" |} ];
  cookiesFile := "/srv/bot/cookies.txt";
  existsSync := fun _ => false;
  trim := fun s => s
|}.

End Youtube.

(** src/utils/ffmpeg.ts *)
Module Ffmpeg.

(** [path], [config] and the ffmpeg process, as [ffmpegScreenshot] uses them. *)
Record ShotWorld := {
  (** [path.parse(videoPath).name] *)
  videoNameOf : string -> string;
  (** [path.join(config.previewCacheDir, filename)] *)
  previewPath : string -> string;
  (** [ffmpeg(videoPath).screenshots({ filename, timestamps: [timestamp] })]:
      the "end" event ([Returned]) or the "error" event ([Thrown]) *)
  screenshot : string -> string -> string -> Outcome unit
}.

(** [ffmpegRunning[videoPath]] in boolean position: a missing key is falsy. *)
Definition isRunning (ffmpegRunning : gmap string bool) (videoPath : string) : bool :=
  default false (ffmpegRunning !! videoPath).

Definition timestamps : list string := ["10%"; "30%"; "50%"; "70%"; "90%"].

(** [timestamps.entries()] *)
Definition entries (l : list string) : list (nat * string) :=
  zip (seq 0 (length l)) l.

(** Where one call of [ffmpegScreenshot] stands: polling the flag, waiting
    for the screenshot at the head of [todo], or settled. *)
Inductive Call :=
| Polling
| Shooting (todo : list (nat * string)) (images : list string)
| Settled (result : Outcome (list string)).

(** One turn of a call for [videoPath], from one suspension point to the
    next.  The [finally] block runs on both ways out of the [try]. *)
Definition step (W : ShotWorld) (videoPath : string)
    (st : gmap string bool * Call) : gmap string bool * Call :=
  let '(ffmpegRunning, call) := st in
  match call with
  | Polling =>
      if isRunning ffmpegRunning videoPath then (ffmpegRunning, Polling)
      else (<[videoPath := true]> ffmpegRunning, Shooting (entries timestamps) [])
  | Shooting [] images =>
      (<[videoPath := false]> ffmpegRunning, Settled (Returned images))
  | Shooting ((index, timestamp) :: rest) images =>
      let filename := videoNameOf W videoPath +:+ "-" +:+ pretty (index + 1)%nat +:+ ".jpg" in
      match screenshot W videoPath filename timestamp with
      | Returned _ =>
          let images' := (images ++ [previewPath W filename])%list in
          match rest with
          | [] => (<[videoPath := false]> ffmpegRunning, Settled (Returned images'))
          | _ :: _ => (ffmpegRunning, Shooting rest images')
          end
      | Thrown err => (<[videoPath := false]> ffmpegRunning, Settled (Thrown err))
      end
  | Settled r => (ffmpegRunning, Settled r)
  end.

(** [n] turns of the same call, nothing else touching the table. *)
Fixpoint run (W : ShotWorld) (videoPath : string) (n : nat)
    (st : gmap string bool * Call) : gmap string bool * Call :=
  match n with
  | O => st
  | S n' => run W videoPath n' (step W videoPath st)
  end.

(** [ffmpegScreenshot(videoPath)] on a table where the path is free: the
    call from its first turn to the end. *)
Definition ffmpegScreenshot (W : ShotWorld) (videoPath : string)
    (ffmpegRunning : gmap string bool) : gmap string bool * Call :=
  run W videoPath (S (length timestamps)) (ffmpegRunning, Polling).

(** A JavaScript number, as far as [getVideoParams] tells them apart. *)
Inductive JsNumber :=
| JsNaN
| JsInfinity (negative : bool)
| JsNum (q : Q).

(** [d && d !== 0] for [d : number | undefined] *)
Definition nonZero (d : option JsNumber) : bool :=
  match d with
  | None | Some JsNaN => false
  | Some (JsInfinity _) => true
  | Some (JsNum q) => negb (Qeq_bool q 0)
  end.

(** The frame rate: the literal [0], or the quotient the code computes. *)
Inductive Fps :=
| FpsZero
| FpsQuotient (numerator : option JsNumber) (denominator : JsNumber).

(** One entry of [metadata.streams] of ffprobe. *)
Record FfprobeStream := {
  codec_type : string;
  width : option Z;
  height : option Z;
  r_frame_rate : option string;
  avg_frame_rate : option string;
  bit_rate : option string;
  max_bit_rate : option string
}.

(** [interface VideoParams] *)
Record VideoParams := {
  vp_width : Z;
  vp_height : Z;
  vp_bitrate : string;
  vp_maxbitrate : string;
  vp_fps : Fps
}.

(** A [number | undefined] in boolean position (ffprobe reports integers). *)
Definition truthyZ (o : option Z) : bool :=
  match o with
  | Some z => negb (Z.eqb z 0)
  | None => false
  end.

Section GetVideoParams.

(** [Number(s)] *)
Variable toNumber : string -> JsNumber.

(** [const [numerator, denominator] = rFrameRate.split('/').map(Number);
    fps = (denominator && denominator !== 0) ? numerator / denominator : 0] *)
Definition frameRate (rFrameRate : string) : Fps :=
  let parts := toNumber <$> split "/" rFrameRate in
  let numerator := parts !! 0%nat in
  let denominator := parts !! 1%nat in
  if nonZero denominator
  then match denominator with
       | Some d => FpsQuotient numerator d
       | None => FpsZero
       end
  else FpsZero.

(** [videoStream.r_frame_rate || videoStream.avg_frame_rate] *)
Definition rFrameRateOf (videoStream : FfprobeStream) : option string :=
  if truthy_opt (r_frame_rate videoStream)
  then r_frame_rate videoStream else avg_frame_rate videoStream.

(** [metadata.streams.find(stream => stream.codec_type === 'video')] *)
Definition findVideoStream (streams : list FfprobeStream) : option FfprobeStream :=
  List.find (fun stream => String.eqb (codec_type stream) "video") streams.

(** [getVideoParams(videoPath)]: [probe] is what ffprobe hands to the
    callback, an error or the streams of the metadata. *)
Definition getVideoParams (probe : Outcome (list FfprobeStream)) (videoPath : string)
  : Outcome VideoParams :=
  match probe with
  | Thrown err => Thrown err
  | Returned streams =>
      match findVideoStream streams with
      | Some videoStream =>
          match width videoStream, height videoStream with
          | Some w, Some h =>
              if truthyZ (Some w) && truthyZ (Some h) then
                let fps :=
                  match rFrameRateOf videoStream with
                  | Some rFrameRate =>
                      if truthy rFrameRate then frameRate rFrameRate else FpsZero
                  | None => FpsZero
                  end in
                Returned {| vp_width := w;
                            vp_height := h;
                            vp_bitrate := or_else (bit_rate videoStream) "N/A";
                            vp_maxbitrate := or_else (max_bit_rate videoStream) "N/A";
                            vp_fps := fps |}
              else Thrown ("Unable to get video parameters for " +:+ videoPath)
          | _, _ => Thrown ("Unable to get video parameters for " +:+ videoPath)
          end
      | None => Thrown ("Unable to get video parameters for " +:+ videoPath)
      end
  end.

End GetVideoParams.

(** [Number] on the strings ffprobe writes: a run of decimal digits.  Other
    strings are not numbers here (the empty string is [0], as in
    JavaScript). *)
Fixpoint digitsValue (s : string) (acc : Z) : option Z :=
  match s with
  | EmptyString => Some acc
  | String c s' =>
      let n := nat_of_ascii c in
      if Nat.leb 48 n && Nat.leb n 57
      then digitsValue s' (10 * acc + Z.of_nat (n - 48))
      else None
  end.

Definition decimalNumber (s : string) : JsNumber :=
  match digitsValue s 0 with
  | Some z => JsNum (inject_Z z)
  | None => JsNaN
  end.

(** The denominator of a frame-rate string: the second part, as a number. *)
Definition denominatorOf (toNumber : string -> JsNumber) (rFrameRate : string)
  : option JsNumber :=
  (toNumber <$> split "/" rFrameRate) !! 1%nat.

(** What holds of a call between its turns: once it has settled, the flag of
    its path is [false]. *)
Definition released (videoPath : string) (st : gmap string bool * Call) : Prop :=
  match snd st with
  | Settled _ => isRunning (fst st) videoPath = false
  | _ => True
  end.

(** Two runs on a table with no flags: all five screenshots succeed; the
    third fails and the run stops there.  The flag is [false] both times. *)
Definition shots (failAt : option string) : ShotWorld := {|
  videoNameOf := fun _ => "clip";
  previewPath := fun f => "cache/" +:+ f;
  screenshot := fun _ _ timestamp =>
    if bool_decide (failAt = Some timestamp) then Thrown "ffmpeg exited with code 1"
    else Returned tt
|}.

Definition videoStreamOf (rate : string) : FfprobeStream := {|
  codec_type := "video"; width := Some 1920%Z; height := Some 1080%Z;
  r_frame_rate := Some rate; avg_frame_rate := None;
  bit_rate := None; max_bit_rate := None
|}.

(** [`${videoName}-${index + 1}.jpg`] *)
Definition filenameOf (W : ShotWorld) (videoPath : string) (index : nat) : string :=
  videoNameOf W videoPath +:+ "-" +:+ pretty (index + 1)%nat +:+ ".jpg".

(** The path that the screenshot of an entry is pushed as. *)
Definition imageOf (W : ShotWorld) (videoPath : string) (entry : nat * string) : string :=
  previewPath W (filenameOf W videoPath (fst entry)).

(** Whether ffmpeg ends the screenshot of an entry without an error. *)
Definition taken (W : ShotWorld) (videoPath : string) (entry : nat * string) : bool :=
  negb (raises (screenshot W videoPath (filenameOf W videoPath (fst entry)) (snd entry))).

(** The [for] loop of [ffmpegScreenshot] read as one sequential run: what
    the entries of [todo] give, after [images]. *)
Fixpoint finish (W : ShotWorld) (videoPath : string) (todo : list (nat * string))
    (images : list string) : Outcome (list string) :=
  match todo with
  | [] => Returned images
  | (index, timestamp) :: rest =>
      match screenshot W videoPath (filenameOf W videoPath index) timestamp with
      | Returned _ =>
          finish W videoPath rest
            (images ++ [previewPath W (filenameOf W videoPath index)])%list
      | Thrown err => Thrown err
      end
  end.

(** Two calls of [ffmpegScreenshot] for the same path, on the one table of
    flags.  A schedule names, turn by turn, the call that runs ([false] the
    first, [true] the second). *)
Record TwoCalls := {
  table : gmap string bool;
  callA : Call;
  callB : Call
}.

Definition turnOf (W : ShotWorld) (videoPath : string) (who : bool) (sys : TwoCalls)
  : TwoCalls :=
  if who then
    let '(t, c) := step W videoPath (table sys, callB sys) in
    {| table := t; callA := callA sys; callB := c |}
  else
    let '(t, c) := step W videoPath (table sys, callA sys) in
    {| table := t; callA := c; callB := callB sys |}.

(** The state a schedule ends in. *)
Definition afterTurns (W : ShotWorld) (videoPath : string) (schedule : list bool)
    (sys : TwoCalls) : TwoCalls :=
  fold_left (fun sys who => turnOf W videoPath who sys) schedule sys.

(** Both calls have just been made. *)
Definition bothCalled (ffmpegRunning : gmap string bool) : TwoCalls :=
  {| table := ffmpegRunning; callA := Polling; callB := Polling |}.

(** A call that holds the flag: it is between its first and its last
    screenshot. *)
Definition shooting (call : Call) : bool :=
  match call with
  | Shooting _ _ => true
  | _ => false
  end.

Definition settled (call : Call) : bool :=
  match call with
  | Settled _ => true
  | _ => false
  end.

(** A call is on its way to the result of the sequential run. *)
Definition agrees (W : ShotWorld) (videoPath : string) (call : Call) : Prop :=
  match call with
  | Polling => True
  | Shooting todo images =>
      finish W videoPath todo images = finish W videoPath (entries timestamps) []
  | Settled r => r = finish W videoPath (entries timestamps) []
  end.

(** What holds between the turns of two calls for one path: they never
    take screenshots at the same time, and the flag is set exactly while one
    of them does. *)
Definition exclusive (W : ShotWorld) (videoPath : string) (sys : TwoCalls) : Prop :=
  (shooting (callA sys) && shooting (callB sys) = false)
  /\ isRunning (table sys) videoPath = shooting (callA sys) || shooting (callB sys)
  /\ agrees W videoPath (callA sys) /\ agrees W videoPath (callB sys).

End Ffmpeg.

(** [interface QueueItem]: the fields that are set once, when the item is
    created.  The prefetch fields [downloadPromise] and [downloadPath], which
    are written later through any reference to the item, live in a store of
    the service keyed by [id] (see [Streaming.Prefetch]). *)
Module QueueItem.
Record t := mk {
  id : nat;
  url : string;
  title : string;
  type : MediaType;
  isLive : bool;
  requestedBy : string;
  originalInput : option string;
  headers : option Headers
}.
End QueueItem.

(** [class QueueService] as [StreamingService] uses it. *)
Module Queue.

(** What [getQueueStatus()] returns; [saveState] reads [items] and
    [currentIndex]. *)
Record QueueStatus := {
  items : list QueueItem.t;
  currentIndex : Z;
  isPlaying : bool
}.

(** The methods of [QueueService] that [StreamingService] calls.  A method
    that mutates the queue returns the queue after the call. *)
Class QueueService (Q : Type) := {
  addToQueue : MediaSource.t -> string -> string -> Q -> Q * QueueItem.t;
  add : string -> string -> string -> MediaType -> bool -> string -> Q -> Q * QueueItem.t;
  getNext : Q -> Q * option QueueItem.t;
  getCurrent : Q -> option QueueItem.t;
  skip : Q -> Q * option QueueItem.t;
  removeFromQueue : nat -> Q -> Q;
  getLength : Q -> nat;
  isEmpty : Q -> bool;
  setPlaying : bool -> Q -> Q;
  resetCurrentIndex : Q -> Q;
  clearQueue : Q -> Q;
  getQueueStatus : Q -> QueueStatus
}.

(** [array[i]] for a JavaScript number [i]: [undefined] out of range. *)
Definition at_index {A} (l : list A) (i : Z) : option A :=
  if (i <? 0)%Z then None else l !! Z.to_nat i.

(** Modelled from the spec: src/services/queue.ts (class QueueService) is not
    among the sources.  The queue of sections 3 and 4.1 of the specification:
    an ordered sequence of items, a cursor that is absent or a live index, a
    playing flag, and ids assigned from a counter that only grows. *)
Record VideoQueue := {
  vq_items : list QueueItem.t;
  vq_cursor : option nat;
  vq_playing : bool;
  vq_nextId : nat
}.

Definition empty : VideoQueue :=
  {| vq_items := []; vq_cursor := None; vq_playing := false; vq_nextId := 1 |}.

(** Modelled from the spec: [enqueue] appends and always succeeds; the id is
    assigned at insertion and never reused. *)
Definition vq_add (url title requestedBy : string) (type : MediaType) (isLive : bool)
    (originalInput : string) (headers : option Headers) (q : VideoQueue)
  : VideoQueue * QueueItem.t :=
  let item := QueueItem.mk (vq_nextId q) url title type isLive requestedBy
                (Some originalInput) headers in
  ({| vq_items := vq_items q ++ [item];
      vq_cursor := vq_cursor q;
      vq_playing := vq_playing q;
      vq_nextId := S (vq_nextId q) |}, item).

(** Modelled from the spec: the item at the cursor, absent when the cursor
    is. *)
Definition vq_current (q : VideoQueue) : option QueueItem.t :=
  i ← vq_cursor q; vq_items q !! i.

(** Modelled from the spec: [advanceToNext] moves the cursor forward one
    position and returns the new current item, or marks the queue exhausted
    (from an absent cursor the first position is next). *)
Definition vq_advance (q : VideoQueue) : VideoQueue * option QueueItem.t :=
  let i := match vq_cursor q with Some i => S i | None => O end in
  match vq_items q !! i with
  | Some item =>
      ({| vq_items := vq_items q; vq_cursor := Some i;
          vq_playing := vq_playing q; vq_nextId := vq_nextId q |}, Some item)
  | None =>
      ({| vq_items := vq_items q; vq_cursor := None;
          vq_playing := vq_playing q; vq_nextId := vq_nextId q |}, None)
  end.

(** The position of the item with this id. *)
Fixpoint indexOf (id : nat) (l : list QueueItem.t) : option nat :=
  match l with
  | [] => None
  | item :: l' =>
      if Nat.eqb (QueueItem.id item) id then Some O else S <$> indexOf id l'
  end.

(** Modelled from the spec: [remove(id)] removes by identity.  When the
    removed item was current the next item shifts into its slot, or the
    cursor becomes absent when nothing follows; a cursor behind the removed
    position keeps pointing at its item. *)
Definition vq_remove (id : nat) (q : VideoQueue) : VideoQueue :=
  match indexOf id (vq_items q) with
  | None => q
  | Some j =>
      let items' := delete j (vq_items q) in
      let cursor' :=
        match vq_cursor q with
        | None => None
        | Some i =>
            if Nat.ltb j i then Some (pred i)
            else if Nat.eqb j i then (if Nat.ltb i (length items') then Some i else None)
            else Some i
        end in
      {| vq_items := items'; vq_cursor := cursor';
         vq_playing := vq_playing q; vq_nextId := vq_nextId q |}
  end.

(** Modelled from the spec: a skip advances the queue once, and on the last
    item the queue empties: the current item is removed and the item that
    takes its place, if any, is the next one. *)
Definition vq_skip (q : VideoQueue) : VideoQueue * option QueueItem.t :=
  match vq_current q with
  | Some item => let q' := vq_remove (QueueItem.id item) q in (q', vq_current q')
  | None => (q, None)
  end.

Definition vq_setPlaying (b : bool) (q : VideoQueue) : VideoQueue :=
  {| vq_items := vq_items q; vq_cursor := vq_cursor q;
     vq_playing := b; vq_nextId := vq_nextId q |}.

Definition vq_resetCurrentIndex (q : VideoQueue) : VideoQueue :=
  {| vq_items := vq_items q; vq_cursor := None;
     vq_playing := vq_playing q; vq_nextId := vq_nextId q |}.

(** Modelled from the spec: [clear] empties the sequence and resets the
    cursor; ids are not reused afterwards. *)
Definition vq_clear (q : VideoQueue) : VideoQueue :=
  {| vq_items := []; vq_cursor := None;
     vq_playing := vq_playing q; vq_nextId := vq_nextId q |}.

Definition vq_status (q : VideoQueue) : QueueStatus :=
  {| items := vq_items q;
     currentIndex := match vq_cursor q with Some i => Z.of_nat i | None => (-1)%Z end;
     isPlaying := vq_playing q |}.

(** Modelled from the spec: the queue of the specification behind the
    interface of [QueueService]. *)
#[global] Instance VideoQueue_service : QueueService VideoQueue := {|
  addToQueue := fun ms requestedBy originalInput =>
    vq_add (MediaSource.url ms) (MediaSource.title ms) requestedBy
      (MediaSource.type ms) (default false (MediaSource.isLive ms))
      originalInput (MediaSource.headers ms);
  add := fun url title requestedBy type isLive originalInput =>
    vq_add url title requestedBy type isLive originalInput None;
  getNext := vq_advance;
  getCurrent := vq_current;
  skip := vq_skip;
  removeFromQueue := vq_remove;
  getLength := fun q => length (vq_items q);
  isEmpty := fun q => match vq_items q with [] => true | _ => false end;
  setPlaying := vq_setPlaying;
  resetCurrentIndex := vq_resetCurrentIndex;
  clearQueue := vq_clear;
  getQueueStatus := vq_status
|}.

End Queue.

(** src/services/streaming.ts, [class StreamingService] (the version that
    saves the playback state, prefetches downloads and leaves the voice
    channel on a timer).  A message to the text channel is taken to be
    delivered, except where a definition takes the outcome of the send as an
    argument ([playVideo_catch_sending], [skipCurrent_settle]). *)
Module Streaming.

Record ChannelInfo := {
  guildId : string;
  channelId : string;
  cmdChannelId : string
}.

(** [interface StreamStatus] *)
Record StreamStatus := mkStatus {
  joined : bool;
  joinsucc : bool;
  playing : bool;
  manualStop : bool;
  channelInfo : ChannelInfo
}.

Definition set_joined (b : bool) (st : StreamStatus) : StreamStatus :=
  mkStatus b (joinsucc st) (playing st) (manualStop st) (channelInfo st).
Definition set_playing (b : bool) (st : StreamStatus) : StreamStatus :=
  mkStatus (joined st) (joinsucc st) b (manualStop st) (channelInfo st).
Definition set_manualStop (b : bool) (st : StreamStatus) : StreamStatus :=
  mkStatus (joined st) (joinsucc st) (playing st) b (channelInfo st).
Definition set_channelInfo (c : ChannelInfo) (st : StreamStatus) : StreamStatus :=
  mkStatus (joined st) (joinsucc st) (playing st) (manualStop st) c.

(** The fields of [config] that the service reads. *)
Record Config := {
  cfg_guildId : string;
  cfg_videoChannelId : string;
  cfg_cmdChannelId : string
}.

(** Messages to the text channel ([DiscordUtils] and [message.reply]). *)
Inductive Notice :=
| SendError (text : string)
| SendSuccess (text : string)
| SendInfo (title text : string)
| SendFinishMessage
| ReplyDownloading (title : string)
| DeleteDownloading
| EditDownloadFailed (title : string).

(** [inputForFfmpeg]: a path or URL, or the output of a yt-dlp process. *)
Inductive Input :=
| InString (s : string)
| InStream.

Inductive Activity :=
| Watching (title : string)
| IdleStatus.

Inductive Effect :=
| Notify (n : Notice)
| JoinVoice
| StopStream
| KillYtDlp
| SetActivity (a : Activity)
| SpawnDownload (itemId : nat) (url : string) (task : nat)
| AwaitDownload (task : nat)
| StartStream (input : Input) (inputOptions : list string) (customHeaders : Headers)
| AutoPlay (item : QueueItem.t)
| Unlink (path : string).

(** [queueItem.downloadPath] and [queueItem.downloadPromise]; the promise is
    named by the number of its background task. *)
Record Prefetch := {
  downloadPath : option string;
  downloadPromise : option nat
}.

(** The record that [saveState] writes. *)
Record PlaybackState := {
  currentQueueIndex : Z;
  queue : list QueueItem.t;
  lastActive : Z;
  voiceChannelId : string;
  textChannelId : string;
  ps_isPlaying : bool;
  videoSource : string;
  timestamp : Z
}.

(** The file: missing, not readable as a state, or a saved state (strings,
    numbers and booleans come back from JSON as they were written). *)
Inductive StateFile :=
| NoFile
| Unreadable
| Saved (state : PlaybackState).

(** What the outside world answers during one call. *)
Record World := {
  config : Config;
  backend : MediaService.Backend;
  (** [Date.now()] *)
  now : Z;
  (** [streamer.joinVoice(guildId, channelId)] *)
  joinVoice : Outcome unit;
  (** whether [streamer.voiceConnection] is set after the wait *)
  connectionAtCheck : bool;
  (** [fs.existsSync(path)] *)
  existsSync : string -> bool;
  (** how the background download task of this number settles *)
  downloadTask : nat -> Outcome (option string);
  (** whether the process of [createStream(url)] has a [stdout] *)
  ytDlpStdout : bool;
  (** the "error" event of the ffmpeg command, if it fires *)
  ffmpegError : option JsError;
  (** how [playStream(...)] settles *)
  playStream : Outcome unit;
  (** whether [fs.writeFileSync(STATE_FILE, ...)] succeeds *)
  writeFile : bool;
  (** [client.channels.fetch(id)]: whether it yields a channel with [send] *)
  fetchChannel : string -> Outcome bool;
  (** [client.user.username] *)
  botUsername : string
}.

Section Service.

Context {Q : Type} `{!Queue.QueueService Q}.

Record Service := mkService {
  (** [private queueService: QueueService] *)
  queueService : Q;
  (** [private streamStatus: StreamStatus] *)
  streamStatus : StreamStatus;
  (** whether [streamer.voiceConnection] is set *)
  voiceConnection : bool;
  (** [private controller: AbortController | null]; the flag is [signal.aborted] *)
  controller : option bool;
  (** [private failedVideos: Set<string>] *)
  failedVideos : gset string;
  (** [private isSkipping: boolean] *)
  isSkipping : bool;
  (** whether [leaveTimeout] holds a pending timer *)
  leaveTimeout : bool;
  (** whether [ytDlpProcess] holds a process *)
  ytDlpProcess : bool;
  (** [private startTime: number] *)
  startTime : Z;
  (** the prefetch fields of the queue items, by item id *)
  prefetch : gmap nat Prefetch;
  (** the number of background download tasks started so far *)
  nextTask : nat;
  (** the file [./playback_state.json] *)
  stateFile : StateFile;
  (** what the service has done to the outside world, oldest first *)
  effects : list Effect
}.

Definition with_queueService (v : Q) (s : Service) : Service :=
  mkService v (streamStatus s) (voiceConnection s) (controller s) (failedVideos s) (isSkipping s) (leaveTimeout s) (ytDlpProcess s) (startTime s) (prefetch s) (nextTask s) (stateFile s) (effects s).

Definition with_streamStatus (v : StreamStatus) (s : Service) : Service :=
  mkService (queueService s) v (voiceConnection s) (controller s) (failedVideos s) (isSkipping s) (leaveTimeout s) (ytDlpProcess s) (startTime s) (prefetch s) (nextTask s) (stateFile s) (effects s).

Definition with_voiceConnection (v : bool) (s : Service) : Service :=
  mkService (queueService s) (streamStatus s) v (controller s) (failedVideos s) (isSkipping s) (leaveTimeout s) (ytDlpProcess s) (startTime s) (prefetch s) (nextTask s) (stateFile s) (effects s).

Definition with_controller (v : option bool) (s : Service) : Service :=
  mkService (queueService s) (streamStatus s) (voiceConnection s) v (failedVideos s) (isSkipping s) (leaveTimeout s) (ytDlpProcess s) (startTime s) (prefetch s) (nextTask s) (stateFile s) (effects s).

Definition with_failedVideos (v : gset string) (s : Service) : Service :=
  mkService (queueService s) (streamStatus s) (voiceConnection s) (controller s) v (isSkipping s) (leaveTimeout s) (ytDlpProcess s) (startTime s) (prefetch s) (nextTask s) (stateFile s) (effects s).

Definition with_isSkipping (v : bool) (s : Service) : Service :=
  mkService (queueService s) (streamStatus s) (voiceConnection s) (controller s) (failedVideos s) v (leaveTimeout s) (ytDlpProcess s) (startTime s) (prefetch s) (nextTask s) (stateFile s) (effects s).

Definition with_leaveTimeout (v : bool) (s : Service) : Service :=
  mkService (queueService s) (streamStatus s) (voiceConnection s) (controller s) (failedVideos s) (isSkipping s) v (ytDlpProcess s) (startTime s) (prefetch s) (nextTask s) (stateFile s) (effects s).

Definition with_ytDlpProcess (v : bool) (s : Service) : Service :=
  mkService (queueService s) (streamStatus s) (voiceConnection s) (controller s) (failedVideos s) (isSkipping s) (leaveTimeout s) v (startTime s) (prefetch s) (nextTask s) (stateFile s) (effects s).

Definition with_startTime (v : Z) (s : Service) : Service :=
  mkService (queueService s) (streamStatus s) (voiceConnection s) (controller s) (failedVideos s) (isSkipping s) (leaveTimeout s) (ytDlpProcess s) v (prefetch s) (nextTask s) (stateFile s) (effects s).

Definition with_prefetch (v : gmap nat Prefetch) (s : Service) : Service :=
  mkService (queueService s) (streamStatus s) (voiceConnection s) (controller s) (failedVideos s) (isSkipping s) (leaveTimeout s) (ytDlpProcess s) (startTime s) v (nextTask s) (stateFile s) (effects s).

Definition with_nextTask (v : nat) (s : Service) : Service :=
  mkService (queueService s) (streamStatus s) (voiceConnection s) (controller s) (failedVideos s) (isSkipping s) (leaveTimeout s) (ytDlpProcess s) (startTime s) (prefetch s) v (stateFile s) (effects s).

Definition with_stateFile (v : StateFile) (s : Service) : Service :=
  mkService (queueService s) (streamStatus s) (voiceConnection s) (controller s) (failedVideos s) (isSkipping s) (leaveTimeout s) (ytDlpProcess s) (startTime s) (prefetch s) (nextTask s) v (effects s).

Definition with_effects (v : list Effect) (s : Service) : Service :=
  mkService (queueService s) (streamStatus s) (voiceConnection s) (controller s) (failedVideos s) (isSkipping s) (leaveTimeout s) (ytDlpProcess s) (startTime s) (prefetch s) (nextTask s) (stateFile s) v.


Definition with_status (f : StreamStatus -> StreamStatus) (s : Service) : Service :=
  with_streamStatus (f (streamStatus s)) s.

Definition log (e : Effect) (s : Service) : Service :=
  with_effects (effects s ++ [e]) s.

Definition notify (n : Notice) (s : Service) : Service := log (Notify n) s.

(** [controller && !controller.signal.aborted] *)
Definition controllerLive (s : Service) : bool :=
  match controller s with
  | Some aborted => negb aborted
  | None => false
  end.

(** [controller?.abort()] *)
Definition abort (s : Service) : Service :=
  match controller s with
  | Some _ => with_controller (Some true) s
  | None => s
  end.

(** [ErrorUtils.handleError(error, context, message)] with a message: the
    error is sent to the channel. *)
Definition errorNotice (error : JsError) : Notice :=
  SendError ("An error occurred: " +:+ (if truthy error then error else "Unknown error")).

Definition handleError (error : JsError) (s : Service) : Service :=
  notify (errorNotice error) s.

(** [markVideoAsFailed(videoSource)] *)
Definition markVideoAsFailed (videoSource : string) (s : Service) : Service :=
  with_failedVideos ({[videoSource]} ∪ failedVideos s) s.

Definition prefetchOf (s : Service) (item : QueueItem.t) : Prefetch :=
  default {| downloadPath := None; downloadPromise := None |}
          (prefetch s !! QueueItem.id item).

(** [startBackgroundDownload(queueItem)]: starts a download and stores its
    promise on the item. *)
Definition startBackgroundDownload (queueItem : QueueItem.t) (s : Service) : Service :=
  let task := nextTask s in
  log (SpawnDownload (QueueItem.id queueItem) (QueueItem.url queueItem) task)
    (with_nextTask (S task)
       (with_prefetch
          (<[QueueItem.id queueItem :=
               {| downloadPath := downloadPath (prefetchOf s queueItem);
                  downloadPromise := Some task |}]> (prefetch s)) s)).

(** The [then] callback of the background task of [queueItem], run when the
    task has fulfilled: [queueItem.downloadPath = path]. *)
Definition downloadSettled (W : World) (queueItem : QueueItem.t) (task : nat)
    (s : Service) : Service :=
  match downloadTask W task with
  | Returned path =>
      with_prefetch
        (<[QueueItem.id queueItem :=
             {| downloadPath := path;
                downloadPromise := downloadPromise (prefetchOf s queueItem) |}]>
           (prefetch s)) s
  | Thrown _ => s
  end.

(** [addToQueue(message, videoSource, title)]; the flag is the result. *)
Definition addToQueue (W : World) (username videoSource : string)
    (title : option string) (s : Service) : Service * bool :=
  match MediaService.resolveMediaSource (backend W) videoSource with
  | Returned (Some mediaSource) =>
      let '(q, queueItem) :=
        Queue.addToQueue mediaSource username videoSource (queueService s) in
      let s1 := notify (SendSuccess ("Added to queue: `" +:+ QueueItem.title queueItem +:+ "`"))
                  (with_queueService q s) in
      let s2 :=
        if bool_decide (QueueItem.type queueItem = T_youtube) && negb (QueueItem.isLive queueItem)
        then startBackgroundDownload queueItem s1 else s1 in
      (s2, true)
  | Returned None =>
      let '(q, queueItem) :=
        Queue.add videoSource (or_else title videoSource) username T_url false
          videoSource (queueService s) in
      (notify (SendSuccess ("Added to queue: `" +:+ QueueItem.title queueItem +:+ "`"))
         (with_queueService q s), true)
  | Thrown error => (handleError error s, false)
  end.

(** [cleanupStreamStatus()] *)
Definition cleanupStreamStatus (s : Service) : Service :=
  let s1 := log StopStream (abort s) in
  let s2 := if ytDlpProcess s1 then with_ytDlpProcess false (log KillYtDlp s1) else s1 in
  let s3 := log (SetActivity IdleStatus) s2 in
  let s4 := with_status (fun st => set_manualStop false (set_playing false st)) s3 in
  if Queue.isEmpty (queueService s4) then with_leaveTimeout true s4 else s4.

(** [stopAndClearQueue()] *)
Definition stopAndClearQueue (s : Service) : Service :=
  cleanupStreamStatus (with_queueService (Queue.clearQueue (queueService s)) s).

(** The queue calls of [handleQueueAdvancement]: the current item, if there
    is one, is removed by its id, and then [getNext()] is asked. *)
Definition advanceQueue (q : Q) : Q * option QueueItem.t :=
  Queue.getNext
    match Queue.getCurrent q with
    | Some finishedItem => Queue.removeFromQueue (QueueItem.id finishedItem) q
    | None => q
    end.

(** [handleQueueAdvancement(message)]: the timer that plays the next item
    after a second is recorded as [AutoPlay]. *)
Definition handleQueueAdvancement (s : Service) : Service :=
  let s1 := notify SendFinishMessage s in
  let '(q, nextItem) := advanceQueue (queueService s1) in
  match nextItem with
  | Some item => log (AutoPlay item) (with_queueService q s1)
  | None => cleanupStreamStatus (with_queueService (Queue.setPlaying false q) s1)
  end.

(** [ensureVoiceConnection(message, guildId, channelId)] *)
Definition ensureVoiceConnection (W : World) (s : Service) : Outcome unit * Service :=
  let s0 := with_leaveTimeout false s in
  let joining :=
    if negb (joined (streamStatus s0)) || negb (voiceConnection s0) then
      match joinVoice W with
      | Returned _ => Returned (with_status (set_joined true) (log JoinVoice s0))
      | Thrown err => Thrown err
      end
    else Returned s0 in
  match joining with
  | Thrown err => (Thrown err, s0)
  | Returned s1 =>
      let s2 :=
        with_status
          (fun st => set_channelInfo
                       {| guildId := cfg_guildId (config W);
                          channelId := cfg_videoChannelId (config W);
                          cmdChannelId := cfg_cmdChannelId (config W) |}
                       (set_playing true st)) s1 in
      let s3 := with_voiceConnection (connectionAtCheck W) s2 in
      if connectionAtCheck W then (Returned tt, s3)
      else (Thrown "Voice connection is not established", s3)
  end.

(** What [prepareVideoSource] resolves to. *)
Record Prepared := {
  inputForFfmpeg : Input;
  tempFilePath : option string;
  p_headers : option Headers
}.

(** [handleDownload(message, videoSource, title)] *)
Definition handleDownload (W : World) (videoSource : string) (title : option string)
    (s : Service) : option string * Service :=
  let s1 := notify (ReplyDownloading (or_else title "YouTube video")) s in
  match MediaService.downloadYouTubeVideo (backend W) videoSource with
  | Returned (Some tempFilePath) =>
      if truthy tempFilePath then (Some tempFilePath, notify DeleteDownloading s1)
      else (None, notify (EditDownloadFailed (or_else title "YouTube video")) s1)
  | _ => (None, notify (EditDownloadFailed (or_else title "YouTube video")) s1)
  end.

(** [prepareVideoSource] from [const mediaSource = await
    this.mediaService.resolveMediaSource(videoSource)] on: the path that does
    not look at the queue item. *)
Definition prepareResolved (W : World) (videoSource : string) (title : option string)
    (headers : option Headers) (s : Service) : Outcome Prepared * Service :=
  match MediaService.resolveMediaSource (backend W) videoSource with
  | Thrown err => (Thrown err, s)
  | Returned None =>
      (Returned {| inputForFfmpeg := InString videoSource; tempFilePath := None;
                   p_headers := headers |}, s)
  | Returned (Some mediaSource) =>
      if bool_decide (MediaSource.type mediaSource = T_youtube)
         && negb (default false (MediaSource.isLive mediaSource))
      then
        match handleDownload W videoSource title s with
        | (Some tempFilePath, s1) =>
            (Returned {| inputForFfmpeg := InString tempFilePath;
                         tempFilePath := Some tempFilePath; p_headers := None |}, s1)
        | (None, s1) =>
            (Thrown "Failed to prepare video source due to download failure.", s1)
        end
      else if bool_decide (MediaSource.type mediaSource = T_twitch) then
        let s1 := with_ytDlpProcess true s in
        if ytDlpStdout W
        then (Returned {| inputForFfmpeg := InStream; tempFilePath := None;
                          p_headers := None |}, s1)
        else (Thrown "Failed to create stream from yt-dlp", s1)
      else
        (Returned {| inputForFfmpeg := InString (MediaSource.url mediaSource);
                     tempFilePath := None;
                     p_headers := match MediaSource.headers mediaSource with
                                  | Some h => Some h
                                  | None => headers
                                  end |}, s)
  end.

(** [path && fs.existsSync(path)] *)
Definition usable (W : World) (path : option string) : bool :=
  match path with
  | Some p => truthy p && existsSync W p
  | None => false
  end.

Definition fromFile (path : option string) : Prepared :=
  {| inputForFfmpeg := InString (default "" path); tempFilePath := path;
     p_headers := None |}.

(** [prepareVideoSource(message, videoSource, title, headers, queueItem)] *)
Definition prepareVideoSource (W : World) (videoSource : string) (title : option string)
    (headers : option Headers) (queueItem : option QueueItem.t) (s : Service)
  : Outcome Prepared * Service :=
  match queueItem with
  | Some item =>
      if usable W (downloadPath (prefetchOf s item))
      then (Returned (fromFile (downloadPath (prefetchOf s item))), s)
      else
        match downloadPromise (prefetchOf s item) with
        | Some task =>
            let s1 := downloadSettled W item task (log (AwaitDownload task) s) in
            match downloadTask W task with
            | Returned path =>
                if usable W path then (Returned (fromFile path), s1)
                else prepareResolved W videoSource title headers s1
            | Thrown _ => prepareResolved W videoSource title headers s1
            end
        | None => prepareResolved W videoSource title headers s
        end
  | None => prepareResolved W videoSource title headers s
  end.

(** [streamOpts.customHeaders] as [executeStream] hands it to
    [prepareStream]: the headers of the options, overridden by [headers], and
    the User-Agent of Chrome 120 unless [headers] names one of its own (it
    also replaces the one of Chrome 107). *)
Definition customHeadersFor (customHeaders headers : option Headers) : Headers :=
  let custom0 := default ∅ customHeaders in
  let custom1 :=
    match headers with
    | Some h => h ∪ custom0
    | None => custom0
    end in
  let hasCustomUserAgent :=
    match headers with
    | Some h => truthy_opt (h !! "User-Agent")
    | None => false
    end in
  if negb hasCustomUserAgent
     && (negb (truthy_opt (custom1 !! "User-Agent"))
         || includes (default "" (custom1 !! "User-Agent")) "Chrome/107")
  then <["User-Agent" := MediaService.chromeUserAgent]> custom1
  else custom1.

(** The input options that [executeStream] gives to the ffmpeg command;
    [seekTime] is [streamOpts.seekTime]. *)
Definition inputOptionsFor (input : Input) (seekTime : option Z) : list string :=
  let inputOptions :=
    ["-analyzeduration"; "0"; "-probesize"; "32"; "-fflags +igndts"; "-threads"; "4"] in
  let inputOptions :=
    match seekTime with
    | Some t => if (t =? 0)%Z then inputOptions else "-ss" :: pretty t :: inputOptions
    | None => inputOptions
    end in
  match input with
  | InString inputForFfmpeg =>
      (inputOptions
       ++ (if startsWith inputForFfmpeg "http" && negb (includes inputForFfmpeg ".m3u8")
           then ["-reconnect"; "1"; "-reconnect_streamed"; "1"; "-reconnect_delay_max"; "5"]
           else [])
       ++ ["-protocol_whitelist"; "file,http,https,tcp,tls,crypto"]
       ++ (if includes inputForFfmpeg ".m3u8" then ["-f"; "hls"] else []))%list
  | InStream => inputOptions
  end.

(** [executeStream], after [executeStreamWorkflow] has made a new
    controller: the command is prepared, then come the "error" handler of
    the command, the [catch] on [playStream], and the [throw] of a recorded
    ffmpeg error. *)
Definition executeStream (W : World) (input : Input) (seekTime : option Z)
    (customHeaders headers : option Headers) (s : Service) : Outcome unit * Service :=
  let s1 := log (StartStream input (inputOptionsFor input seekTime)
                   (customHeadersFor customHeaders headers)) s in
  let '(recorded, s2) :=
    match ffmpegError W with
    | Some err =>
        if negb (manualStop (streamStatus s1)) && controllerLive s1
        then (Some err, abort s1) else (None, s1)
    | None => (None, s1)
    end in
  match playStream W with
  | Thrown err =>
      if controllerLive s2 then (Thrown err, s2)
      else match recorded with
           | Some e => (Thrown e, s2)
           | None => (Returned tt, s2)
           end
  | Returned _ =>
      match recorded with
      | Some e => (Thrown e, s2)
      | None => (Returned tt, s2)
      end
  end.

(** [executeStreamWorkflow] *)
Definition executeStreamWorkflow (W : World) (input : Input) (seekTime : option Z)
    (customHeaders headers : option Headers) (s : Service) : Outcome unit * Service :=
  executeStream W input seekTime customHeaders headers (with_controller (Some false) s).

(** [finalizeStream(message, tempFile)] *)
Definition finalizeStream (tempFile : option string) (s : Service) : Service :=
  let s1 :=
    if negb (manualStop (streamStatus s)) && controllerLive s
    then handleQueueAdvancement s
    else cleanupStreamStatus
           (with_queueService
              (Queue.resetCurrentIndex (Queue.setPlaying false (queueService s))) s) in
  match tempFile with
  | Some path => if truthy path then log (Unlink path) s1 else s1
  | None => s1
  end.

(** The [catch] block of [playVideo]. *)
Definition playVideo_catch (error : JsError) (videoSource : string) (s : Service) : Service :=
  let s1 := markVideoAsFailed videoSource (handleError error s) in
  if negb (manualStop (streamStatus s1)) then handleQueueAdvancement s1 else s1.

(** [seekTime] in boolean position. *)
Definition seeking (seekTime : option Z) : option Z :=
  match seekTime with
  | Some t => if (t =? 0)%Z then None else Some t
  | None => None
  end.

(** The statements of [playVideo] before the [try]. *)
Definition playVideo_begin (title : option string) (s : Service) : Service :=
  let s0 := with_status (set_manualStop false) s in
  if truthy_opt title then
    match Queue.getCurrent (queueService s0) with
    | Some currentQueueItem =>
        if String.eqb (QueueItem.title currentQueueItem) (default "" title)
        then with_queueService (Queue.setPlaying true (queueService s0)) s0
        else s0
    | None => s0
    end
  else s0.

(** The statements of [playVideo] between [prepareVideoSource] and
    [executeStreamWorkflow]: the start time, moved back by the seek offset,
    and the activity. *)
Definition streamStart (W : World) (title : option string) (seekTime : option Z)
    (s : Service) : Service :=
  let s4 := with_startTime (now W) (with_status (set_playing true) s) in
  let s5 :=
    match seeking seekTime with
    | Some t => with_startTime (now W - t * 1000)%Z s4
    | None => s4
    end in
  log (SetActivity (Watching (or_else title "Video"))) s5.

(** [playVideo(message, videoSource, title, videoParams, headers, queueItem,
    seekTime)], run from call to return with nothing else in between.  The
    encoder settings of [setupStreamConfiguration] are left out, and
    [streamer.client.user] is taken to be set. *)
Definition playVideo (W : World) (videoSource : string) (title : option string)
    (headers : option Headers) (queueItem : option QueueItem.t)
    (seekTime : option Z) (s : Service) : Service :=
  let s0 := playVideo_begin title s in
  let s1 := with_leaveTimeout false s0 in
  match ensureVoiceConnection W s1 with
  | (Thrown error, s2) => playVideo_catch error videoSource s2
  | (Returned _, s2) =>
      match prepareVideoSource W videoSource title headers queueItem s2 with
      | (Thrown error, s3) => playVideo_catch error videoSource s3
      | (Returned prepared, s3) =>
          match executeStreamWorkflow W (inputForFfmpeg prepared) (seeking seekTime)
                  (p_headers prepared) (p_headers prepared)
                  (streamStart W title seekTime s3) with
          | (Thrown error, s7) => playVideo_catch error videoSource s7
          | (Returned _, s7) => finalizeStream (tempFilePath prepared) s7
          end
      end
  end.

(** [playVideoFromQueueItem(message, queueItem)]; the probe of the video
    parameters only feeds the encoder settings. *)
Definition playVideoFromQueueItem (W : World) (queueItem : QueueItem.t) (s : Service)
  : Service :=
  let s1 := with_queueService (Queue.setPlaying true (queueService s)) s in
  let sourceToPlay :=
    match QueueItem.originalInput queueItem with
    | Some input =>
        if truthy input then
          if includes input "vidsrc.cc" || includes input "vidlink.pro"
          then QueueItem.url queueItem else input
        else QueueItem.url queueItem
    | None => QueueItem.url queueItem
    end in
  playVideo W sourceToPlay (Some (QueueItem.title queueItem))
    (QueueItem.headers queueItem) (Some queueItem) None s1.

(** [playFromQueue(message)] *)
Definition playFromQueue (W : World) (s : Service) : Service :=
  if playing (streamStatus s) then
    notify (SendError "Already playing a video. Use skip command to skip current video.") s
  else
    let '(q, nextItem) := Queue.getNext (queueService s) in
    match nextItem with
    | None => notify (SendError "Queue is empty.") (with_queueService q s)
    | Some item =>
        playVideoFromQueueItem W item
          (with_queueService (Queue.setPlaying true q) s)
    end.

(** Where one call of [skipCurrent] stands. *)
Inductive SkipCall :=
| SkipCalled
| AwaitEmptyNotice
| AwaitSkipNotice (nextItem : QueueItem.t)
| SkipReturned.

(** [skipCurrent(message)] from the call to its first [await]. *)
Definition skipCurrent_enter (s : Service) : Service * SkipCall :=
  if negb (playing (streamStatus s)) then
    (notify (SendError "No video is currently playing.") s, SkipReturned)
  else
    let queueLength := Queue.getLength (queueService s) in
    let isLastItem := Nat.leb queueLength 1 in
    if isSkipping s && negb isLastItem then
      (notify (SendError "Skip already in progress.") s, SkipReturned)
    else
      let s1 := with_isSkipping true s in
      let s2 := log StopStream (abort (with_status (set_manualStop true) s1)) in
      let currentItem := Queue.getCurrent (queueService s2) in
      let '(q, nextItem) := Queue.skip (queueService s2) in
      let s3 := with_queueService q s2 in
      match nextItem with
      | None =>
          (notify (SendInfo "Queue" "No more videos in queue.") s3, AwaitEmptyNotice)
      | Some item =>
          let currentTitle :=
            match currentItem with
            | Some c => QueueItem.title c
            | None => "current video"
            end in
          (notify (SendInfo "Skipping"
                     ("Skipping `" +:+ currentTitle +:+ "`. Playing next: `" +:+
                      QueueItem.title item +:+ "`")) s3,
           AwaitSkipNotice item)
      end.

(** One turn of a call of [skipCurrent]: from the call, or from the
    [await] it stands at, to its next [await] or its return.  The playback
    of the next item is awaited as one turn; the [finally] block clears
    [isSkipping] on the way out of the [try]. *)
Definition skipCurrent_step (W : World) (st : Service * SkipCall) : Service * SkipCall :=
  let '(s, call) := st in
  match call with
  | SkipCalled => skipCurrent_enter s
  | AwaitEmptyNotice =>
      let s1 := with_queueService (Queue.setPlaying false (queueService s)) s in
      (with_isSkipping false (cleanupStreamStatus s1), SkipReturned)
  | AwaitSkipNotice nextItem =>
      let s1 := with_status (set_manualStop false) s in
      (with_isSkipping false (playVideoFromQueueItem W nextItem s1), SkipReturned)
  | SkipReturned => (s, SkipReturned)
  end.

(** [skipCurrent(message)] run to its return with nothing in between. *)
Definition skipCurrent (W : World) (s : Service) : Service :=
  fst (skipCurrent_step W (skipCurrent_step W (s, SkipCalled))).

(** Two calls of [skipCurrent] on one service.  A schedule names, turn by
    turn, the call that runs ([false] the first, [true] the second). *)
Record TwoSkips := {
  service : Service;
  first : SkipCall;
  second : SkipCall
}.

Definition turn (W : World) (who : bool) (sys : TwoSkips) : TwoSkips :=
  if who then
    let '(s, c) := skipCurrent_step W (service sys, second sys) in
    {| service := s; first := first sys; second := c |}
  else
    let '(s, c) := skipCurrent_step W (service sys, first sys) in
    {| service := s; first := c; second := second sys |}.

(** The states a schedule goes through, the first one first. *)
Fixpoint runSkips (W : World) (schedule : list bool) (sys : TwoSkips) : list TwoSkips :=
  match schedule with
  | [] => [sys]
  | who :: rest => sys :: runSkips W rest (turn W who sys)
  end.

(** The state a schedule ends in. *)
Definition afterSkips (W : World) (schedule : list bool) (sys : TwoSkips) : TwoSkips :=
  fold_left (fun sys who => turn W who sys) schedule sys.

(** The number of steps of a history at which the service goes from playing
    to not playing. *)
Fixpoint idleTransitions (history : list TwoSkips) : nat :=
  match history with
  | earlier :: (later :: _) as rest =>
      (if playing (streamStatus (service earlier))
          && negb (playing (streamStatus (service later)))
       then 1 else 0) + idleTransitions rest
  | _ => 0
  end.

(** The [catch] block of [playVideo] with its awaited sends made explicit:
    [reported] is how the send of [ErrorUtils.handleError] settles, and
    [finished] how that of [DiscordUtils.sendFinishMessage] does.  A send
    that is rejected throws out of the block, and what follows it does not
    run.  [playVideo_catch] is the block with both sends delivered. *)
Definition playVideo_catch_sending (reported finished : Outcome unit) (error : JsError)
    (videoSource : string) (s : Service) : Outcome unit * Service :=
  match reported with
  | Thrown rejection => (Thrown rejection, s)
  | Returned _ =>
      let s1 := markVideoAsFailed videoSource (handleError error s) in
      if negb (manualStop (streamStatus s1)) then
        match finished with
        | Thrown rejection => (Thrown rejection, s1)
        | Returned _ => (Returned tt, handleQueueAdvancement s1)
        end
      else (Returned tt, s1)
  end.


(** [ensureVoiceConnection] from its call to its wait of two seconds: the
    state in which the call is suspended, or the error of [joinVoice]. *)
Definition ensureVoiceConnection_enter (W : World) (s : Service)
  : Outcome unit * Service :=
  let s0 := with_leaveTimeout false s in
  let joining :=
    if negb (joined (streamStatus s0)) || negb (voiceConnection s0) then
      match joinVoice W with
      | Returned _ => Returned (with_status (set_joined true) (log JoinVoice s0))
      | Thrown err => Thrown err
      end
    else Returned s0 in
  match joining with
  | Thrown err => (Thrown err, s0)
  | Returned s1 =>
      (Returned tt,
       with_status
         (fun st => set_channelInfo
                      {| guildId := cfg_guildId (config W);
                         channelId := cfg_videoChannelId (config W);
                         cmdChannelId := cfg_cmdChannelId (config W) |}
                      (set_playing true st)) s1)
  end.

(** [ensureVoiceConnection] from the end of the wait to its return, in the
    state that the service has by then. *)
Definition ensureVoiceConnection_resume (W : World) (s : Service)
  : Outcome unit * Service :=
  let s3 := with_voiceConnection (connectionAtCheck W) s in
  if connectionAtCheck W then (Returned tt, s3)
  else (Thrown "Voice connection is not established", s3).

(** [playVideo] from its call to the wait of [ensureVoiceConnection]. *)
Definition playVideo_enter (W : World) (title : option string) (s : Service)
  : Outcome unit * Service :=
  ensureVoiceConnection_enter W (with_leaveTimeout false (playVideo_begin title s)).

(** [playVideo] from the end of that wait to its return, with nothing else
    in between. *)
Definition playVideo_resume (W : World) (videoSource : string) (title : option string)
    (headers : option Headers) (queueItem : option QueueItem.t)
    (seekTime : option Z) (s : Service) : Service :=
  match ensureVoiceConnection_resume W s with
  | (Thrown error, s2) => playVideo_catch error videoSource s2
  | (Returned _, s2) =>
      match prepareVideoSource W videoSource title headers queueItem s2 with
      | (Thrown error, s3) => playVideo_catch error videoSource s3
      | (Returned prepared, s3) =>
          match executeStreamWorkflow W (inputForFfmpeg prepared) (seeking seekTime)
                  (p_headers prepared) (p_headers prepared)
                  (streamStart W title seekTime s3) with
          | (Thrown error, s7) => playVideo_catch error videoSource s7
          | (Returned _, s7) => finalizeStream (tempFilePath prepared) s7
          end
      end
  end.

(** A call of [playVideo] that the skips find in flight: suspended at the
    wait of [ensureVoiceConnection], with the arguments it was called with,
    or returned. *)
Inductive PlaybackCall :=
| AwaitVoice (videoSource : string) (title : option string) (headers : option Headers)
    (queueItem : option QueueItem.t) (seekTime : option Z)
| PlaybackReturned.

(** The two calls of [skipCurrent] and the call of [playVideo]. *)
Inductive Actor := FirstSkip | SecondSkip | Playback.

#[export] Instance Actor_eq_dec : EqDecision Actor.
Proof. solve_decision. Defined.

Record ThreeCalls := {
  skips : TwoSkips;
  playback : PlaybackCall
}.

(** One turn of one of the three calls. *)
Definition act (W : World) (who : Actor) (sys : ThreeCalls) : ThreeCalls :=
  match who with
  | FirstSkip => {| skips := turn W false (skips sys); playback := playback sys |}
  | SecondSkip => {| skips := turn W true (skips sys); playback := playback sys |}
  | Playback =>
      match playback sys with
      | AwaitVoice videoSource title headers queueItem seekTime =>
          {| skips :=
               {| service := playVideo_resume W videoSource title headers queueItem
                               seekTime (service (skips sys));
                  first := first (skips sys);
                  second := second (skips sys) |};
             playback := PlaybackReturned |}
      | PlaybackReturned => sys
      end
  end.

(** The state a schedule of the three calls ends in. *)
Definition afterCalls (W : World) (schedule : list Actor) (sys : ThreeCalls)
  : ThreeCalls :=
  fold_left (fun sys who => act W who sys) schedule sys.

(** [saveState()] *)
Definition saveState (W : World) (s : Service) : Service :=
  match Queue.getCurrent (queueService s) with
  | None => s
  | Some currentItem =>
      let status := Queue.getQueueStatus (queueService s) in
      let state :=
        {| currentQueueIndex := Queue.currentIndex status;
           queue := Queue.items status;
           lastActive := now W;
           voiceChannelId := cfg_videoChannelId (config W);
           textChannelId := cfg_cmdChannelId (config W);
           ps_isPlaying := playing (streamStatus s);
           videoSource := or_else (QueueItem.originalInput currentItem)
                            (QueueItem.url currentItem);
           timestamp := ((now W - startTime s) / 1000)%Z |} in
      if writeFile W then with_stateFile (Saved state) s else s
  end.

(** One tick of the timer of [startStateSaver]. *)
Definition stateSaverTick (W : World) (s : Service) : Service :=
  if playing (streamStatus s) then saveState W s else s.

(** The window of [resumeState], in milliseconds. *)
Definition freshness : Z := 3600000.

(** [resumeState(client)] *)
Definition resumeState (W : World) (s : Service) : Service :=
  match stateFile s with
  | NoFile => s
  | Unreadable => s
  | Saved state =>
      if (freshness <? now W - lastActive state)%Z then with_stateFile NoFile s
      else
        match fetchChannel W (textChannelId state) with
        | Returned true =>
            match Queue.at_index (queue state) (currentQueueIndex state) with
            | Some current =>
                let source := or_else (QueueItem.originalInput current)
                                (QueueItem.url current) in
                let s1 := fst (addToQueue W (botUsername W) source None s) in
                playVideo W source (Some (QueueItem.title current)) None None
                  (Some (timestamp state)) s1
            | None => s
            end
        | _ => s
        end
  end.

End Service.

Arguments Service Q : clear implicits.
Arguments TwoSkips Q : clear implicits.
Arguments ThreeCalls Q : clear implicits.

End Streaming.

(** src/commands/help.ts, [class HelpCommand] *)
Module HelpCommand.

(** The fields of a command that the help text shows. *)
Record Command := {
  name : string;
  description : string;
  category : option string
}.

(** [categories]: a [Map<string, Command[]>], its entries in the order of
    insertion. *)
Definition Categories := list (string * list Command).

(** [categories.get(category)] *)
Fixpoint get (category : string) (categories : Categories) : option (list Command) :=
  match categories with
  | [] => None
  | (key, cmds) :: rest => if String.eqb key category then Some cmds else get category rest
  end.

(** [if (!categories.has(category)) categories.set(category, []);
    categories.get(category)?.push(cmd)] *)
Fixpoint push (category : string) (cmd : Command) (categories : Categories) : Categories :=
  match categories with
  | [] => [(category, [cmd])]
  | (key, cmds) :: rest =>
      if String.eqb key category then (key, (cmds ++ [cmd])%list) :: rest
      else (key, cmds) :: push category cmd rest
  end.

(** [cmd.category || 'General'] *)
Definition categoryOf (cmd : Command) : string := or_else (category cmd) "General".

(** The [forEach] that groups the commands, from a map that holds
    [categories] already. *)
Definition groupedFrom (categories : Categories) (commands : list Command) : Categories :=
  fold_left (fun categories cmd => push (categoryOf cmd) cmd categories) commands
    categories.

(** [categories] after the [forEach]. *)
Definition grouped (commands : list Command) : Categories := groupedFrom [] commands.

(** The order of [Array.prototype.sort] without a comparator: strings by
    their code units. *)
Definition codeUnitLe (s1 s2 : string) : Prop := String.leb s1 s2 = true.

#[export] Instance codeUnitLe_dec : RelDecision codeUnitLe.
Proof. intros s1 s2. unfold codeUnitLe. apply _. Defined.

(** [Array.from(categories.keys()).sort()] *)
Definition sortedCategories (categories : Categories) : list string :=
  merge_sort codeUnitLe (fst <$> categories).

Definition newline : string := String (ascii_of_nat 10) "".

(** One line of a category: [`${cmd.name.padEnd(12)} : ${cmd.description}\n`] *)
Definition commandLine (cmd : Command) : string :=
  padEnd 12 (name cmd) +:+ " : " +:+ description cmd +:+ newline.

(** The text that [execute] replies with. *)
Definition helpText (commands : list Command) : string :=
  let categories := grouped commands in
  fold_left
    (fun helpText category =>
       match get category categories with
       | Some categoryCommands =>
           fold_left (fun helpText cmd => helpText +:+ commandLine cmd) categoryCommands
             (helpText +:+ newline +:+ "**" +:+ category +:+ "**" +:+ newline
              +:+ "```apache" +:+ newline)
           +:+ "```"
       | None => helpText
       end)
    (sortedCategories categories)
    ("📽 **Available Commands**" +:+ newline).

(** The commands of a category, in the order in which they were given. *)
Definition commandsOf (category : string) (commands : list Command) : list Command :=
  List.filter (fun cmd => String.eqb (categoryOf cmd) category) commands.

(** The block of a category in the help text. *)
Definition categoryBlock (category : string) (categoryCommands : list Command) : string :=
  newline +:+ "**" +:+ category +:+ "**" +:+ newline +:+ "```apache" +:+ newline
  +:+ Text.concatenation (commandLine <$> categoryCommands) +:+ "```".

End HelpCommand.

(** src/commands/tv.ts, [class TVCommand]: the reading of the arguments. *)
Module TVCommand.

(** What [execute] makes of [context.args]. *)
Record Request := {
  args : list string;
  season : Z;
  episode : Z
}.

Section Arguments.

(** [parseInt(s)]: the integer that [s] begins with; [None] is [NaN]. *)
Variable parseInt : string -> option Z.

(** The statements of [execute] that read the season and the episode off
    the end of the arguments. *)
Definition readArguments (args : list string) : Request :=
  if Nat.leb 3 (length args) then
    let lastArg := parseInt (default "" (args !! (length args - 1)%nat)) in
    let secondLastArg := parseInt (default "" (args !! (length args - 2)%nat)) in
    match lastArg, secondLastArg with
    | Some episode, Some season =>
        {| args := take (length args - 2) args; season := season; episode := episode |}
    | _, _ => {| args := args; season := 1; episode := 1 |}
    end
  else {| args := args; season := 1; episode := 1 |}.

(** [const query = args.join(' ')] *)
Definition query (request : Request) : string := join " " (args request).

End Arguments.

(** [parseInt] on a run of decimal digits; other strings are not numbers
    here. *)
Definition parseDigits (s : string) : option Z :=
  match s with
  | EmptyString => None
  | _ => Ffmpeg.digitsValue s 0
  end.

End TVCommand.

(** Vocabulary of the statements of Part II, and concrete queues, worlds
    and services for their examples. *)
Module Scenario.

Import Streaming.

Local Open Scope list_scope.

Section Vocabulary.

Context {Q : Type} `{!Queue.QueueService Q}.

(** The queue when [playVideo] reaches a stage: the stages before the
    [catch] and [finalizeStream] leave it as [playVideo_begin] made it. *)
Definition queueAtStage (title : option string) (s : Service Q) : Q :=
  queueService (playVideo_begin title s).











(** States that differ in the failed set at most are the same once the set
    is forgotten. *)
Definition forget (s : Service Q) : Service Q := with_failedVideos ∅ s.


End Vocabulary.

Definition item (id : nat) (url title : string) (type : MediaType) : QueueItem.t :=
  QueueItem.mk id url title type false "ana" (Some url) None.

Definition itemA : QueueItem.t := item 1 "https://example.com/a.mp4" "A" T_url.
Definition itemB : QueueItem.t := item 2 "https://example.com/b.mp4" "B" T_url.
Definition itemC : QueueItem.t := item 3 "https://example.com/c.mp4" "C" T_url.

Definition queueOf (items : list QueueItem.t) (cursor : option nat) (playing : bool)
  : Queue.VideoQueue :=
  {| Queue.vq_items := items; Queue.vq_cursor := cursor;
     Queue.vq_playing := playing; Queue.vq_nextId := S (length items) |}.

Definition noChannel : ChannelInfo :=
  {| guildId := ""; channelId := ""; cmdChannelId := "" |}.

(** A service that has just been constructed around a queue. *)
Definition idleService (q : Queue.VideoQueue) : Service Queue.VideoQueue :=
  mkService q (mkStatus false false false false noChannel)
    false None ∅ false false false 0%Z ∅ 0 NoFile [].

(** A service in the middle of a stream of the current item of its queue. *)
Definition streamingService (q : Queue.VideoQueue) : Service Queue.VideoQueue :=
  mkService q (mkStatus true false true false noChannel)
    true (Some false) ∅ false false false 0%Z ∅ 0 NoFile [].

Definition world (b : MediaService.Backend) (join : Outcome unit) (connected : bool)
    (ffmpegFails : option JsError) (play : Outcome unit) (time : Z) : World :=
  {| config := {| cfg_guildId := "guild"; cfg_videoChannelId := "voice";
                  cfg_cmdChannelId := "text" |};
     backend := b;
     now := time;
     joinVoice := join;
     connectionAtCheck := connected;
     existsSync := fun _ => true;
     downloadTask := fun _ => Returned (Some "/tmp/prefetch.mp4");
     ytDlpStdout := true;
     ffmpegError := ffmpegFails;
     playStream := play;
     writeFile := true;
     fetchChannel := fun _ => Returned true;
     botUsername := "bot" |}.

(** The voice channel cannot be joined. *)
Definition unreachable : World :=
  world MediaService.deadBackend (Thrown "connect timeout") false None (Returned tt) 0.

(** Everything works and the stream plays to its end. *)
Definition calm : World :=
  world MediaService.deadBackend (Returned tt) true None (Returned tt) 0.

(** The voice channel is joined and ffmpeg fails during the stream. *)
Definition brokenStream : World :=
  world MediaService.deadBackend (Returned tt) true (Some "Invalid data found")
    (Returned tt) 0.

(** Everything works, at this time of the clock. *)
Definition atTime (time : Z) : World :=
  world MediaService.deadBackend (Returned tt) true None (Returned tt) time.

(** The service 125 seconds into a stream of item A that started at time 0,
    and the service of the next process, which finds the state file that
    the timer wrote then. *)
Definition midStream : Service Queue.VideoQueue :=
  streamingService (queueOf [itemA] (Some 0) true).

Definition restarted : Service Queue.VideoQueue :=
  with_stateFile (stateFile (stateSaverTick (atTime 125000) midStream))
    (idleService Queue.empty).

(** YouTube answers for every link with a video that is not live; every
    download to a temporary file fails. *)
Definition tubeBackend : MediaService.Backend := {|
  MediaService.getVideoInfo := fun _ =>
    Returned (Some {| MediaService.yv_title := "Song";
                      MediaService.yv_isLiveContent := Some false |});
  MediaService.getLiveStreamUrl := fun _ => Returned None;
  MediaService.searchAndGetPageUrl := fun _ => Thrown "offline";
  MediaService.ytdl := fun _ => Thrown "offline";
  MediaService.findStream := fun _ => Thrown "offline";
  MediaService.isFile := fun _ => Returned false;
  MediaService.basenameNoExt := fun p => p;
  MediaService.pathname := fun _ => Thrown "Invalid URL";
  MediaService.decodeURIComponent := fun s => Returned s;
  MediaService.sortByScore := fun l => l;
  MediaService.downloadToTempFile := fun _ => Thrown "HTTP Error 403"
|}.

Definition song : QueueItem.t :=
  item 1 "https://www.youtube.com/watch?v=song" "Song" T_youtube.

(** The voice channel is joined; the video cannot be downloaded. *)
Definition downloadFails : World :=
  world tubeBackend (Returned tt) true None (Returned tt) 0.


(** The background download tasks that a log shows, by item id. *)
Definition spawnedFor (e : Effect) : option nat :=
  match e with
  | SpawnDownload itemId _ _ => Some itemId
  | _ => None
  end.

Definition spawnedIds (log : list Effect) : list nat :=
  omap spawnedFor log.

(** The notice that [skipCurrent] sends when the queue has no next item. *)
Definition isEmptyQueueNotice (e : Effect) : bool :=
  match e with
  | Notify (SendInfo title text) =>
      String.eqb title "Queue" && String.eqb text "No more videos in queue."
  | _ => false
  end.

(** The inputs that a log shows as handed to the pipeline, oldest first. *)
Definition streamedBy (e : Effect) : option Input :=
  match e with
  | StartStream input _ _ => Some input
  | _ => None
  end.

Definition streamed (log : list Effect) : list Input := omap streamedBy log.

(** The items that a log shows as scheduled to play next, oldest first. *)
Definition autoPlayedBy (e : Effect) : option QueueItem.t :=
  match e with
  | AutoPlay item => Some item
  | _ => None
  end.

Definition autoPlayed (log : list Effect) : list QueueItem.t := omap autoPlayedBy log.

(** Follows the spec's words: when an item is attempted and the sink
    connection cannot be established, the failure is reported, the queue
    cursor is not advanced (it is not moved past the attempted item, and no
    other item is started) and the orchestrator is idle. *)
Definition connection_failure_is_final : Prop :=
  forall (W : World) (s : Service Queue.VideoQueue) (item : QueueItem.t)
         (error : JsError),
    joinVoice W = Thrown error ->
    joined (streamStatus s) = false ->
    playing (streamStatus s) = false ->
    snd (Queue.getNext (queueService s)) = Some item ->
    let attempted := fst (Queue.getNext (queueService s)) in
    let s' := playFromQueue W s in
    Notify (errorNotice error) ∈ effects s'
    /\ (Queue.currentIndex (Queue.getQueueStatus (queueService s'))
        <= Queue.currentIndex (Queue.getQueueStatus attempted))%Z
    /\ autoPlayed (effects s') = autoPlayed (effects s)
    /\ playing (streamStatus s') = false.



(** The stream of the resumed item fails, a minute after the state was
    saved. *)
Definition brokenResume : World :=
  world MediaService.deadBackend (Returned tt) true (Some "Invalid data found")
    (Returned tt) 185000.

(** The service after the restart, with the item of the state file put into
    the queue again: the state in which [resumeState] calls [playVideo]. *)
Definition requeued : Service Queue.VideoQueue :=
  fst (addToQueue brokenResume (botUsername brokenResume) "https://example.com/a.mp4"
         None restarted).

(** The options that [executeStream] puts first when it seeks, and the
    options that every input gets. *)
Definition seekOptions (seekTime : option Z) : list string :=
  match seekTime with
  | Some t => if (t =? 0)%Z then [] else ["-ss"; pretty t]
  | None => []
  end.

Definition baseOptions : list string :=
  ["-analyzeduration"; "0"; "-probesize"; "32"; "-fflags +igndts"; "-threads"; "4"].

(** [headers && headers['User-Agent']] in boolean position. *)
Definition ownUserAgent (headers : option Headers) : bool :=
  match headers with
  | Some h => truthy_opt (h !! "User-Agent")
  | None => false
  end.

(** [{ ...streamOpts.customHeaders, ...headers }] *)
Definition mergedHeaders (customHeaders headers : option Headers) : Headers :=
  default ∅ headers ∪ default ∅ customHeaders.

(** The files that a log shows as deleted, oldest first. *)
Definition unlinkedBy (e : Effect) : option string :=
  match e with
  | Unlink path => Some path
  | _ => None
  end.

Definition unlinked (log : list Effect) : list string := omap unlinkedBy log.



(** YouTube cannot be asked about a video, while a download of it would
    yield a file. *)
Definition lookupDown : MediaService.Backend := {|
  MediaService.getVideoInfo := fun _ => Thrown "offline";
  MediaService.getLiveStreamUrl := fun _ => Thrown "offline";
  MediaService.searchAndGetPageUrl := fun _ => Thrown "offline";
  MediaService.ytdl := fun _ => Thrown "offline";
  MediaService.findStream := fun _ => Thrown "offline";
  MediaService.isFile := fun _ => Returned false;
  MediaService.basenameNoExt := fun p => p;
  MediaService.pathname := fun _ => Thrown "Invalid URL";
  MediaService.decodeURIComponent := fun s => Returned s;
  MediaService.sortByScore := fun l => l;
  MediaService.downloadToTempFile := fun _ => Returned (Some "/tmp/song.mp4")
|}.

(** The world [W] with every background download rejected. *)
Definition withFailedTasks (W : World) : World :=
  {| config := config W; backend := backend W; now := now W;
     joinVoice := joinVoice W; connectionAtCheck := connectionAtCheck W;
     existsSync := existsSync W;
     downloadTask := fun _ => Thrown "HTTP Error 403";
     ytDlpStdout := ytDlpStdout W; ffmpegError := ffmpegError W;
     playStream := playStream W; writeFile := writeFile W;
     fetchChannel := fetchChannel W; botUsername := botUsername W |}.

(** The background download of the song was rejected, and at the time of
    the playback YouTube cannot be asked about it. *)
Definition afterFailedPrefetch : World :=
  withFailedTasks (world lookupDown (Returned tt) true None (Returned tt) 0).

(** A service whose queue holds the song, not yet played. *)
Definition withSong : Service Queue.VideoQueue :=
  idleService (queueOf [song] None false).


End Scenario.

(** The class [StreamingService] as the file src/services/streaming.ts has
    it: no playback snapshot, no prefetcher and no idle timer.  [playVideo]
    prepares the source before it joins the voice channel, checks a remote
    source with a GET, and finalizes in a [finally] block.  The types of
    [Streaming] are shared; as there, a message to the text channel is taken
    to be delivered and [streamer.client.user] to be set. *)
Module PlainStreaming.

Import Streaming.

(** What this version does to the outside world: the effects of [Streaming],
    and three of its own. *)
Inductive Event :=
| Shared (e : Effect)
(** [streamer.leaveVoice()] *)
| LeaveVoice
(** [DiscordUtils.sendPlaying(message, title)] *)
| SendPlaying (title : string)
(** [DiscordUtils.sendInfo(message, 'Stream Unavailable', ...)] *)
| StreamUnavailable
(** the [fetch] of the URL validation *)
| Validate (url : string) (headers : Headers).

(** How the [fetch] of the URL validation settles, as far as the code looks
    at it. *)
Inductive Response :=
(** [fetch] throws *)
| FetchThrows (error : JsError)
(** [!response.ok] *)
| NotOk
(** the [content-type] header of an ok response, and the error of
    [response.text()] if it throws *)
| Ok (contentType : option string) (textThrows : option JsError).

Record World := {
  base : Streaming.World;
  fetch : string -> Headers -> Response
}.

(** The events that delete a file, start a stream, or schedule the next
    item. *)
Definition removedBy (e : Event) : option string :=
  match e with
  | Shared (Unlink path) => Some path
  | _ => None
  end.

Definition removed (l : list Event) : list string := omap removedBy l.

(** The file that [finalizeStream] deletes for this value of [tempFile]. *)
Definition deletable (tempFile : option string) : list string :=
  match tempFile with
  | Some path => if truthy path then [path] else []
  | None => []
  end.

Definition startedBy (e : Event) : option Input :=
  match e with
  | Shared (StartStream input _ _) => Some input
  | _ => None
  end.

Definition started (l : list Event) : list Input := omap startedBy l.

Definition scheduledBy (e : Event) : option QueueItem.t :=
  match e with
  | Shared (AutoPlay item) => Some item
  | _ => None
  end.

Definition scheduled (l : list Event) : list QueueItem.t := omap scheduledBy l.

Section Service.

Context {Q : Type} `{!Queue.QueueService Q}.

Record Service := mkService {
  (** [private queueService: QueueService] *)
  queueService : Q;
  (** [private streamStatus: StreamStatus] *)
  streamStatus : StreamStatus;
  (** whether [streamer.voiceConnection] is set *)
  voiceConnection : bool;
  (** [private controller: AbortController | null]; the flag is [signal.aborted] *)
  controller : option bool;
  (** [private failedVideos: Set<string>] *)
  failedVideos : gset string;
  (** [private isSkipping: boolean] *)
  isSkipping : bool;
  (** whether [ytDlpProcess] holds a process *)
  ytDlpProcess : bool;
  (** what the service has done to the outside world, oldest first *)
  events : list Event
}.

Definition with_queueService (v : Q) (s : Service) : Service :=
  mkService v (streamStatus s) (voiceConnection s) (controller s) (failedVideos s) (isSkipping s) (ytDlpProcess s) (events s).

Definition with_streamStatus (v : StreamStatus) (s : Service) : Service :=
  mkService (queueService s) v (voiceConnection s) (controller s) (failedVideos s) (isSkipping s) (ytDlpProcess s) (events s).

Definition with_voiceConnection (v : bool) (s : Service) : Service :=
  mkService (queueService s) (streamStatus s) v (controller s) (failedVideos s) (isSkipping s) (ytDlpProcess s) (events s).

Definition with_controller (v : option bool) (s : Service) : Service :=
  mkService (queueService s) (streamStatus s) (voiceConnection s) v (failedVideos s) (isSkipping s) (ytDlpProcess s) (events s).

Definition with_failedVideos (v : gset string) (s : Service) : Service :=
  mkService (queueService s) (streamStatus s) (voiceConnection s) (controller s) v (isSkipping s) (ytDlpProcess s) (events s).

Definition with_ytDlpProcess (v : bool) (s : Service) : Service :=
  mkService (queueService s) (streamStatus s) (voiceConnection s) (controller s) (failedVideos s) (isSkipping s) v (events s).

Definition with_events (v : list Event) (s : Service) : Service :=
  mkService (queueService s) (streamStatus s) (voiceConnection s) (controller s) (failedVideos s) (isSkipping s) (ytDlpProcess s) v.

Definition with_status (f : StreamStatus -> StreamStatus) (s : Service) : Service :=
  with_streamStatus (f (streamStatus s)) s.

Definition log (e : Event) (s : Service) : Service :=
  with_events (events s ++ [e]) s.

Definition did (e : Effect) (s : Service) : Service := log (Shared e) s.

Definition notify (n : Notice) (s : Service) : Service := did (Notify n) s.

(** [controller && !controller.signal.aborted] *)
Definition controllerLive (s : Service) : bool :=
  match controller s with
  | Some aborted => negb aborted
  | None => false
  end.

(** [controller?.abort()] *)
Definition abort (s : Service) : Service :=
  match controller s with
  | Some _ => with_controller (Some true) s
  | None => s
  end.

(** [ErrorUtils.handleError(error, context, message)] with a message. *)
Definition handleError (error : JsError) (s : Service) : Service :=
  notify (errorNotice error) s.

(** [markVideoAsFailed(videoSource)] *)
Definition markVideoAsFailed (videoSource : string) (s : Service) : Service :=
  with_failedVideos ({[videoSource]} ∪ failedVideos s) s.

(** [cleanupStreamStatus()]: with an empty queue the bot leaves the voice
    channel at once. *)
Definition cleanupStreamStatus (s : Service) : Service :=
  let s1 := did StopStream (abort s) in
  let s2 := if ytDlpProcess s1 then with_ytDlpProcess false (did KillYtDlp s1) else s1 in
  let hasQueueItems := negb (Queue.isEmpty (queueService s2)) in
  let s3 :=
    if negb hasQueueItems
    then with_status (fun st => mkStatus false false (playing st) (manualStop st)
                                  (channelInfo st))
           (log LeaveVoice s2)
    else s2 in
  let s4 := did (SetActivity IdleStatus) s3 in
  with_status
    (fun st => set_channelInfo {| guildId := ""; channelId := ""; cmdChannelId := "" |}
                 (set_manualStop false (set_playing false st))) s4.

(** [stopAndClearQueue()] *)
Definition stopAndClearQueue (s : Service) : Service :=
  cleanupStreamStatus (with_queueService (Queue.clearQueue (queueService s)) s).

(** [handleQueueAdvancement(message)] *)
Definition handleQueueAdvancement (s : Service) : Service :=
  let s1 := notify SendFinishMessage s in
  let '(q, nextItem) := advanceQueue (queueService s1) in
  match nextItem with
  | Some item => did (AutoPlay item) (with_queueService q s1)
  | None => cleanupStreamStatus (with_queueService (Queue.setPlaying false q) s1)
  end.

(** [ensureVoiceConnection(guildId, channelId, title)] *)
Definition ensureVoiceConnection (W : World) (title : option string) (s : Service)
  : Outcome unit * Service :=
  let joining :=
    if negb (joined (streamStatus s)) || negb (voiceConnection s) then
      match joinVoice (base W) with
      | Returned _ => Returned (with_status (set_joined true) (did JoinVoice s))
      | Thrown err => Thrown err
      end
    else Returned s in
  match joining with
  | Thrown err => (Thrown err, s)
  | Returned s1 =>
      let s2 :=
        with_status
          (fun st => set_channelInfo
                       {| guildId := cfg_guildId (config (base W));
                          channelId := cfg_videoChannelId (config (base W));
                          cmdChannelId := cfg_cmdChannelId (config (base W)) |}
                       (set_playing true st)) s1 in
      let s3 :=
        match title with
        | Some t => if truthy t then did (SetActivity (Watching t)) s2 else s2
        | None => s2
        end in
      let s4 := with_voiceConnection (connectionAtCheck (base W)) s3 in
      if connectionAtCheck (base W) then (Returned tt, s4)
      else (Thrown "Voice connection is not established", s4)
  end.

(** [handleDownload(message, videoSource, title)] *)
Definition handleDownload (W : World) (videoSource : string) (title : option string)
    (s : Service) : option string * Service :=
  let s1 := notify (ReplyDownloading (or_else title "YouTube video")) s in
  match MediaService.downloadYouTubeVideo (backend (base W)) videoSource with
  | Returned (Some tempFilePath) =>
      if truthy tempFilePath then (Some tempFilePath, notify DeleteDownloading s1)
      else (None, notify (EditDownloadFailed (or_else title "YouTube video")) s1)
  | _ => (None, notify (EditDownloadFailed (or_else title "YouTube video")) s1)
  end.

(** [prepareVideoSource(message, videoSource, title, headers)] *)
Definition prepareVideoSource (W : World) (videoSource : string) (title : option string)
    (headers : option Headers) (s : Service) : Outcome Prepared * Service :=
  match MediaService.resolveMediaSource (backend (base W)) videoSource with
  | Thrown err => (Thrown err, s)
  | Returned None =>
      (Returned {| inputForFfmpeg := InString videoSource; tempFilePath := None;
                   p_headers := headers |}, s)
  | Returned (Some mediaSource) =>
      if bool_decide (MediaSource.type mediaSource = T_youtube)
         && negb (default false (MediaSource.isLive mediaSource))
      then
        match handleDownload W videoSource title s with
        | (Some tempFilePath, s1) =>
            (Returned {| inputForFfmpeg := InString tempFilePath;
                         tempFilePath := Some tempFilePath; p_headers := None |}, s1)
        | (None, s1) =>
            (Thrown "Failed to prepare video source due to download failure.", s1)
        end
      else if bool_decide (MediaSource.type mediaSource = T_twitch) then
        let s1 := with_ytDlpProcess true s in
        if ytDlpStdout (base W)
        then (Returned {| inputForFfmpeg := InStream; tempFilePath := None;
                          p_headers := None |}, s1)
        else (Thrown "Failed to create stream from yt-dlp", s1)
      else
        (Returned {| inputForFfmpeg := InString (MediaSource.url mediaSource);
                     tempFilePath := None;
                     p_headers := match MediaSource.headers mediaSource with
                                  | Some h => Some h
                                  | None => headers
                                  end |}, s)
  end.

(** The input options that [executeStream] gives to the ffmpeg command. *)
Definition inputOptionsFor (input : Input) : list string :=
  let inputOptions :=
    ["-analyzeduration"; "10000000"; "-probesize"; "10000000"; "-fflags +igndts"] in
  match input with
  | InString inputForFfmpeg =>
      (inputOptions
       ++ ["-reconnect"; "1"; "-reconnect_streamed"; "1"; "-reconnect_delay_max"; "5";
           "-protocol_whitelist"; "file,http,https,tcp,tls,crypto"]
       ++ (if includes inputForFfmpeg ".m3u8" then ["-f"; "hls"] else []))%list
  | InStream => inputOptions
  end.

(** [executeStream], after [executeStreamWorkflow] has made a new
    controller; the options of [setupStreamConfiguration] carry no
    [customHeaders]. *)
Definition executeStream (W : World) (input : Input) (headers : option Headers)
    (s : Service) : Outcome unit * Service :=
  let s1 := did (StartStream input (inputOptionsFor input)
                   (customHeadersFor None headers)) s in
  let '(recorded, s2) :=
    match ffmpegError (base W) with
    | Some err =>
        if negb (manualStop (streamStatus s1)) && controllerLive s1
        then (Some err, abort s1) else (None, s1)
    | None => (None, s1)
    end in
  match playStream (base W) with
  | Thrown err =>
      if controllerLive s2 then (Thrown err, s2)
      else match recorded with
           | Some e => (Thrown e, s2)
           | None => (Returned tt, s2)
           end
  | Returned _ =>
      match recorded with
      | Some e => (Thrown e, s2)
      | None => (Returned tt, s2)
      end
  end.

(** [executeStreamWorkflow] *)
Definition executeStreamWorkflow (W : World) (input : Input) (headers : option Headers)
    (s : Service) : Outcome unit * Service :=
  executeStream W input headers (with_controller (Some false) s).

(** [finalizeStream(message, tempFile)] *)
Definition finalizeStream (tempFile : option string) (s : Service) : Service :=
  let s1 :=
    if negb (manualStop (streamStatus s)) && controllerLive s
    then handleQueueAdvancement s
    else cleanupStreamStatus
           (with_queueService
              (Queue.resetCurrentIndex (Queue.setPlaying false (queueService s))) s) in
  match tempFile with
  | Some path => if truthy path then did (Unlink path) s1 else s1
  | None => s1
  end.

Definition webpageError : JsError := "Source is a webpage, not a video stream".

(** The headers of the validation request: [finalHeaders || { 'User-Agent':
    ... }]. *)
Definition validationHeaders (finalHeaders : option Headers) : Headers :=
  match finalHeaders with
  | Some h => h
  | None => <["User-Agent" := MediaService.chromeUserAgent]> ∅
  end.

(** The inner [try] of the URL validation, and its [catch]: an error with
    the message of [webpageError] is thrown on, any other is logged. *)
Definition checkResponse (response : Response) : Outcome unit :=
  let checked :=
    match response with
    | FetchThrows error => Thrown error
    | NotOk => Returned tt
    | Ok contentType textThrows =>
        if truthy_opt contentType && includes (default "" contentType) "text/html"
        then Thrown webpageError
        else match textThrows with
             | Some error => Thrown error
             | None => Returned tt
             end
    end in
  match checked with
  | Thrown error => if String.eqb error webpageError then Thrown error else Returned tt
  | Returned _ => Returned tt
  end.

(** The URL validation of [playVideo]. *)
Definition validateUrl (W : World) (prepared : Prepared) (s : Service)
  : Outcome unit * Service :=
  match inputForFfmpeg prepared with
  | InString input =>
      if startsWith input "http" then
        let finalHeaders := validationHeaders (p_headers prepared) in
        (checkResponse (fetch W input finalHeaders), log (Validate input finalHeaders) s)
      else (Returned tt, s)
  | InStream => (Returned tt, s)
  end.

(** The statements of [playVideo] before the [try]. *)
Definition playVideo_begin (title : option string) (s : Service) : Service :=
  let s0 := with_status (set_manualStop false) s in
  if truthy_opt title then
    match Queue.getCurrent (queueService s0) with
    | Some currentQueueItem =>
        if String.eqb (QueueItem.title currentQueueItem) (default "" title)
        then with_queueService (Queue.setPlaying true (queueService s0)) s0
        else s0
    | None => s0
    end
  else s0.

(** Where the [try] block of [playVideo] ends: how, in which state, and with
    which value of [tempFile]. *)
Record Attempt := {
  outcome : Outcome unit;
  after : Service;
  tempFile : option string
}.

(** The [try] block of [playVideo]; the encoder settings of
    [setupStreamConfiguration] are left out. *)
Definition playVideo_try (W : World) (videoSource : string) (title : option string)
    (headers : option Headers) (s : Service) : Attempt :=
  match prepareVideoSource W videoSource title headers s with
  | (Thrown error, s1) => {| outcome := Thrown error; after := s1; tempFile := None |}
  | (Returned prepared, s1) =>
      let tempFile := tempFilePath prepared in
      match ensureVoiceConnection W title s1 with
      | (Thrown error, s2) =>
          {| outcome := Thrown error; after := s2; tempFile := tempFile |}
      | (Returned _, s2) =>
          let s3 :=
            match title with
            | Some t => if truthy t then did (SetActivity (Watching t)) s2 else s2
            | None => s2
            end in
          let s4 := log (SendPlaying (or_else title videoSource)) s3 in
          match validateUrl W prepared s4 with
          | (Thrown error, s5) =>
              {| outcome := Thrown error; after := s5; tempFile := tempFile |}
          | (Returned _, s5) =>
              let '(result, s6) :=
                executeStreamWorkflow W (inputForFfmpeg prepared) (p_headers prepared) s5 in
              {| outcome := result; after := s6; tempFile := tempFile |}
          end
      end
  end.

(** The [catch] block of [playVideo]. *)
Definition playVideo_catch (error : JsError) (videoSource : string) (s : Service) : Service :=
  let s1 :=
    if includes error "Invalid data found when processing input"
       || includes error "Could not open source file"
       || String.eqb error webpageError
    then log StreamUnavailable s
    else handleError error s in
  let s2 := if controllerLive s1 then abort s1 else s1 in
  markVideoAsFailed videoSource s2.

(** [playVideo(message, videoSource, title, videoParams, headers)], run from
    call to return with nothing else in between. *)
Definition playVideo (W : World) (videoSource : string) (title : option string)
    (headers : option Headers) (s : Service) : Service :=
  let attempt := playVideo_try W videoSource title headers (playVideo_begin title s) in
  match outcome attempt with
  | Thrown error =>
      finalizeStream (tempFile attempt) (playVideo_catch error videoSource (after attempt))
  | Returned _ => finalizeStream (tempFile attempt) (after attempt)
  end.

(** What a step leaves as it was: the queue, the set of failed sources, the
    manual-stop flag, and the files deleted and items scheduled so far. *)
Definition keeps (s s' : Service) : Prop :=
  queueService s' = queueService s
  /\ failedVideos s' = failedVideos s
  /\ manualStop (streamStatus s') = manualStop (streamStatus s)
  /\ removed (events s') = removed (events s)
  /\ scheduled (events s') = scheduled (events s).

End Service.

Arguments Service Q : clear implicits.
Arguments Attempt Q : clear implicits.


(** A service that has just been constructed around a queue. *)
Definition idleService (q : Queue.VideoQueue) : Service Queue.VideoQueue :=
  mkService q (mkStatus false false false false Scenario.noChannel)
    false None ∅ false false [].

(** A world in which every validation request gets this response. *)
Definition answering (W : Streaming.World) (response : Response) : World :=
  {| base := W; fetch := fun _ _ => response |}.

(** YouTube answers for every link with a video that is not live, and the
    download writes this file. *)
Definition downloading (path : string) : MediaService.Backend := {|
  MediaService.getVideoInfo := MediaService.getVideoInfo Scenario.tubeBackend;
  MediaService.getLiveStreamUrl := MediaService.getLiveStreamUrl Scenario.tubeBackend;
  MediaService.searchAndGetPageUrl := MediaService.searchAndGetPageUrl Scenario.tubeBackend;
  MediaService.ytdl := MediaService.ytdl Scenario.tubeBackend;
  MediaService.findStream := MediaService.findStream Scenario.tubeBackend;
  MediaService.isFile := MediaService.isFile Scenario.tubeBackend;
  MediaService.basenameNoExt := MediaService.basenameNoExt Scenario.tubeBackend;
  MediaService.pathname := MediaService.pathname Scenario.tubeBackend;
  MediaService.decodeURIComponent := MediaService.decodeURIComponent Scenario.tubeBackend;
  MediaService.sortByScore := MediaService.sortByScore Scenario.tubeBackend;
  MediaService.downloadToTempFile := fun _ => Returned (Some path)
|}.

(** The song is downloaded and the voice channel joined; then ffmpeg fails. *)
Definition brokenAfterDownload : World :=
  answering
    (Scenario.world (downloading "/tmp/song.mp4") (Returned tt) true
       (Some "Invalid data found when processing input") (Returned tt) 0)
    NotOk.

(** The song is downloaded; the voice channel cannot be joined. *)
Definition unreachableAfterDownload : World :=
  answering
    (Scenario.world (downloading "/tmp/song.mp4") (Thrown "connect timeout") false
       None (Returned tt) 0)
    NotOk.

(** The song is downloaded and streamed to its end. *)
Definition calmAfterDownload : World :=
  answering
    (Scenario.world (downloading "/tmp/song.mp4") (Returned tt) true None (Returned tt) 0)
    NotOk.

End PlainStreaming.

(* ===================================================================== *)
(** * Part II: properties                                                 *)
(* ===================================================================== *)

Module MediaFacts.

Import MediaService.

Lemma directUrl_returns (B : Backend) (url : string) :
  exists source, _resolveDirectUrlSource B url = Returned source.
Proof.
  unfold _resolveDirectUrlSource.
  destruct (probeDirectUrl B url); eauto.
Qed.

Lemma search_returns (B : Backend) (query : string) :
  exists r, searchAndPlayYouTube B query = Returned r.
Proof.
  unfold searchAndPlayYouTube.
  destruct (searchAndGetPageUrl B query) as [sr|e]; simpl; [|eauto].
  destruct (truthy_opt (pageUrl sr) && truthy_opt (sr_title sr)); simpl; eauto.
Qed.

Lemma twitch_returns (B : Backend) (url : string) :
  exists r, _resolveTwitchSource B url = Returned r.
Proof.
  unfold _resolveTwitchSource.
  destruct (ytdl B url) as [[md|]|e]; simpl; eauto.
  destruct (truthy_opt (yt_url md)); simpl; eauto.
Qed.

Lemma embed_returns (B : Backend) (url : string) :
  exists r, _resolveEmbedSource B url = Returned r.
Proof.
  unfold _resolveEmbedSource.
  destruct (findStream B url); simpl; eauto.
Qed.

(** Whatever the backend does, [resolveMediaSource] returns. *)
Lemma resolveMediaSource_returns (B : Backend) (url : string) :
  exists r, resolveMediaSource B url = Returned r.
Proof.
  unfold resolveMediaSource, runStrategy.
  destruct (dispatch B url); simpl.
  - destruct (_resolveYouTubeSource B url); simpl; eauto.
  - destruct (twitch_returns B url) as [r ->]; simpl; eauto.
  - destruct (embed_returns B url) as [r ->]; simpl; eauto.
  - eauto.
  - destruct (directUrl_returns B url) as [r ->]; simpl; eauto.
  - apply search_returns.
Qed.

(** An error of the strategy that was chosen becomes [null]. *)
Lemma resolveMediaSource_error_is_null (B : Backend) (url : string) (e : JsError) :
  runStrategy B (dispatch B url) url = Awaited (Thrown e) ->
  resolveMediaSource B url = Returned None.
Proof.
  unfold resolveMediaSource. intros ->. reflexivity.
Qed.

Lemma isValidUrl_after_links (url : string) :
  includes url "youtube.com/" || includes url "youtu.be/" = false ->
  includes url "twitch.tv/" = false ->
  GeneralUtils.isValidUrl url =
    includes url "cinemaos.tech/" || includes url "vidking.net/"
    || startsWith url "http://" || startsWith url "https://".
Proof.
  intros Hyt Htw. unfold GeneralUtils.isValidUrl.
  apply orb_false_elim in Hyt as [-> ->]. rewrite Htw. simpl.
  unfold truthy. destruct (String.eqb_spec url "") as [->|_]; reflexivity.
Qed.

(** C8, as amended: [resolveMediaSource] tests the input in a fixed order and
    the first test that holds decides the result: a YouTube link, then a
    Twitch link, then one of the two embed hosts, then an existing local
    file, then an input that contains [cinemaos.tech/] or [vidking.net/] or
    starts with [http://] or [https://], and otherwise the free-text search.
    The direct-URL strategy answers with a source of type [url]: with the
    title of the metadata probe when the probe finds one, and otherwise with
    the given URL and a title taken from its file name. *)
Theorem resolveMediaSource_dispatch_order (B : Backend) (url : string) :
  let youtubeLink := includes url "youtube.com/" || includes url "youtu.be/" in
  let twitchLink := includes url "twitch.tv/" in
  let embedHost := includes url "vidsrc.cc" || includes url "vidlink.pro" in
  let localFile := GeneralUtils.isLocalFile (isFile B) url in
  let direct := includes url "cinemaos.tech/" || includes url "vidking.net/"
                || startsWith url "http://" || startsWith url "https://" in
  (youtubeLink = true ->
     resolveMediaSource B url
     = catch_ (_resolveYouTubeSource B url) (fun _ => Returned None))
  /\ (youtubeLink = false -> twitchLink = true ->
     resolveMediaSource B url = _resolveTwitchSource B url)
  /\ (youtubeLink = false -> twitchLink = false -> embedHost = true ->
     resolveMediaSource B url = _resolveEmbedSource B url)
  /\ (youtubeLink = false -> twitchLink = false -> embedHost = false ->
     localFile = true ->
     resolveMediaSource B url = Returned (Some (_resolveLocalSource B url)))
  /\ (youtubeLink = false -> twitchLink = false -> embedHost = false ->
     localFile = false -> direct = true ->
     exists source,
       resolveMediaSource B url = Returned (Some source)
       /\ MediaSource.type source = T_url
       /\ (forall md, ytdl B url = Returned (Some md) ->
                      truthy_opt (yt_title md) = true ->
                      Some (MediaSource.title source) = yt_title md)
       /\ (probeDirectUrl B url = None ->
           MediaSource.url source = url
           /\ MediaSource.title source = titleFromUrl B url))
  /\ (youtubeLink = false -> twitchLink = false -> embedHost = false ->
     localFile = false -> direct = false ->
     resolveMediaSource B url = searchAndPlayYouTube B url).
Proof.
  cbv zeta. unfold resolveMediaSource, dispatch.
  repeat split.
  - intros ->. reflexivity.
  - intros -> ->. simpl. destruct (twitch_returns B url) as [r ->]. reflexivity.
  - intros -> -> ->. simpl. destruct (embed_returns B url) as [r ->]. reflexivity.
  - intros -> -> -> ->. reflexivity.
  - intros Hyt Htw Hem Hloc Hdir.
    rewrite (isValidUrl_after_links url Hyt Htw), Hdir, Hyt, Htw, Hem, Hloc. simpl.
    unfold _resolveDirectUrlSource, probeDirectUrl.
    destruct (ytdl B url) as [[md|]|e] eqn:Hprobe; simpl.
    + destruct (truthy_opt (yt_title md)) eqn:Htitle; simpl.
      * eexists. split; [reflexivity|]. simpl. repeat split.
        -- intros md' [= <-] _. destruct (yt_title md) as [t|]; [|discriminate].
           simpl in *. rewrite Htitle. reflexivity.
        -- discriminate.
        -- discriminate.
      * eexists. split; [reflexivity|]. simpl. repeat split.
        intros md' [= <-] Ht. congruence.
    + eexists. split; [reflexivity|]. simpl. repeat split. intros md' [=].
    + eexists. split; [reflexivity|]. simpl. repeat split. intros md' [=].
  - intros Hyt Htw Hem Hloc Hdir.
    rewrite (isValidUrl_after_links url Hyt Htw), Hdir, Hyt, Htw, Hem, Hloc.
    reflexivity.
Qed.

(** C8, as stated, fails: an FTP address parses as an absolute URL and is
    none of the earlier kinds, yet it is handed to the free-text search. *)
Lemma absolute_url_sent_to_search : ~ absolute_urls_are_direct.
Proof.
  intros H.
  specialize (H deadBackend "ftp://example.com/video.mp4").
  vm_compute in H.
  assert (Search = DirectUrl) as Habs by (apply H; congruence).
  discriminate Habs.
Qed.

Example ftp_url_resolves_by_search :
  resolveMediaSource deadBackend "ftp://example.com/video.mp4"
  = searchAndPlayYouTube deadBackend "ftp://example.com/video.mp4".
Proof. reflexivity. Qed.

Example https_url_resolves_directly :
  resolveMediaSource deadBackend "https://example.com/clips/video.mp4"
  = Returned (Some (MediaSource.mk "https://example.com/clips/video.mp4"
                      "Direct URL" T_url None None)).
Proof. reflexivity. Qed.

End MediaFacts.

Module FfmpegFacts.

Import Ffmpeg.

Lemma isRunning_insert (ffmpegRunning : gmap string bool) (videoPath : string) (b : bool) :
  isRunning (<[videoPath := b]> ffmpegRunning) videoPath = b.
Proof. unfold isRunning. by rewrite lookup_insert_eq. Qed.

Lemma isRunning_insert_ne (ffmpegRunning : gmap string bool) (p p' : string) (b : bool) :
  p <> p' -> isRunning (<[p := b]> ffmpegRunning) p' = isRunning ffmpegRunning p'.
Proof. intros Hne. unfold isRunning. by rewrite lookup_insert_ne. Qed.

Lemma step_released (W : ShotWorld) (videoPath : string) st :
  released videoPath st -> released videoPath (step W videoPath st).
Proof.
  destruct st as [ffmpegRunning call]. unfold released, step.
  destruct call as [|todo images|r]; simpl.
  - intros _. destruct (isRunning ffmpegRunning videoPath); simpl; exact I.
  - intros _. destruct todo as [|[index timestamp] rest]; simpl.
    + apply isRunning_insert.
    + destruct (screenshot W videoPath _ timestamp); simpl.
      * destruct rest; simpl; [apply isRunning_insert | exact I].
      * apply isRunning_insert.
  - auto.
Qed.

Lemma run_released (W : ShotWorld) (videoPath : string) (n : nat) st :
  released videoPath st -> released videoPath (run W videoPath n st).
Proof.
  revert st. induction n as [|n IH]; intros st Hst; simpl; [exact Hst|].
  apply IH, step_released, Hst.
Qed.

Lemma run_settled (W : ShotWorld) (videoPath : string) (n : nat) ffmpegRunning r :
  run W videoPath n (ffmpegRunning, Settled r) = (ffmpegRunning, Settled r).
Proof. induction n as [|n IH]; simpl; [reflexivity | exact IH]. Qed.

(** A call that holds the flag settles within as many turns as screenshots
    are left, and then the table is the one it found with the flag cleared. *)
Lemma shooting_settles (W : ShotWorld) (videoPath : string)
    (ffmpegRunning : gmap string bool) (todo : list (nat * string)) :
  forall (images : list string) (n : nat),
    todo <> [] -> length todo <= n ->
    exists r, run W videoPath n (ffmpegRunning, Shooting todo images)
              = (<[videoPath := false]> ffmpegRunning, Settled r).
Proof.
  induction todo as [|[index timestamp] rest IH]; intros images n Hne Hlen; [done|].
  destruct n as [|n]; simpl in Hlen; [lia|].
  simpl. destruct (screenshot W videoPath _ timestamp).
  - destruct rest as [|next rest'].
    + eexists. apply run_settled.
    + apply IH; [done | simpl in *; lia].
  - eexists. apply run_settled.
Qed.

(** C9: a call of [ffmpegScreenshot] that settles, with the images or with
    the error of ffmpeg, leaves the flag of its path [false]; on a free path
    it does settle, changes no other flag, and the next call for the same
    path gets past the wait loop at once. *)
Theorem ffmpegScreenshot_releases_lock (W : ShotWorld) (videoPath : string)
    (ffmpegRunning : gmap string bool) :
  (forall n ffmpegRunning' r,
      run W videoPath n (ffmpegRunning, Polling) = (ffmpegRunning', Settled r) ->
      isRunning ffmpegRunning' videoPath = false
      /\ exists todo, step W videoPath (ffmpegRunning', Polling)
                      = (<[videoPath := true]> ffmpegRunning', Shooting todo []))
  /\ (isRunning ffmpegRunning videoPath = false ->
      exists r,
        ffmpegScreenshot W videoPath ffmpegRunning
        = (<[videoPath := false]> (<[videoPath := true]> ffmpegRunning), Settled r)
        /\ forall other, other <> videoPath ->
             isRunning (<[videoPath := false]> (<[videoPath := true]> ffmpegRunning)) other
             = isRunning ffmpegRunning other).
Proof.
  split.
  - intros n ffmpegRunning' r Hrun.
    assert (released videoPath (run W videoPath n (ffmpegRunning, Polling))) as Hrel
      by (apply run_released; exact I).
    rewrite Hrun in Hrel. unfold released in Hrel. simpl in Hrel.
    split; [exact Hrel|].
    eexists. unfold step. rewrite Hrel. reflexivity.
  - intros Hfree. unfold ffmpegScreenshot.
    change (run W videoPath (S (length timestamps)) (ffmpegRunning, Polling))
      with (run W videoPath (length timestamps) (step W videoPath (ffmpegRunning, Polling))).
    unfold step at 1. rewrite Hfree.
    destruct (shooting_settles W videoPath (<[videoPath := true]> ffmpegRunning)
                (entries timestamps) [] (length timestamps)) as [r Hr];
      [discriminate | reflexivity |].
    exists r. split; [exact Hr|].
    intros other Hne. by rewrite !isRunning_insert_ne.
Qed.

Example screenshots_succeed :
  snd (ffmpegScreenshot (shots None) "clip.mp4" ∅)
  = Settled (Returned ["cache/clip-1.jpg"; "cache/clip-2.jpg"; "cache/clip-3.jpg";
                       "cache/clip-4.jpg"; "cache/clip-5.jpg"])
  /\ isRunning (fst (ffmpegScreenshot (shots None) "clip.mp4" ∅)) "clip.mp4" = false.
Proof. split; vm_compute; reflexivity. Qed.

Example screenshots_fail :
  snd (ffmpegScreenshot (shots (Some "50%")) "clip.mp4" ∅)
  = Settled (Thrown "ffmpeg exited with code 1")
  /\ isRunning (fst (ffmpegScreenshot (shots (Some "50%")) "clip.mp4" ∅)) "clip.mp4" = false.
Proof. split; vm_compute; reflexivity. Qed.

Lemma frameRate_zero (toNumber : string -> JsNumber) (rFrameRate : string) :
  nonZero (denominatorOf toNumber rFrameRate) = false ->
  frameRate toNumber rFrameRate = FpsZero.
Proof.
  unfold frameRate, denominatorOf. intros ->. reflexivity.
Qed.

Lemma frameRate_quotient (toNumber : string -> JsNumber) (rFrameRate : string) n d :
  frameRate toNumber rFrameRate = FpsQuotient n d ->
  denominatorOf toNumber rFrameRate = Some d /\ nonZero (Some d) = true.
Proof.
  unfold frameRate, denominatorOf.
  destruct (nonZero _) eqn:Hnz; [|discriminate].
  destruct ((toNumber <$> split "/" rFrameRate) !! 1%nat) as [d'|]; [|discriminate].
  intros [= _ <-]. split; [reflexivity | exact Hnz].
Qed.

Lemma nonZero_number (d : JsNumber) :
  nonZero (Some d) = true ->
  d <> JsNaN /\ (forall q, d = JsNum q -> ~ (q == 0)%Q).
Proof.
  intros Hnz. split.
  - intros ->. discriminate.
  - intros q -> Hzero. simpl in Hnz.
    apply Qeq_bool_iff in Hzero. rewrite Hzero in Hnz. discriminate.
Qed.

Lemma getVideoParams_resolved (toNumber : string -> JsNumber)
    (probe : Outcome (list FfprobeStream)) (videoPath : string) (params : VideoParams) :
  getVideoParams toNumber probe videoPath = Returned params ->
  exists streams videoStream,
    probe = Returned streams
    /\ findVideoStream streams = Some videoStream
    /\ width videoStream = Some (vp_width params) /\ vp_width params <> 0%Z
    /\ height videoStream = Some (vp_height params) /\ vp_height params <> 0%Z
    /\ vp_fps params =
       match rFrameRateOf videoStream with
       | Some rFrameRate =>
           if truthy rFrameRate then frameRate toNumber rFrameRate else FpsZero
       | None => FpsZero
       end.
Proof.
  unfold getVideoParams.
  destruct probe as [streams|e]; [|discriminate].
  destruct (findVideoStream streams) as [vs|] eqn:Hfind; [|discriminate].
  destruct (width vs) as [w|] eqn:Hw; [|discriminate].
  destruct (height vs) as [h|] eqn:Hh; [|discriminate].
  destruct (truthyZ (Some w) && truthyZ (Some h)) eqn:Hwh; [|discriminate].
  intros [= <-]. simpl.
  apply andb_true_iff in Hwh as [Hw0 Hh0]. simpl in Hw0, Hh0.
  exists streams, vs. rewrite Hw, Hh.
  split; [reflexivity|]. split; [exact Hfind|]. split; [reflexivity|].
  split; [intros ->; discriminate|]. split; [reflexivity|].
  split; [intros ->; discriminate|].
  destruct (rFrameRateOf vs) as [r|]; reflexivity.
Qed.

(** C10: [getVideoParams] divides only by a denominator that is a number
    other than zero; when the denominator of the frame-rate string is
    missing, zero or not a number the frame rate is [0]; and it resolves
    only with the width and height of the first video stream, both present
    and not zero, and rejects otherwise. *)
Theorem getVideoParams_safe (toNumber : string -> JsNumber)
    (probe : Outcome (list FfprobeStream)) (videoPath : string) :
  (forall params, getVideoParams toNumber probe videoPath = Returned params ->
     exists streams videoStream,
       probe = Returned streams
       /\ findVideoStream streams = Some videoStream
       /\ width videoStream = Some (vp_width params) /\ vp_width params <> 0%Z
       /\ height videoStream = Some (vp_height params) /\ vp_height params <> 0%Z
       /\ (forall n d, vp_fps params = FpsQuotient n d ->
             d <> JsNaN /\ (forall q, d = JsNum q -> ~ (q == 0)%Q))
       /\ (forall rFrameRate,
             rFrameRateOf videoStream = Some rFrameRate ->
             nonZero (denominatorOf toNumber rFrameRate) = false ->
             vp_fps params = FpsZero))
  /\ (raises probe = true -> raises (getVideoParams toNumber probe videoPath) = true).
Proof.
  split.
  - intros params Hget.
    destruct (getVideoParams_resolved _ _ _ _ Hget)
      as (streams & vs & Hprobe & Hfind & Hw & Hw0 & Hh & Hh0 & Hfps).
    exists streams, vs.
    split; [exact Hprobe|]. split; [exact Hfind|]. split; [exact Hw|].
    split; [exact Hw0|]. split; [exact Hh|]. split; [exact Hh0|]. split.
    + intros n d Hq. rewrite Hfps in Hq.
      destruct (rFrameRateOf vs) as [r|]; [|discriminate].
      destruct (truthy r); [|discriminate].
      apply frameRate_quotient in Hq as [_ Hnz].
      apply nonZero_number, Hnz.
    + intros r Hr Hden. rewrite Hfps, Hr.
      destruct (truthy r); [|reflexivity].
      apply frameRate_zero, Hden.
  - destruct probe; [discriminate | reflexivity].
Qed.

Example fps_of_ntsc :
  vp_fps <$> getVideoParams decimalNumber (Returned [videoStreamOf "30000/1001"]) "a.mp4"
  = Returned (FpsQuotient (Some (JsNum (inject_Z 30000))) (JsNum (inject_Z 1001))).
Proof. reflexivity. Qed.

Example fps_of_zero_denominator :
  vp_fps <$> getVideoParams decimalNumber (Returned [videoStreamOf "0/0"]) "a.mp4"
  = Returned FpsZero
  /\ vp_fps <$> getVideoParams decimalNumber (Returned [videoStreamOf "25"]) "a.mp4"
    = Returned FpsZero.
Proof. split; reflexivity. Qed.

End FfmpegFacts.

Module StreamingFacts.

Import Streaming Scenario.

Local Open Scope list_scope.

Section Facts.

Context {Q : Type} `{!Queue.QueueService Q}.

Implicit Types (s : Service Q) (W : World).

(** Membership in a list that is written out. *)
Ltac in_list :=
  repeat first [ apply list_elem_of_here | apply list_elem_of_further ].
Ltac not_in_list :=
  let Hin := fresh "Hin" in
  intros Hin;
  repeat (apply elem_of_cons in Hin as [Hin|Hin]; [discriminate Hin|]);
  apply elem_of_nil in Hin; exact Hin.

(** ** What [cleanupStreamStatus] and [handleQueueAdvancement] change *)

Lemma cleanup_status s :
  playing (streamStatus (cleanupStreamStatus s)) = false
  /\ manualStop (streamStatus (cleanupStreamStatus s)) = false.
Proof.
  unfold cleanupStreamStatus.
  destruct (ytDlpProcess _); simpl; destruct (Queue.isEmpty _); simpl; auto.
Qed.

Lemma cleanup_frame s :
  queueService (cleanupStreamStatus s) = queueService s
  /\ failedVideos (cleanupStreamStatus s) = failedVideos s
  /\ isSkipping (cleanupStreamStatus s) = isSkipping s
  /\ prefetch (cleanupStreamStatus s) = prefetch s
  /\ stateFile (cleanupStreamStatus s) = stateFile s.
Proof.
  unfold cleanupStreamStatus, abort.
  destruct (controller s); simpl;
    destruct (ytDlpProcess s); simpl; destruct (Queue.isEmpty _); simpl; auto.
Qed.

Lemma cleanup_effects s :
  effects (cleanupStreamStatus s)
  = effects s ++ StopStream
      :: (if ytDlpProcess s then [KillYtDlp] else []) ++ [SetActivity IdleStatus].
Proof.
  unfold cleanupStreamStatus, abort.
  destruct (controller s); simpl;
    destruct (ytDlpProcess s); simpl; destruct (Queue.isEmpty _); simpl;
    rewrite <- ?app_assoc; reflexivity.
Qed.

Lemma advancement_next s item :
  snd (advanceQueue (queueService s)) = Some item ->
  handleQueueAdvancement s
  = log (AutoPlay item)
      (with_queueService (fst (advanceQueue (queueService s)))
         (notify SendFinishMessage s)).
Proof.
  unfold handleQueueAdvancement. simpl.
  destruct (advanceQueue (queueService s)) as [q next]. simpl. intros ->. reflexivity.
Qed.

Lemma advancement_none s :
  snd (advanceQueue (queueService s)) = None ->
  handleQueueAdvancement s
  = cleanupStreamStatus
      (with_queueService (Queue.setPlaying false (fst (advanceQueue (queueService s))))
         (notify SendFinishMessage s)).
Proof.
  unfold handleQueueAdvancement. simpl.
  destruct (advanceQueue (queueService s)) as [q next]. simpl. intros ->. reflexivity.
Qed.

Lemma advancement_failedVideos s :
  failedVideos (handleQueueAdvancement s) = failedVideos s.
Proof.
  destruct (snd (advanceQueue (queueService s))) as [item|] eqn:Hnext.
  - rewrite (advancement_next _ _ Hnext). reflexivity.
  - rewrite (advancement_none _ Hnext).
    destruct (cleanup_frame
                (with_queueService
                   (Queue.setPlaying false (fst (advanceQueue (queueService s))))
                   (notify SendFinishMessage s))) as (_ & -> & _).
    reflexivity.
Qed.

(** ** The [catch] block of [playVideo] *)

Lemma catch_marks_failed (error : JsError) (videoSource : string) s :
  failedVideos (playVideo_catch error videoSource s) = {[videoSource]} ∪ failedVideos s.
Proof.
  unfold playVideo_catch.
  destruct (negb _); [rewrite advancement_failedVideos|]; reflexivity.
Qed.

Lemma catch_manual_stop (error : JsError) (videoSource : string) s :
  manualStop (streamStatus s) = true ->
  playVideo_catch error videoSource s
  = markVideoAsFailed videoSource (handleError error s).
Proof. unfold playVideo_catch. simpl. intros ->. reflexivity. Qed.

Lemma catch_advances (error : JsError) (videoSource : string) s :
  manualStop (streamStatus s) = false ->
  playVideo_catch error videoSource s
  = handleQueueAdvancement (markVideoAsFailed videoSource (handleError error s)).
Proof. unfold playVideo_catch. simpl. intros ->. reflexivity. Qed.

Lemma catch_next (error : JsError) (videoSource : string) s item :
  manualStop (streamStatus s) = false ->
  snd (advanceQueue (queueService s)) = Some item ->
  queueService (playVideo_catch error videoSource s) = fst (advanceQueue (queueService s))
  /\ effects (playVideo_catch error videoSource s)
     = effects s ++ [Notify (errorNotice error); Notify SendFinishMessage; AutoPlay item]
  /\ streamStatus (playVideo_catch error videoSource s) = streamStatus s.
Proof.
  intros Hstop Hnext. rewrite (catch_advances _ _ _ Hstop).
  rewrite (advancement_next _ item); [|exact Hnext].
  simpl. rewrite <- !app_assoc. auto.
Qed.

Lemma catch_none (error : JsError) (videoSource : string) s :
  manualStop (streamStatus s) = false ->
  snd (advanceQueue (queueService s)) = None ->
  queueService (playVideo_catch error videoSource s)
  = Queue.setPlaying false (fst (advanceQueue (queueService s)))
  /\ playing (streamStatus (playVideo_catch error videoSource s)) = false
  /\ manualStop (streamStatus (playVideo_catch error videoSource s)) = false
  /\ effects (playVideo_catch error videoSource s)
     = effects s ++ [Notify (errorNotice error); Notify SendFinishMessage; StopStream]
         ++ (if ytDlpProcess s then [KillYtDlp] else []) ++ [SetActivity IdleStatus].
Proof.
  intros Hstop Hnext. rewrite (catch_advances _ _ _ Hstop).
  rewrite advancement_none; [|exact Hnext].
  set (s1 := with_queueService _ _).
  destruct (cleanup_status s1) as [Hp Hm].
  destruct (cleanup_frame s1) as (Hq & _).
  rewrite Hq, Hp, Hm, cleanup_effects. subst s1. simpl.
  rewrite <- !app_assoc. auto.
Qed.

(** ** What the stages of [playVideo] leave alone *)

Lemma begin_manualStop (title : option string) s :
  manualStop (streamStatus (playVideo_begin title s)) = false.
Proof.
  unfold playVideo_begin.
  destruct (truthy_opt title); [|reflexivity].
  destruct (Queue.getCurrent _) as [c|]; [|reflexivity].
  destruct (String.eqb _ _); reflexivity.
Qed.

Lemma ensure_manualStop W s o s' :
  ensureVoiceConnection W s = (o, s') ->
  manualStop (streamStatus s') = manualStop (streamStatus s)
  /\ queueService s' = queueService s.
Proof.
  unfold ensureVoiceConnection.
  destruct (negb (joined _) || negb (voiceConnection _)); simpl.
  - destruct (joinVoice W); simpl.
    + destruct (connectionAtCheck W); intros [= <- <-]; auto.
    + intros [= <- <-]; auto.
  - destruct (connectionAtCheck W); intros [= <- <-]; auto.
Qed.

Lemma downloadSettled_frame W item task s :
  streamStatus (downloadSettled W item task s) = streamStatus s
  /\ queueService (downloadSettled W item task s) = queueService s
  /\ effects (downloadSettled W item task s) = effects s.
Proof. unfold downloadSettled. destruct (downloadTask W task); auto. Qed.





(** An uninterrupted run of [playVideo] reaches its [catch] block with
    [manualStop] unset, whichever stage throws. *)
Lemma playVideo_connection_error W (videoSource : string) (title : option string)
    (headers : option Headers) (queueItem : option QueueItem.t)
    (seekTime : option Z) s (error : JsError) s2 :
  ensureVoiceConnection W (with_leaveTimeout false (playVideo_begin title s))
  = (Thrown error, s2) ->
  playVideo W videoSource title headers queueItem seekTime s
  = playVideo_catch error videoSource s2
  /\ manualStop (streamStatus s2) = false.
Proof.
  intros Hjoin. unfold playVideo. rewrite Hjoin. split; [reflexivity|].
  apply ensure_manualStop in Hjoin as [-> _]. apply begin_manualStop.
Qed.




Lemma catch_sending_delivered (error : JsError) (videoSource : string) s :
  playVideo_catch_sending (Returned tt) (Returned tt) error videoSource s
  = (Returned tt, playVideo_catch error videoSource s).
Proof.
  unfold playVideo_catch_sending, playVideo_catch. destruct (negb _); reflexivity.
Qed.

Lemma autoPlayed_app (l1 l2 : list Effect) :
  autoPlayed (l1 ++ l2) = autoPlayed l1 ++ autoPlayed l2.
Proof. unfold autoPlayed. apply omap_app. Qed.


(** ** The skip guard *)















(** C2, as amended: a failure to establish the voice connection is caught
    like every other error of [playVideo].  With its notices delivered, the
    [catch] block reports it and puts the source into the failed set, and
    (in an uninterrupted run, where [manualStop] is unset) it removes the
    current item by its id and asks [getNext()]: the item that the queue
    answers with is scheduled to play, and only when the queue answers with
    none is the service idle for this attempt.  With [manualStop] set the
    queue is left alone.  When the error notice is rejected the block ends
    there: nothing is marked and the queue is not touched. *)
Theorem connection_failure_advances W (videoSource : string) (title : option string)
    (headers : option Headers) (queueItem : option QueueItem.t)
    (seekTime : option Z) s (error : JsError) (s2 : Service Q) :
  ensureVoiceConnection W (with_leaveTimeout false (playVideo_begin title s))
  = (Thrown error, s2) ->
  let s' := playVideo W videoSource title headers queueItem seekTime s in
  let removed :=
    match Queue.getCurrent (queueAtStage title s) with
    | Some finishedItem =>
        Queue.removeFromQueue (QueueItem.id finishedItem) (queueAtStage title s)
    | None => queueAtStage title s
    end in
  playVideo_catch_sending (Returned tt) (Returned tt) error videoSource s2
  = (Returned tt, s')
  /\ Notify (errorNotice error) ∈ effects s'
  /\ failedVideos s' = {[videoSource]} ∪ failedVideos s2
  /\ (forall q next,
        Queue.getNext removed = (q, Some next) ->
        queueService s' = q
        /\ effects s' = effects s2
             ++ [Notify (errorNotice error); Notify SendFinishMessage; AutoPlay next])
  /\ (forall q,
        Queue.getNext removed = (q, None) ->
        queueService s' = Queue.setPlaying false q
        /\ playing (streamStatus s') = false
        /\ manualStop (streamStatus s') = false
        /\ autoPlayed (effects s') = autoPlayed (effects s2))
  /\ (forall stopped : Service Q,
        manualStop (streamStatus stopped) = true ->
        failedVideos (playVideo_catch error videoSource stopped)
        = {[videoSource]} ∪ failedVideos stopped
        /\ queueService (playVideo_catch error videoSource stopped) = queueService stopped
        /\ effects (playVideo_catch error videoSource stopped)
           = effects stopped ++ [Notify (errorNotice error)])
  /\ (forall (rejection : JsError) (finished : Outcome unit),
        playVideo_catch_sending (Thrown rejection) finished error videoSource s2
        = (Thrown rejection, s2)).
Proof.
  intros Hjoin. cbv zeta.
  destruct (playVideo_connection_error W videoSource title headers queueItem seekTime
              s error s2 Hjoin) as [-> Hstop].
  assert (queueService s2 = queueAtStage title s) as Hq
    by (apply ensure_manualStop in Hjoin as [_ ->]; reflexivity).
  rewrite <- Hq. split_and!.
  - apply catch_sending_delivered.
  - destruct (advanceQueue (queueService s2)) as [q [next|]] eqn:Hadvance.
    + destruct (catch_next error videoSource s2 next Hstop) as (_ & -> & _).
      { rewrite Hadvance. reflexivity. }
      apply elem_of_app. right. in_list.
    + destruct (catch_none error videoSource s2 Hstop) as (_ & _ & _ & ->).
      { rewrite Hadvance. reflexivity. }
      apply elem_of_app. right. apply elem_of_app. left. in_list.
  - apply catch_marks_failed.
  - intros q next Hnext.
    assert (advanceQueue (queueService s2) = (q, Some next)) as Hadvance
      by (unfold advanceQueue; exact Hnext).
    destruct (catch_next error videoSource s2 next Hstop) as (Hq' & -> & _).
    { rewrite Hadvance. reflexivity. }
    rewrite Hq', Hadvance. auto.
  - intros q Hnone.
    assert (advanceQueue (queueService s2) = (q, None)) as Hadvance
      by (unfold advanceQueue; exact Hnone).
    destruct (catch_none error videoSource s2 Hstop) as (Hq' & -> & -> & ->).
    { rewrite Hadvance. reflexivity. }
    rewrite Hq', Hadvance. split_and!; try reflexivity.
    rewrite !autoPlayed_app. destruct (ytDlpProcess s2); simpl;
      rewrite app_nil_r; reflexivity.
  - intros stopped Hstopped. rewrite catch_marks_failed.
    rewrite (catch_manual_stop _ _ _ Hstopped). simpl. auto.
  - intros rejection finished. reflexivity.
Qed.

(** ** The prefetcher *)










(** ** Attaching a background download *)





(** ** The resolver and the fallback of [addToQueue] *)

(** C7, as amended: [resolveMediaSource] returns for every input, whatever
    its backends do: an error that the chosen strategy throws is turned into
    [null], and the two strategies whose promise is passed on without
    [await] never reject.  An error of the backend gives [null] in the
    YouTube, Twitch, embed and search strategies.  It does not in the
    direct-URL strategy: when the metadata probe fails, the result is a
    source of type [url] with the given URL and the title taken from its
    file name.  On [null] [addToQueue] enqueues the raw input as a source of
    type [url] whose URL and original input are the input itself. *)
Theorem resolver_fails_soft W (username videoSource : string)
    (title : option string) s :
  let B := backend W in
  (exists r, MediaService.resolveMediaSource B videoSource = Returned r)
  /\ (forall e,
        MediaService.runStrategy B (MediaService.dispatch B videoSource) videoSource
        = Awaited (Thrown e) ->
        MediaService.resolveMediaSource B videoSource = Returned None)
  /\ (forall p,
        MediaService.runStrategy B (MediaService.dispatch B videoSource) videoSource
        = Passed p ->
        exists r, p = Returned r)
  /\ (MediaService.dispatch B videoSource = MediaService.YouTubeLink ->
      raises (MediaService.getVideoInfo B videoSource) = true ->
      MediaService.resolveMediaSource B videoSource = Returned None)
  /\ (MediaService.dispatch B videoSource = MediaService.TwitchLink ->
      raises (MediaService.ytdl B videoSource) = true ->
      MediaService.resolveMediaSource B videoSource = Returned None)
  /\ (MediaService.dispatch B videoSource = MediaService.EmbedHost ->
      raises (MediaService.findStream B videoSource) = true ->
      MediaService.resolveMediaSource B videoSource = Returned None)
  /\ (MediaService.dispatch B videoSource = MediaService.Search ->
      raises (MediaService.searchAndGetPageUrl B videoSource) = true ->
      MediaService.resolveMediaSource B videoSource = Returned None)
  /\ (MediaService.dispatch B videoSource = MediaService.DirectUrl ->
      raises (MediaService.ytdl B videoSource) = true ->
      MediaService.resolveMediaSource B videoSource
      = Returned (Some (MediaSource.mk videoSource
                          (MediaService.titleFromUrl B videoSource) T_url None None)))
  /\ (MediaService.resolveMediaSource B videoSource = Returned None ->
      addToQueue W username videoSource title s
      = (notify (SendSuccess
                   ("Added to queue: `" +:+
                    QueueItem.title
                      (snd (Queue.add videoSource (or_else title videoSource) username
                              T_url false videoSource (queueService s))) +:+ "`"))
           (with_queueService
              (fst (Queue.add videoSource (or_else title videoSource) username
                      T_url false videoSource (queueService s))) s),
         true)).
Proof.
  cbv zeta. split_and!.
  - apply MediaFacts.resolveMediaSource_returns.
  - intros e. apply MediaFacts.resolveMediaSource_error_is_null.
  - intros p. destruct (MediaService.dispatch (backend W) videoSource); simpl;
      try discriminate; intros [= <-].
    + destruct (MediaFacts.directUrl_returns (backend W) videoSource) as [r ->].
      simpl. eauto.
    + apply MediaFacts.search_returns.
  - intros Hdispatch Hraises.
    unfold MediaService.resolveMediaSource. rewrite Hdispatch. simpl.
    unfold MediaService._resolveYouTubeSource.
    destruct (MediaService.getVideoInfo (backend W) videoSource);
      [discriminate | reflexivity].
  - intros Hdispatch Hraises.
    unfold MediaService.resolveMediaSource. rewrite Hdispatch. simpl.
    unfold MediaService._resolveTwitchSource.
    destruct (MediaService.ytdl (backend W) videoSource); [discriminate | reflexivity].
  - intros Hdispatch Hraises.
    unfold MediaService.resolveMediaSource. rewrite Hdispatch. simpl.
    unfold MediaService._resolveEmbedSource.
    destruct (MediaService.findStream (backend W) videoSource);
      [discriminate | reflexivity].
  - intros Hdispatch Hraises.
    unfold MediaService.resolveMediaSource. rewrite Hdispatch. simpl.
    unfold MediaService.searchAndPlayYouTube.
    destruct (MediaService.searchAndGetPageUrl (backend W) videoSource);
      [discriminate | reflexivity].
  - intros Hdispatch Hraises.
    unfold MediaService.resolveMediaSource. rewrite Hdispatch. simpl.
    unfold MediaService._resolveDirectUrlSource, MediaService.probeDirectUrl.
    destruct (MediaService.ytdl (backend W) videoSource); [discriminate | reflexivity].
  - unfold addToQueue. intros ->.
    destruct (Queue.add _ _ _ _ _ _ _) as [q it]. reflexivity.
Qed.

(** ** The playback snapshot *)

Lemma cleanup_keeps_effects s (e : Effect) :
  e ∈ effects s -> e ∈ effects (cleanupStreamStatus s).
Proof. intros Hin. rewrite cleanup_effects. apply elem_of_app. auto. Qed.

Lemma advancement_keeps_effects s (e : Effect) :
  e ∈ effects s -> e ∈ effects (handleQueueAdvancement s).
Proof.
  intros Hin. destruct (snd (advanceQueue (queueService s))) as [item|] eqn:Hnext.
  - rewrite (advancement_next _ _ Hnext). simpl.
    apply elem_of_app. left. apply elem_of_app. auto.
  - rewrite (advancement_none _ Hnext). apply cleanup_keeps_effects. simpl.
    apply elem_of_app. auto.
Qed.

Lemma finalize_keeps_effects (tempFile : option string) s (e : Effect) :
  e ∈ effects s -> e ∈ effects (finalizeStream tempFile s).
Proof.
  intros Hin. unfold finalizeStream.
  assert (forall x : Service Q,
            e ∈ effects x ->
            e ∈ effects match tempFile with
                        | Some path => if truthy path then log (Unlink path) x else x
                        | None => x
                        end) as Hunlink.
  { intros x Hx. destruct tempFile as [path|]; [|exact Hx].
    destruct (truthy path); [|exact Hx]. simpl. apply elem_of_app. auto. }
  apply Hunlink.
  destruct (_ && _); [apply advancement_keeps_effects | apply cleanup_keeps_effects];
    exact Hin.
Qed.

Lemma catch_keeps_effects (error : JsError) (videoSource : string) s (e : Effect) :
  e ∈ effects s -> e ∈ effects (playVideo_catch error videoSource s).
Proof.
  intros Hin. unfold playVideo_catch.
  assert (e ∈ effects (markVideoAsFailed videoSource (handleError error s))) as Hin1
    by (simpl; apply elem_of_app; auto).
  destruct (negb _); [apply advancement_keeps_effects|]; exact Hin1.
Qed.

Lemma executeStream_logs W (input : Input) (seekTime : option Z)
    (customHeaders headers : option Headers) s o s' :
  executeStreamWorkflow W input seekTime customHeaders headers s = (o, s') ->
  StartStream input (inputOptionsFor input seekTime)
    (customHeadersFor customHeaders headers) ∈ effects s'.
Proof.
  unfold executeStreamWorkflow, executeStream, abort.
  destruct (ffmpegError W) as [err|]; simpl;
    repeat case_match; simplify_eq; simpl; intros [= <- <-]; simpl;
    apply elem_of_app; right; apply list_elem_of_here.
Qed.

(** A run of [playVideo] that gets past the preparation hands the prepared
    input to the pipeline with the seek offset it was given. *)
Lemma playVideo_starts_stream W (videoSource : string) (title : option string)
    (headers : option Headers) (queueItem : option QueueItem.t)
    (seekTime : option Z) s s2 prepared s3 :
  ensureVoiceConnection W (with_leaveTimeout false (playVideo_begin title s))
  = (Returned tt, s2) ->
  prepareVideoSource W videoSource title headers queueItem s2 = (Returned prepared, s3) ->
  StartStream (inputForFfmpeg prepared)
    (inputOptionsFor (inputForFfmpeg prepared) (seeking seekTime))
    (customHeadersFor (p_headers prepared) (p_headers prepared))
  ∈ effects (playVideo W videoSource title headers queueItem seekTime s).
Proof.
  intros Hjoin Hprep. unfold playVideo. rewrite Hjoin, Hprep.
  destruct (executeStreamWorkflow W _ _ _ _ _) as [[[]|error] s7] eqn:Hexec;
    apply executeStream_logs in Hexec.
  - apply finalize_keeps_effects, Hexec.
  - apply catch_keeps_effects, Hexec.
Qed.

(** ** Two skips and a suspended playback *)





(** The split of [playVideo] at the wait of [ensureVoiceConnection] is the
    call itself when nothing runs in between. *)
Lemma playVideo_split W (videoSource : string) (title : option string)
    (headers : option Headers) (queueItem : option QueueItem.t)
    (seekTime : option Z) s :
  playVideo W videoSource title headers queueItem seekTime s
  = match playVideo_enter W title s with
    | (Thrown error, s2) => playVideo_catch error videoSource s2
    | (Returned _, s1) =>
        playVideo_resume W videoSource title headers queueItem seekTime s1
    end.
Proof.
  unfold playVideo, playVideo_enter, playVideo_resume, ensureVoiceConnection,
    ensureVoiceConnection_enter, ensureVoiceConnection_resume.
  destruct (negb _ || negb _); [destruct (joinVoice W)|]; reflexivity.
Qed.


Lemma resume_stale W (restarted : Service Q) (state : PlaybackState) :
  stateFile restarted = Saved state ->
  (freshness < now W - lastActive state)%Z ->
  resumeState W restarted = with_stateFile NoFile restarted.
Proof.
  unfold resumeState. intros -> Hstale.
  destruct (Z.ltb_spec freshness (now W - lastActive state)); [reflexivity | lia].
Qed.

Lemma resume_fresh W (restarted : Service Q) (state : PlaybackState)
    (current : QueueItem.t) :
  stateFile restarted = Saved state ->
  (now W - lastActive state <= freshness)%Z ->
  fetchChannel W (textChannelId state) = Returned true ->
  Queue.at_index (queue state) (currentQueueIndex state) = Some current ->
  resumeState W restarted
  = playVideo W
      (or_else (QueueItem.originalInput current) (QueueItem.url current))
      (Some (QueueItem.title current)) None None (Some (timestamp state))
      (fst (addToQueue W (botUsername W)
              (or_else (QueueItem.originalInput current) (QueueItem.url current))
              None restarted)).
Proof.
  unfold resumeState. intros -> Hfresh -> ->.
  destruct (Z.ltb_spec freshness (now W - lastActive state)); [lia | reflexivity].
Qed.

Lemma addToQueue_queue W (username videoSource : string) (title : option string) s :
  queueService (fst (addToQueue W username videoSource title s))
  = match MediaService.resolveMediaSource (backend W) videoSource with
    | Returned (Some mediaSource) =>
        fst (Queue.addToQueue mediaSource username videoSource (queueService s))
    | Returned None =>
        fst (Queue.add videoSource (or_else title videoSource) username T_url false
               videoSource (queueService s))
    | Thrown _ => queueService s
    end.
Proof.
  unfold addToQueue.
  destruct (MediaService.resolveMediaSource (backend W) videoSource) as [[ms|]|e].
  - destruct (Queue.addToQueue ms username videoSource (queueService s)) as [q it].
    simpl. destruct (_ && _); reflexivity.
  - destruct (Queue.add _ _ _ _ _ _ _) as [q it]. reflexivity.
  - reflexivity.
Qed.

Lemma seek_option (elapsed : Z) (input : Input) :
  inputOptionsFor input (seeking (Some elapsed))
  = if (elapsed =? 0)%Z then inputOptionsFor input None
    else "-ss" :: pretty elapsed :: inputOptionsFor input None.
Proof.
  unfold seeking, inputOptionsFor.
  destruct (elapsed =? 0)%Z eqn:Hzero; [reflexivity|].
  rewrite Hzero. destruct input; reflexivity.
Qed.

(** C4: a state saved by the timer while the service plays, when it is read
    back no more than an hour after it was written and the text channel can
    be fetched, makes [resumeState] enqueue one item whose original input is
    that of the saved current item (its URL when it has none) and play that
    source through [playVideo] with the saved elapsed seconds as the seek
    time, which ffmpeg is given as its [-ss] option when the run gets that
    far (no option for zero seconds).  A state that is older than an hour only has its file deleted:
    nothing is enqueued or played. *)
Theorem snapshot_resumes_current_item (W0 W1 : World) (s restarted : Service Q)
    (current : QueueItem.t) :
  playing (streamStatus s) = true ->
  writeFile W0 = true ->
  Queue.getCurrent (queueService s) = Some current ->
  Queue.at_index (Queue.items (Queue.getQueueStatus (queueService s)))
    (Queue.currentIndex (Queue.getQueueStatus (queueService s))) = Some current ->
  stateFile restarted = stateFile (stateSaverTick W0 s) ->
  let source := or_else (QueueItem.originalInput current) (QueueItem.url current) in
  let elapsed := ((now W0 - startTime s) / 1000)%Z in
  let enqueued := fst (addToQueue W1 (botUsername W1) source None restarted) in
  ((now W1 - now W0 <= freshness)%Z ->
     fetchChannel W1 (cfg_cmdChannelId (config W0)) = Returned true ->
     resumeState W1 restarted
     = playVideo W1 source (Some (QueueItem.title current)) None None (Some elapsed)
         enqueued
     /\ (forall input, QueueItem.originalInput current = Some input ->
                       truthy input = true -> source = input)
     /\ queueService enqueued
        = match MediaService.resolveMediaSource (backend W1) source with
          | Returned (Some mediaSource) =>
              fst (Queue.addToQueue mediaSource (botUsername W1) source
                     (queueService restarted))
          | Returned None =>
              fst (Queue.add source source (botUsername W1) T_url false source
                     (queueService restarted))
          | Thrown _ => queueService restarted
          end
     /\ (forall s2 prepared s3,
           ensureVoiceConnection W1
             (with_leaveTimeout false
                (playVideo_begin (Some (QueueItem.title current)) enqueued))
           = (Returned tt, s2) ->
           prepareVideoSource W1 source (Some (QueueItem.title current)) None None s2
           = (Returned prepared, s3) ->
           StartStream (inputForFfmpeg prepared)
             (inputOptionsFor (inputForFfmpeg prepared) (seeking (Some elapsed)))
             (customHeadersFor (p_headers prepared) (p_headers prepared))
           ∈ effects (resumeState W1 restarted))
     /\ (forall input,
           inputOptionsFor input (seeking (Some elapsed))
           = if (elapsed =? 0)%Z then inputOptionsFor input None
             else "-ss" :: pretty elapsed :: inputOptionsFor input None))
  /\ ((freshness < now W1 - now W0)%Z ->
      resumeState W1 restarted = with_stateFile NoFile restarted).
Proof.
  intros Hplaying Hwrite Hcurrent Hindex Hfile. cbv zeta.
  unfold stateSaverTick, saveState in Hfile.
  rewrite Hplaying, Hcurrent, Hwrite in Hfile. simpl in Hfile.
  split.
  - intros Hfresh Hchannel.
    pose proof (resume_fresh W1 restarted _ current Hfile Hfresh Hchannel Hindex)
      as Hresume. simpl in Hresume.
    split_and!.
    + exact Hresume.
    + intros input -> Htruthy. simpl. rewrite Htruthy. reflexivity.
    + rewrite addToQueue_queue.
      destruct (MediaService.resolveMediaSource _ _) as [[ms|]|e]; reflexivity.
    + intros s2 prepared s3 Hjoin Hprep. rewrite Hresume.
      apply (playVideo_starts_stream W1 _ _ _ _ _ _ s2 prepared s3 Hjoin Hprep).
    + apply seek_option.
  - intros Hstale. apply (resume_stale W1 restarted _ Hfile). exact Hstale.
Qed.

End Facts.





(** The second skip arrives while the first waits for its notice: both run
    the branch of the empty queue and both send its notice; the service
    stops playing once. *)
Example double_skip_interleaved :
  let start := {| service := streamingService (queueOf [itemA] (Some 0) true);
                  first := SkipCalled; second := SkipCalled |} in
  let final := afterSkips calm [false; true; false; true] start in
  first final = SkipReturned /\ second final = SkipReturned
  /\ idleTransitions (runSkips calm [false; true; false; true] start) = 1
  /\ playing (streamStatus (service final)) = false
  /\ isSkipping (service final) = false
  /\ Queue.isEmpty (queueService (service final)) = true
  /\ length (List.filter isEmptyQueueNotice (effects (service final))) = 2
  /\ length (List.filter
               (fun e => match e with SetActivity IdleStatus => true | _ => false end)
               (effects (service final))) = 2.
Proof. vm_compute. repeat split; reflexivity. Qed.

(** The skips arrive while a call of [playVideo] for the only item waits in
    [ensureVoiceConnection], where [playing] is set already.  Both skips
    run the branch of the empty queue and return with the service idle and
    the queue empty; the call of [playVideo] then goes on and streams the
    skipped item. *)
Example skipped_item_is_streamed :
  let entered := playVideo_enter calm (Some "A")
                   (idleService (queueOf [itemA] (Some 0) true)) in
  let start :=
    {| skips := {| service := snd entered; first := SkipCalled; second := SkipCalled |};
       playback := AwaitVoice "https://example.com/a.mp4" (Some "A") None
                     (Some itemA) None |} in
  let skipped := afterCalls calm [FirstSkip; SecondSkip; FirstSkip; SecondSkip] start in
  let final := afterCalls calm [Playback] skipped in
  fst entered = Returned tt
  /\ playing (streamStatus (snd entered)) = true
  /\ first (skips skipped) = SkipReturned /\ second (skips skipped) = SkipReturned
  /\ playing (streamStatus (service (skips skipped))) = false
  /\ Queue.isEmpty (queueService (service (skips skipped))) = true
  /\ streamed (effects (service (skips skipped))) = []
  /\ streamed (effects (service (skips final)))
     = [InString "https://example.com/a.mp4"].
Proof. vm_compute. repeat split; reflexivity. Qed.

(** The second skip arrives after the first has returned: it is turned away
    because nothing plays any more. *)
Example double_skip_in_sequence :
  let start := {| service := streamingService (queueOf [itemA] (Some 0) true);
                  first := SkipCalled; second := SkipCalled |} in
  let final := afterSkips calm [false; false; true] start in
  first final = SkipReturned /\ second final = SkipReturned
  /\ idleTransitions (runSkips calm [false; false; true] start) = 1
  /\ last (effects (service final))
     = Some (Notify (SendError "No video is currently playing.")).
Proof. vm_compute. repeat split; reflexivity. Qed.

(** With two items left, a skip during another skip is turned away. *)
Example skip_in_progress_rejected :
  let s := with_isSkipping true
             (streamingService (queueOf [itemA; itemB] (Some 0) true)) in
  skipCurrent_step calm (s, SkipCalled)
  = (notify (SendError "Skip already in progress.") s, SkipReturned).
Proof. reflexivity. Qed.



(** What the queue of the specification answers after a failure: behind the
    failed item A, the item B is passed over; C is scheduled when it is
    there, and otherwise the service is idle with B still queued. *)
Example failure_passes_over_the_successor :
  let three := playVideo brokenStream "https://example.com/a.mp4" (Some "A") None
                 (Some itemA) None
                 (idleService (queueOf [itemA; itemB; itemC] (Some 0) true)) in
  let two := playVideo brokenStream "https://example.com/a.mp4" (Some "A") None
               (Some itemA) None
               (idleService (queueOf [itemA; itemB] (Some 0) true)) in
  autoPlayed (effects three) = [itemC]
  /\ Queue.vq_items (queueService three) = [itemB; itemC]
  /\ Queue.vq_cursor (queueService three) = Some 1
  /\ autoPlayed (effects two) = []
  /\ Queue.vq_items (queueService two) = [itemB]
  /\ Queue.vq_cursor (queueService two) = None
  /\ playing (streamStatus two) = false.
Proof. vm_compute. repeat split; reflexivity. Qed.

(** The failed set is not consulted: after a restart the resumed item is
    put into the queue, its stream fails, and the item is scheduled again
    with its source in the failed set. *)
Example failed_source_is_scheduled_again :
  let s' := resumeState brokenResume restarted in
  s' = playVideo brokenResume "https://example.com/a.mp4" (Some "A") None None
         (Some 125%Z) requeued
  /\ (QueueItem.url <$> autoPlayed (effects s')) = ["https://example.com/a.mp4"]
  /\ elements (failedVideos s') = ["https://example.com/a.mp4"].
Proof. vm_compute. repeat split; reflexivity. Qed.

Example failed_download_ends_idle :
  let s' := playFromQueue downloadFails (idleService (queueOf [song] None false)) in
  elements (failedVideos s') = ["https://www.youtube.com/watch?v=song"]
  /\ playing (streamStatus s') = false
  /\ Queue.isEmpty (queueService s') = true
  /\ effects s'
     = [JoinVoice; Notify (ReplyDownloading "Song"); Notify (EditDownloadFailed "Song");
        Notify (SendError
          "An error occurred: Failed to prepare video source due to download failure.");
        Notify SendFinishMessage; StopStream; SetActivity IdleStatus].
Proof. vm_compute. repeat split; reflexivity. Qed.

(** A stored path is used as it is; a pending download is awaited; and
    when the background download has failed the video is downloaded again,
    here without success. *)
Example prepare_with_stored_path :
  let s := with_prefetch
             (<[1 := {| downloadPath := Some "/tmp/song.mp4"; downloadPromise := Some 0 |}]> ∅)
             (idleService (queueOf [song] (Some 0) true)) in
  prepareVideoSource downloadFails "https://www.youtube.com/watch?v=song" (Some "Song")
    None (Some song) s
  = (Returned (fromFile (Some "/tmp/song.mp4")), s).
Proof. vm_compute. reflexivity. Qed.

Example prepare_awaits_download :
  let s := startBackgroundDownload song (idleService (queueOf [song] (Some 0) true)) in
  let r := prepareVideoSource downloadFails "https://www.youtube.com/watch?v=song"
             (Some "Song") None (Some song) s in
  fst r = Returned (fromFile (Some "/tmp/prefetch.mp4"))
  /\ effects (snd r)
     = [SpawnDownload 1 "https://www.youtube.com/watch?v=song" 0; AwaitDownload 0]
  /\ downloadPath (prefetchOf (snd r) song) = Some "/tmp/prefetch.mp4".
Proof. vm_compute. repeat split; reflexivity. Qed.

Example prepare_after_failed_download :
  let W := world tubeBackend (Returned tt) true None (Returned tt) 0 in
  let failing :=
    {| config := config W; backend := backend W; now := now W;
       joinVoice := joinVoice W; connectionAtCheck := connectionAtCheck W;
       existsSync := existsSync W;
       downloadTask := fun _ => Thrown "HTTP Error 403";
       ytDlpStdout := ytDlpStdout W; ffmpegError := ffmpegError W;
       playStream := playStream W; writeFile := writeFile W;
       fetchChannel := fetchChannel W; botUsername := botUsername W |} in
  let s := startBackgroundDownload song (idleService (queueOf [song] (Some 0) true)) in
  let r := prepareVideoSource failing "https://www.youtube.com/watch?v=song"
             (Some "Song") None (Some song) s in
  fst r = Thrown "Failed to prepare video source due to download failure."
  /\ effects (snd r)
     = [SpawnDownload 1 "https://www.youtube.com/watch?v=song" 0; AwaitDownload 0;
        Notify (ReplyDownloading "Song"); Notify (EditDownloadFailed "Song")].
Proof. vm_compute. repeat split; reflexivity. Qed.


Example prepare_after_failed_prefetch :
  let s := startBackgroundDownload song (idleService (queueOf [song] (Some 0) true)) in
  let r := prepareVideoSource afterFailedPrefetch "https://www.youtube.com/watch?v=song"
             (Some "Song") None (Some song) s in
  fst r = Returned {| inputForFfmpeg := InString "https://www.youtube.com/watch?v=song";
                      tempFilePath := None; p_headers := None |}
  /\ effects (snd r)
     = [SpawnDownload 1 "https://www.youtube.com/watch?v=song" 0; AwaitDownload 0].
Proof. vm_compute. split; reflexivity. Qed.


Example attach_twice :
  spawnedIds (effects (startBackgroundDownload song
                         (startBackgroundDownload song
                            (idleService (queueOf [song] (Some 0) true)))))
  = [1; 1].
Proof. vm_compute. reflexivity. Qed.

Example enqueue_starts_one_download :
  let s := fst (addToQueue downloadFails "ana" "https://www.youtube.com/watch?v=song"
                  None (idleService Queue.empty)) in
  spawnedIds (effects s) = [1]
  /\ QueueItem.id <$> Queue.vq_items (queueService s) = [1].
Proof. vm_compute. split; reflexivity. Qed.

(** With every backend down the resolver answers [null] for a YouTube link
    and the raw input is enqueued. *)
Example unresolved_input_is_enqueued :
  let s := fst (addToQueue unreachable "ana" "https://www.youtube.com/watch?v=song"
                  None (idleService Queue.empty)) in
  MediaService.resolveMediaSource MediaService.deadBackend
    "https://www.youtube.com/watch?v=song" = Returned None
  /\ Queue.vq_items (queueService s)
     = [QueueItem.mk 1 "https://www.youtube.com/watch?v=song"
          "https://www.youtube.com/watch?v=song" T_url false "ana"
          (Some "https://www.youtube.com/watch?v=song") None].
Proof. vm_compute. split; reflexivity. Qed.

(** C7, as stated, fails: with every backend out of reach the metadata
    probe of a direct link throws, and the resolver still answers with a
    source: the link itself, under the title of the fallback. *)
Lemma failed_probe_still_resolves : ~ MediaService.backend_error_gives_null.
Proof.
  intros Hnull.
  specialize (Hnull MediaService.deadBackend "https://example.com/clips/video.mp4").
  assert (MediaService.outOfReach MediaService.deadBackend) as Hdown
    by (repeat split; reflexivity).
  specialize (Hnull Hdown). vm_compute in Hnull.
  assert (Returned (Some (MediaSource.mk "https://example.com/clips/video.mp4"
                            "Direct URL" T_url None None))
          = @Returned (option MediaSource.t) None) as Habs
    by (apply Hnull; discriminate).
  discriminate Habs.
Qed.

(** The state saved 125 seconds into A is read back a minute later. *)
Lemma snapshot_resume_witness :
  let W0 := atTime 125000 in
  let W1 := atTime 185000 in
  let source := or_else (QueueItem.originalInput itemA) (QueueItem.url itemA) in
  let elapsed := ((now W0 - startTime midStream) / 1000)%Z in
  let enqueued := fst (addToQueue W1 (botUsername W1) source None restarted) in
  ((now W1 - now W0 <= freshness)%Z ->
     fetchChannel W1 (cfg_cmdChannelId (config W0)) = Returned true ->
     resumeState W1 restarted
     = playVideo W1 source (Some (QueueItem.title itemA)) None None (Some elapsed)
         enqueued
     /\ (forall input, QueueItem.originalInput itemA = Some input ->
                       truthy input = true -> source = input)
     /\ queueService enqueued
        = match MediaService.resolveMediaSource (backend W1) source with
          | Returned (Some mediaSource) =>
              fst (Queue.addToQueue mediaSource (botUsername W1) source
                     (queueService restarted))
          | Returned None =>
              fst (Queue.add source source (botUsername W1) T_url false source
                     (queueService restarted))
          | Thrown _ => queueService restarted
          end
     /\ (forall s2 prepared s3,
           ensureVoiceConnection W1
             (with_leaveTimeout false
                (playVideo_begin (Some (QueueItem.title itemA)) enqueued))
           = (Returned tt, s2) ->
           prepareVideoSource W1 source (Some (QueueItem.title itemA)) None None s2
           = (Returned prepared, s3) ->
           StartStream (inputForFfmpeg prepared)
             (inputOptionsFor (inputForFfmpeg prepared) (seeking (Some elapsed)))
             (customHeadersFor (p_headers prepared) (p_headers prepared))
           ∈ effects (resumeState W1 restarted))
     /\ (forall input,
           inputOptionsFor input (seeking (Some elapsed))
           = if (elapsed =? 0)%Z then inputOptionsFor input None
             else "-ss" :: pretty elapsed :: inputOptionsFor input None))
  /\ ((freshness < now W1 - now W0)%Z ->
      resumeState W1 restarted = with_stateFile NoFile restarted).
Proof.
  cbv zeta.
  refine (snapshot_resumes_current_item (atTime 125000) (atTime 185000)
            midStream restarted itemA _ _ _ _ _); vm_compute; reflexivity.
Defined.

Example resume_within_the_hour :
  let s' := resumeState (atTime 185000) restarted in
  QueueItem.originalInput <$> Queue.vq_items (queueService (fst
      (addToQueue (atTime 185000) "bot" "https://example.com/a.mp4" None restarted)))
  = [Some "https://example.com/a.mp4"]
  /\ StartStream (InString "https://example.com/a.mp4")
       ("-ss" :: "125" :: inputOptionsFor (InString "https://example.com/a.mp4") None)
       (customHeadersFor None None) ∈ effects s'
  /\ stateFile s' = stateFile restarted.
Proof.
  split; [vm_compute; reflexivity|]. split; [|vm_compute; reflexivity].
  vm_compute. do 3 apply list_elem_of_further. apply list_elem_of_here.
Qed.

Example resume_after_exactly_one_hour :
  StartStream (InString "https://example.com/a.mp4")
    ("-ss" :: "125" :: inputOptionsFor (InString "https://example.com/a.mp4") None)
    (customHeadersFor None None)
  ∈ effects (resumeState (atTime (125000 + 3600000)) restarted).
Proof. vm_compute. do 3 apply list_elem_of_further. apply list_elem_of_here. Qed.

Example resume_after_more_than_an_hour :
  resumeState (atTime (125000 + 3600001)) restarted
  = with_stateFile NoFile restarted
  /\ effects (resumeState (atTime (125000 + 3600001)) restarted) = []
  /\ Queue.vq_items (queueService (resumeState (atTime (125000 + 3600001)) restarted)) = [].
Proof. vm_compute. repeat split; reflexivity. Qed.

(** The voice channel cannot be joined while item A of the queue A, B, C is
    attempted. *)
Lemma connection_failure_witness :
  let s := idleService (queueOf [itemA; itemB; itemC] (Some 0) true) in
  let s2 := snd (ensureVoiceConnection unreachable
                   (with_leaveTimeout false (playVideo_begin (Some "A") s))) in
  let s' := playVideo unreachable "https://example.com/a.mp4" (Some "A") None
              (Some itemA) None s in
  let removed :=
    match Queue.getCurrent (queueAtStage (Some "A") s) with
    | Some finishedItem =>
        Queue.removeFromQueue (QueueItem.id finishedItem) (queueAtStage (Some "A") s)
    | None => queueAtStage (Some "A") s
    end in
  playVideo_catch_sending (Returned tt) (Returned tt) "connect timeout"
    "https://example.com/a.mp4" s2
  = (Returned tt, s')
  /\ Notify (errorNotice "connect timeout") ∈ effects s'
  /\ failedVideos s' = {["https://example.com/a.mp4"]} ∪ failedVideos s2
  /\ (forall q next,
        Queue.getNext removed = (q, Some next) ->
        queueService s' = q
        /\ effects s' = effects s2
             ++ [Notify (errorNotice "connect timeout"); Notify SendFinishMessage;
                 AutoPlay next])
  /\ (forall q,
        Queue.getNext removed = (q, None) ->
        queueService s' = Queue.setPlaying false q
        /\ playing (streamStatus s') = false
        /\ manualStop (streamStatus s') = false
        /\ autoPlayed (effects s') = autoPlayed (effects s2))
  /\ (forall stopped : Service Queue.VideoQueue,
        manualStop (streamStatus stopped) = true ->
        failedVideos (playVideo_catch "connect timeout" "https://example.com/a.mp4" stopped)
        = {["https://example.com/a.mp4"]} ∪ failedVideos stopped
        /\ queueService (playVideo_catch "connect timeout" "https://example.com/a.mp4"
                           stopped)
           = queueService stopped
        /\ effects (playVideo_catch "connect timeout" "https://example.com/a.mp4" stopped)
           = effects stopped ++ [Notify (errorNotice "connect timeout")])
  /\ (forall (rejection : JsError) (finished : Outcome unit),
        playVideo_catch_sending (Thrown rejection) finished "connect timeout"
          "https://example.com/a.mp4" s2
        = (Thrown rejection, s2)).
Proof.
  cbv zeta.
  refine (connection_failure_advances unreachable "https://example.com/a.mp4"
            (Some "A") None (Some itemA) None
            (idleService (queueOf [itemA; itemB; itemC] (Some 0) true))
            "connect timeout"
            (snd (ensureVoiceConnection unreachable
                    (with_leaveTimeout false
                       (playVideo_begin (Some "A")
                          (idleService (queueOf [itemA; itemB; itemC] (Some 0) true))))))
            _).
  vm_compute. reflexivity.
Defined.

(** C2, as stated, fails: with A, B and C queued and the voice channel out
    of reach, A is attempted; the attempt ends with A removed from the
    queue, the cursor moved on and the playback of another item scheduled. *)
Lemma connection_failure_not_final : ~ connection_failure_is_final.
Proof.
  intros Hfinal.
  specialize (Hfinal unreachable
                (idleService (queueOf [itemA; itemB; itemC] None false))
                itemA "connect timeout" eq_refl eq_refl eq_refl eq_refl).
  cbv zeta in Hfinal. destruct Hfinal as (_ & _ & Hscheduled & _).
  vm_compute in Hscheduled. discriminate Hscheduled.
Qed.

Example connection_failure_schedules_next :
  let s' := playFromQueue unreachable
              (idleService (queueOf [itemA; itemB; itemC] None false)) in
  autoPlayed (effects s') = [itemC]
  /\ Queue.vq_items (queueService s') = [itemB; itemC]
  /\ Queue.currentIndex (Queue.getQueueStatus (queueService s')) = 1%Z
  /\ elements (failedVideos s') = ["https://example.com/a.mp4"].
Proof. vm_compute. repeat split; reflexivity. Qed.

End StreamingFacts.

(* ===================================================================== *)
(** * Part III: the rest of the code                                      *)
(* ===================================================================== *)

(** ** Characters and occurrences *)

Module TextFacts.

Import Text.

Lemma append_cons (a : ascii) (s t : string) : String a s +:+ t = String a (s +:+ t).
Proof. reflexivity. Qed.

Lemma append_nil (t : string) : "" +:+ t = t.
Proof. reflexivity. Qed.

Lemma append_empty (s : string) : s +:+ "" = s.
Proof. induction s as [|a s IH]; [reflexivity|]. rewrite append_cons, IH. reflexivity. Qed.

Lemma append_assoc (a b c : string) : (a +:+ b) +:+ c = a +:+ (b +:+ c).
Proof.
  induction a as [|x a IH]; [reflexivity|]. rewrite !append_cons, IH. reflexivity.
Qed.

Lemma includes_cons (a : ascii) (s sub : string) :
  includes (String a s) sub = String.prefix sub (String a s) || includes s sub.
Proof. reflexivity. Qed.

Lemma prefix_head (c a : ascii) (n s : string) :
  c <> a -> String.prefix (String c n) (String a s) = false.
Proof. intros Hne. simpl. destruct (ascii_dec c a); [contradiction | reflexivity]. Qed.

(** The decimal form of an integer is made of digits and a sign. *)
Lemma pretty_N_go_digits (x : N) (s : string) :
  allChars decimalChar s = true -> allChars decimalChar (pretty_N_go x s) = true.
Proof.
  revert s. induction (N.lt_wf_0 x) as [x _ IH]. intros s Hs.
  destruct (decide (0 < x)%N) as [Hpos|Hzero].
  - rewrite pretty_N_go_step by exact Hpos.
    apply IH; [apply N.div_lt; [exact Hpos | reflexivity]|].
    simpl. rewrite Hs, andb_true_r.
    unfold pretty_N_char. repeat case_match; reflexivity.
  - assert (x = 0%N) as -> by lia. rewrite pretty_N_go_0. exact Hs.
Qed.

Lemma pretty_Z_digits (z : Z) : allChars decimalChar (pretty z) = true.
Proof.
  destruct z as [|p|p]; [reflexivity| |].
  - unfold pretty, pretty_Z, pretty, pretty_positive, pretty, pretty_N.
    case_decide; [reflexivity|]. apply pretty_N_go_digits. reflexivity.
  - unfold pretty, pretty_Z. simpl.
    unfold pretty, pretty_positive, pretty, pretty_N.
    case_decide; [reflexivity|]. apply pretty_N_go_digits. reflexivity.
Qed.

Lemma not_a_number (t : Z) (flag : string) :
  allChars decimalChar flag = false -> pretty t <> flag.
Proof. intros Hflag Heq. rewrite <- Heq, pretty_Z_digits in Hflag. discriminate. Qed.

(** No occurrence of [sub] begins in a stretch of characters among which
    the first character of [sub] is not. *)
Lemma includes_skip (p : ascii -> bool) (c : ascii) (n s rest : string) :
  p c = false -> allChars p s = true ->
  includes (s +:+ rest) (String c n) = includes rest (String c n).
Proof.
  intros Hc. induction s as [|a s IH]; intros Hs; [reflexivity|].
  simpl in Hs. apply andb_true_iff in Hs as [Ha Hs].
  rewrite append_cons, includes_cons.
  rewrite prefix_head by (intros ->; congruence).
  apply IH, Hs.
Qed.

Lemma includes_digits (z : Z) (c : ascii) (n rest : string) :
  decimalChar c = false ->
  includes (pretty z +:+ rest) (String c n) = includes rest (String c n).
Proof.
  intros Hc. apply (includes_skip decimalChar); [exact Hc | apply pretty_Z_digits].
Qed.

Lemma includes_digits_end (z : Z) (c : ascii) (n : string) :
  decimalChar c = false -> includes (pretty z) (String c n) = false.
Proof.
  intros Hc. rewrite <- (append_empty (pretty z)).
  rewrite includes_digits by exact Hc. reflexivity.
Qed.

Lemma prefix_compatible (sub s rest : string) :
  String.prefix sub (s +:+ rest) = true -> compatible sub s = true.
Proof.
  revert s. induction sub as [|c sub IH]; intros [|a s] H; try reflexivity.
  rewrite append_cons in H. simpl in *.
  destruct (ascii_dec c a) as [->|Hne]; [|discriminate].
  rewrite Ascii.eqb_refl. apply IH, H.
Qed.

Lemma includes_literal (lit sub rest : string) :
  clearOf lit sub = true -> includes (lit +:+ rest) sub = includes rest sub.
Proof.
  induction lit as [|a lit IH]; [reflexivity|].
  intros Hclear. apply andb_true_iff in Hclear as [Hhere Hlater].
  rewrite append_cons, includes_cons.
  destruct (String.prefix sub (String a (lit +:+ rest))) eqn:Hp.
  - rewrite <- append_cons in Hp. apply prefix_compatible in Hp.
    rewrite Hp in Hhere. discriminate.
  - apply IH, Hlater.
Qed.

Lemma prefix_append (sub s rest : string) :
  String.prefix sub s = true -> String.prefix sub (s +:+ rest) = true.
Proof.
  revert s. induction sub as [|c sub IH]; intros [|a s] H;
    try (simpl in H; discriminate H).
  - destruct rest; reflexivity.
  - reflexivity.
  - rewrite append_cons. simpl in *.
    destruct (ascii_dec c a); [apply IH, H | discriminate].
Qed.

Lemma includes_append (s sub rest : string) :
  includes s sub = true -> includes (s +:+ rest) sub = true.
Proof.
  induction s as [|a s IH].
  - simpl. rewrite orb_false_r. intros H.
    destruct sub; [destruct rest; reflexivity | discriminate].
  - rewrite append_cons, !includes_cons. intros H.
    apply orb_true_iff in H as [H|H]; apply orb_true_iff.
    + left. rewrite <- append_cons. apply prefix_append, H.
    + right. apply IH, H.
Qed.

(** Looks for [sub] in a string built of literals and printed integers. *)
Ltac scan :=
  repeat first
    [ rewrite append_assoc
    | rewrite includes_digits by reflexivity
    | rewrite includes_digits_end by reflexivity
    | rewrite includes_literal by reflexivity ].

End TextFacts.

(** ** The embed links and the resolver *)

Module LinkFacts.

Import MediaService Text TextFacts.

Lemma dispatch_embed (B : Backend) (url : string) :
  includes url "youtube.com/" = false -> includes url "youtu.be/" = false ->
  includes url "twitch.tv/" = false ->
  includes url "vidsrc.cc" || includes url "vidlink.pro" = true ->
  goesToBrowser B url.
Proof.
  intros Hy Hb Ht He.
  assert (dispatch B url = EmbedHost) as Hd.
  { unfold dispatch. rewrite Hy, Hb, Ht, He. reflexivity. }
  split; [exact Hd|]. unfold resolveMediaSource. rewrite Hd. simpl.
  destruct (MediaFacts.embed_returns B url) as [r ->]. reflexivity.
Qed.

Lemma type_of_direct (B : Backend) (url : string) :
  exists source,
    _resolveDirectUrlSource B url = Returned source /\ MediaSource.type source = T_url.
Proof.
  unfold _resolveDirectUrlSource, probeDirectUrl.
  destruct (ytdl B url) as [[md|]|e]; try (eexists; split; reflexivity).
  destruct (truthy_opt (yt_title md)); eexists; split; reflexivity.
Qed.

Lemma dispatch_direct (B : Backend) (url : string) :
  includes url "youtube.com/" = false -> includes url "youtu.be/" = false ->
  includes url "twitch.tv/" = false ->
  includes url "vidsrc.cc" = false -> includes url "vidlink.pro" = false ->
  GeneralUtils.isValidUrl url = true ->
  goesDirect B url.
Proof.
  intros Hy Hb Ht Hs Hl Hv.
  assert (dispatch B url
          = if GeneralUtils.isLocalFile (isFile B) url then LocalFile else DirectUrl)
    as Hd.
  { unfold dispatch. rewrite Hy, Hb, Ht, Hs, Hl, Hv. reflexivity. }
  split; [exact Hd|]. intros Hfile. rewrite Hfile in Hd.
  unfold resolveMediaSource. rewrite Hd. simpl.
  destruct (type_of_direct B url) as (source & -> & Htype).
  exists source. auto.
Qed.

Lemma isValidUrl_https (rest : string) :
  GeneralUtils.isValidUrl ("https://" +:+ rest) = true.
Proof.
  unfold GeneralUtils.isValidUrl.
  replace (startsWith ("https://" +:+ rest) "https://") with true
    by (symmetry; apply (prefix_append "https://" "https://" rest); reflexivity).
  rewrite !orb_true_r. reflexivity.
Qed.

(** X1: the links that the movie and the tv command put in the queue, and
    the VidKing link, are resolved by the direct-URL strategy for every id,
    season and episode (unless a local file has that name), never by the
    headless browser or the search, and the resolver has a source of type
    [url] for them whatever yt-dlp answers. *)
Theorem stream_links_are_direct (B : Backend) (tmdbId season episode : Z) :
  goesDirect B (getCinemaOSEmbedUrl tmdbId)
  /\ goesDirect B (getCinemaOSTVEmbedUrl tmdbId season episode)
  /\ goesDirect B (getVidKingEmbedUrl tmdbId).
Proof.
  unfold getCinemaOSEmbedUrl, getCinemaOSTVEmbedUrl, getVidKingEmbedUrl.
  split_and!; apply dispatch_direct;
    try (scan; reflexivity); apply (isValidUrl_https _).
Qed.

Lemma linkParams_clear (options : option LinkOptions) (sub : string) :
  plainColor options ->
  sub ∈ ["youtube.com/"; "youtu.be/"; "twitch.tv/"] ->
  includes (join "&" (linkParams options)) sub = false.
Proof.
  intros Hcolor Hsub.
  assert (forall color, options ≫= primaryColor = Some color -> includes color sub = false)
    as Hc.
  { intros color Heq. destruct (Hcolor color Heq) as (H1 & H2 & H3).
    repeat (apply elem_of_cons in Hsub as [->|Hsub]); [assumption..|].
    by apply elem_of_nil in Hsub. }
  clear Hcolor.
  destruct options as [[auto color]|]; simpl in *.
  2:{ repeat (apply elem_of_cons in Hsub as [->|Hsub]); [reflexivity..|].
      by apply elem_of_nil in Hsub. }
  destruct (default false auto), color as [color|]; simpl;
    try destruct (truthy color); simpl;
    repeat (apply elem_of_cons in Hsub as [->|Hsub]);
    try (by apply elem_of_nil in Hsub); try reflexivity;
    scan; try reflexivity; apply Hc; reflexivity.
Qed.

(** X2: the VidSrc and VidLink links are handed to the headless browser for
    every id, season and episode, and with any options whose colour names no
    YouTube or Twitch link. *)
Theorem embed_links_reach_the_browser (B : Backend) (tmdbId season episode : Z)
    (options : option LinkOptions) :
  plainColor options ->
  goesToBrowser B (getVidSrcMovieEmbedUrl tmdbId)
  /\ goesToBrowser B (getVidSrcTvEmbedUrl tmdbId season episode)
  /\ goesToBrowser B (getVidLinkMovieEmbedUrl tmdbId options)
  /\ goesToBrowser B (getVidLinkTvEmbedUrl tmdbId season episode options).
Proof.
  intros Hcolor.
  pose proof (linkParams_clear options "youtube.com/" Hcolor
                ltac:(repeat first [apply list_elem_of_here | apply list_elem_of_further]))
    as H1.
  pose proof (linkParams_clear options "youtu.be/" Hcolor
                ltac:(repeat first [apply list_elem_of_here | apply list_elem_of_further]))
    as H2.
  pose proof (linkParams_clear options "twitch.tv/" Hcolor
                ltac:(repeat first [apply list_elem_of_here | apply list_elem_of_further]))
    as H3.
  unfold getVidSrcMovieEmbedUrl, getVidSrcTvEmbedUrl, getVidLinkMovieEmbedUrl,
    getVidLinkTvEmbedUrl, withParams.
  split_and!; try destruct (Nat.ltb 0 _); apply dispatch_embed;
    try (scan; first [reflexivity | assumption]);
    apply orb_true_iff; first [ left; scan; apply includes_append; reflexivity
                              | right; scan; apply includes_append; reflexivity ].
Qed.

Lemma embed_links_witness :
  goesToBrowser deadBackend (getVidSrcMovieEmbedUrl 27205)
  /\ goesToBrowser deadBackend (getVidSrcTvEmbedUrl 1396 1 1)
  /\ goesToBrowser deadBackend (getVidLinkMovieEmbedUrl 27205 (Some redAutoplay))
  /\ goesToBrowser deadBackend (getVidLinkTvEmbedUrl 1396 1 1 (Some redAutoplay)).
Proof.
  refine (embed_links_reach_the_browser deadBackend 27205 1 1 (Some redAutoplay) _).
  intros color [= <-]. vm_compute. auto.
Defined.

(** A colour that names a YouTube link sends the VidLink link to the YouTube
    strategy instead. *)
Example colour_can_mislead :
  getVidLinkMovieEmbedUrl 27205 (Some {| autoplay := None;
                                         primaryColor := Some "youtube.com/" |})
  = "https://vidlink.pro/movie/27205?primaryColor=youtube.com/"
  /\ dispatch deadBackend
       (getVidLinkMovieEmbedUrl 27205 (Some {| autoplay := None;
                                               primaryColor := Some "youtube.com/" |}))
     = YouTubeLink.
Proof. split; vm_compute; reflexivity. Qed.

(** X6: the direct-URL strategy always comes back with a source of type
    [url] without headers; its URL is the input, or the URL of one of the
    formats that yt-dlp listed for the input, and never of a format whose
    extension is [m3u8].  The sort is assumed to return formats it was
    given. *)
Theorem direct_source_avoids_hls (B : Backend) (url : string) (source : MediaSource.t) :
  (forall formats format, format ∈ sortByScore B formats -> format ∈ formats) ->
  _resolveDirectUrlSource B url = Returned source ->
  MediaSource.type source = T_url
  /\ MediaSource.isLive source = None
  /\ MediaSource.headers source = None
  /\ (MediaSource.url source = url
      \/ exists metadata formats format,
           ytdl B url = Returned (Some metadata)
           /\ yt_formats metadata = Some formats
           /\ format ∈ formats
           /\ f_url format = Some (MediaSource.url source)
           /\ f_ext format <> "m3u8").
Proof.
  intros Hsort. unfold _resolveDirectUrlSource, probeDirectUrl.
  destruct (ytdl B url) as [[metadata|]|e] eqn:Hprobe;
    try solve [intros [= <-]; simpl; split_and!; auto].
  destruct (truthy_opt (yt_title metadata));
    [|solve [intros [= <-]; simpl; split_and!; auto]].
  destruct (yt_formats metadata) as [[|first rest]|] eqn:Hformats;
    try solve [intros [= <-]; simpl; split_and!; auto].
  match goal with
  | |- context [sortByScore B ?l] =>
      pose proof (Hsort l) as Hbest;
      destruct (sortByScore B l) as [|bestFormat others];
        [solve [intros [= <-]; simpl; split_and!; auto]|];
      specialize (Hbest bestFormat ltac:(apply list_elem_of_here))
  end.
  intros [= <-]. simpl. split_and!; auto.
  apply list_elem_of_In, filter_In in Hbest as [Hin Hok].
  apply andb_true_iff in Hok as [Hurl Hext].
  destruct (f_url bestFormat) as [u|] eqn:Hu; [|discriminate]. simpl in Hurl.
  simpl. rewrite Hurl. right. exists metadata, (first :: rest), bestFormat.
  split_and!; auto.
  - apply list_elem_of_In, Hin.
  - apply negb_true_iff, String.eqb_neq in Hext. exact Hext.
Qed.

Lemma direct_source_witness :
  let source :=
    MediaSource.mk "https://cdn.example.com/clip.mp4" "Clip" T_url None None in
  MediaSource.type source = T_url
  /\ MediaSource.isLive source = None
  /\ MediaSource.headers source = None
  /\ (MediaSource.url source = "https://example.com/watch/clip"
      \/ exists metadata formats format,
           ytdl probedBackend "https://example.com/watch/clip" = Returned (Some metadata)
           /\ yt_formats metadata = Some formats
           /\ format ∈ formats
           /\ f_url format = Some (MediaSource.url source)
           /\ f_ext format <> "m3u8").
Proof.
  cbv zeta.
  refine (direct_source_avoids_hls probedBackend "https://example.com/watch/clip"
            (MediaSource.mk "https://cdn.example.com/clip.mp4" "Clip" T_url None None)
            _ _).
  - intros formats format Hin. exact Hin.
  - vm_compute. reflexivity.
Defined.

End LinkFacts.

(** ** The YouTube class behind the resolver *)

Module YoutubeFacts.
Import MediaService Youtube.

(** X3: no method of the class rejects: a failure of yt-dlp or of the
    search gives [null], a pair of [null]s or the empty list, and
    [MediaService.searchYouTube] passes the empty list on. *)
Theorem youtube_class_fails_soft (Y : Tools) (input : string) (limit : Z) :
  (exists r, getVideoInfo Y input = Returned r)
  /\ (exists r, getLiveStreamUrl Y input = Returned r)
  /\ (exists r, searchAndGetPageUrl Y input = Returned r)
  /\ (exists r, search Y input limit = Returned r)
  /\ (exists r, searchYouTube Y input limit = Returned r)
  /\ ((forall options, raises (ytdl_dlp Y input options) = true) ->
      getVideoInfo Y input = Returned None /\ getLiveStreamUrl Y input = Returned None)
  /\ (raises (ytsSearch Y input 1) = true ->
      searchAndGetPageUrl Y input = Returned {| pageUrl := None; sr_title := None |})
  /\ (raises (ytsSearch Y input limit) = true -> searchYouTube Y input limit = Returned []).
Proof.
  unfold searchYouTube, search, getVideoInfo, getLiveStreamUrl, searchAndGetPageUrl.
  split_and!.
  - destruct (ytdl_dlp Y input _) as [[fields|text|]|e]; simpl; eauto.
    destruct (_ && _); simpl; eauto.
  - destruct (ytdl_dlp Y input _) as [[fields|text|]|e]; simpl; eauto.
    destruct (truthy _); simpl; eauto.
  - destruct (ytsSearch Y input 1) as [[|hit rest]|e]; simpl; eauto.
    destruct (truthy_opt (hit_url hit)); simpl; eauto.
  - destruct (ytsSearch Y input limit) as [results|e]; simpl; eauto.
  - destruct (ytsSearch Y input limit) as [results|e]; simpl; eauto.
  - intros Hfail. split.
    + specialize (Hfail (getYtdlpOptions Y infoOptions)).
      destruct (ytdl_dlp Y input _); [discriminate | reflexivity].
    + specialize (Hfail (getYtdlpOptions Y liveOptions)).
      destruct (ytdl_dlp Y input _); [discriminate | reflexivity].
  - destruct (ytsSearch Y input 1); [discriminate | reflexivity].
  - destruct (ytsSearch Y input limit); [discriminate | reflexivity].
Qed.

Lemma getVideoInfo_sound (Y : Tools) (url : string) (video : YouTubeVideo) :
  getVideoInfo Y url = Returned (Some video) ->
  exists fields,
    ytdl_dlp Y url (getYtdlpOptions Y infoOptions) = Returned (OutObject fields)
    /\ isString (fields !! "id") = true
    /\ fields !! "title" = Some (VString (yv_title video))
    /\ yv_isLiveContent video = Some (isLiveData fields).
Proof.
  unfold getVideoInfo.
  destruct (ytdl_dlp Y url _) as [[fields|text|]|e]; simpl; try discriminate.
  destruct (isString (fields !! "id")) eqn:Hid; simpl; [|discriminate].
  destruct (fields !! "title") as [[b|title|]|] eqn:Htitle; simpl; try discriminate.
  intros [= <-]. exists fields. simpl. rewrite Htitle. auto.
Qed.

Lemma getLiveStreamUrl_sound (Y : Tools) (url streamUrl : string) :
  getLiveStreamUrl Y url = Returned (Some streamUrl) ->
  exists text,
    ytdl_dlp Y url (getYtdlpOptions Y liveOptions) = Returned (OutString text)
    /\ streamUrl = trim Y text /\ truthy streamUrl = true.
Proof.
  unfold getLiveStreamUrl.
  destruct (ytdl_dlp Y url _) as [[fields|text|]|e]; simpl; try discriminate.
  destruct (truthy (trim Y text)) eqn:Htrim; simpl; [|discriminate].
  intros [= <-]. exists text. auto.
Qed.

(** X4: when the resolver uses the class, a source that it has for a
    YouTube link carries the title that yt-dlp printed and the type
    [youtube], and its URL is never empty: the link itself for a video that
    is not live, the trimmed stream URL that a second yt-dlp call printed
    for one that is. *)
Theorem youtube_link_resolution (Y : Tools) (B : Backend) (url : string)
    (source : MediaSource.t) :
  dispatch (withYoutube Y B) url = YouTubeLink ->
  resolveMediaSource (withYoutube Y B) url = Returned (Some source) ->
  exists fields,
    ytdl_dlp Y url (getYtdlpOptions Y infoOptions) = Returned (OutObject fields)
    /\ isString (fields !! "id") = true
    /\ fields !! "title" = Some (VString (MediaSource.title source))
    /\ MediaSource.type source = T_youtube
    /\ MediaSource.isLive source = Some (isLiveData fields)
    /\ MediaSource.headers source = None
    /\ truthy (MediaSource.url source) = true
    /\ (isLiveData fields = false -> MediaSource.url source = url)
    /\ (isLiveData fields = true ->
        exists text,
          ytdl_dlp Y url (getYtdlpOptions Y liveOptions) = Returned (OutString text)
          /\ MediaSource.url source = trim Y text).
Proof.
  intros Hdispatch. unfold resolveMediaSource. rewrite Hdispatch.
  unfold runStrategy, try_catch, _resolveYouTubeSource.
  cbn [MediaService.getVideoInfo MediaService.getLiveStreamUrl withYoutube].
  destruct (getVideoInfo Y url) as [[video|]|e] eqn:Hinfo; simpl; try discriminate.
  apply getVideoInfo_sound in Hinfo as (fields & Hdata & Hid & Htitle & Hlive).
  rewrite Hlive. simpl.
  destruct (isLiveData fields) eqn:Hl.
  - destruct (getLiveStreamUrl Y url) as [[streamUrl|]|e] eqn:Hstream; simpl;
      try discriminate.
    apply getLiveStreamUrl_sound in Hstream as (text & Hout & -> & Htruthy).
    rewrite Htruthy. simpl. intros [= <-]. exists fields. simpl.
    split_and!; auto; [congruence | congruence |]. intros _. exists text. auto.
  - simpl. destruct (truthy url) eqn:Hurl; simpl; [|discriminate].
    intros [= <-]. exists fields. simpl.
    split_and!; auto; congruence.
Qed.

(** X5: when the resolver uses the class, a search resolves to the first
    hit alone, and only if that hit has both a URL and a title; otherwise,
    and when the search fails, it resolves to [null]. *)
Theorem search_plays_the_first_hit (Y : Tools) (B : Backend) (query : string) :
  searchAndPlayYouTube (withYoutube Y B) query
  = Returned
      match ytsSearch Y query 1 with
      | Returned (hit :: _) =>
          match hit_url hit, hit_title hit with
          | Some url, Some title =>
              if truthy url && truthy title
              then Some (MediaSource.mk url title T_youtube None None)
              else None
          | _, _ => None
          end
      | _ => None
      end.
Proof.
  unfold searchAndPlayYouTube.
  cbn [MediaService.searchAndGetPageUrl withYoutube]. unfold searchAndGetPageUrl.
  destruct (ytsSearch Y query 1) as [[|hit rest]|e]; simpl; try reflexivity.
  destruct (hit_url hit) as [url|]; simpl; [|reflexivity].
  destruct (truthy url) eqn:Hurl; simpl; [|destruct (hit_title hit); reflexivity].
  rewrite Hurl. simpl.
  destruct (hit_title hit) as [title|]; simpl; [|reflexivity].
  destruct (truthy title) eqn:Htitle; simpl; rewrite ?Hurl, ?Htitle; reflexivity.
Qed.

Lemma youtube_link_witness :
  let url := "https://www.youtube.com/watch?v=dQw4w9WgXcQ" in
  let source := MediaSource.mk url "Song" T_youtube (Some false) None in
  exists fields,
    ytdl_dlp oneVideo url (getYtdlpOptions oneVideo infoOptions)
    = Returned (OutObject fields)
    /\ isString (fields !! "id") = true
    /\ fields !! "title" = Some (VString (MediaSource.title source))
    /\ MediaSource.type source = T_youtube
    /\ MediaSource.isLive source = Some (isLiveData fields)
    /\ MediaSource.headers source = None
    /\ truthy (MediaSource.url source) = true
    /\ (isLiveData fields = false -> MediaSource.url source = url)
    /\ (isLiveData fields = true ->
        exists text,
          ytdl_dlp oneVideo url (getYtdlpOptions oneVideo liveOptions)
          = Returned (OutString text)
          /\ MediaSource.url source = trim oneVideo text).
Proof.
  cbv zeta.
  refine (youtube_link_resolution oneVideo deadBackend
            "https://www.youtube.com/watch?v=dQw4w9WgXcQ"
            (MediaSource.mk "https://www.youtube.com/watch?v=dQw4w9WgXcQ" "Song"
               T_youtube (Some false) None) _ _); vm_compute; reflexivity.
Defined.

Example search_finds_the_song :
  searchAndPlayYouTube (withYoutube oneVideo deadBackend) "song"
  = Returned (Some (MediaSource.mk "https://www.youtube.com/watch?v=dQw4w9WgXcQ" "Song"
                      T_youtube None None))
  /\ search oneVideo "song" 5 = Returned ["1. `Song`"].
Proof. split; vm_compute; reflexivity. Qed.

End YoutubeFacts.

(** ** The help text *)

Module HelpFacts.
Import HelpCommand Text TextFacts.
Local Open Scope list_scope.

Lemma ascii_compare_refl (a : ascii) : Ascii.compare a a = Eq.
Proof. unfold Ascii.compare. apply N.compare_refl. Qed.

Lemma ascii_compare_trans (a b c : ascii) (o : comparison) :
  Ascii.compare a b = o -> Ascii.compare b c = o -> Ascii.compare a c = o.
Proof.
  unfold Ascii.compare. destruct o; intros H1 H2.
  - apply N.compare_eq_iff in H1, H2. apply N.compare_eq_iff. congruence.
  - exact (N.lt_trans _ _ _ H1 H2).
  - apply N.compare_gt_iff in H1, H2. apply N.compare_gt_iff.
    exact (N.lt_trans _ _ _ H2 H1).
Qed.

Lemma compare_le_trans (s1 s2 s3 : string) :
  String.compare s1 s2 <> Gt -> String.compare s2 s3 <> Gt -> String.compare s1 s3 <> Gt.
Proof.
  revert s2 s3. induction s1 as [|a s1 IH]; intros [|b s2] [|c s3]; simpl; try congruence.
  destruct (Ascii.compare a b) eqn:Hab, (Ascii.compare b c) eqn:Hbc; try congruence.
  - apply Ascii.compare_eq_iff in Hab, Hbc. subst. rewrite ascii_compare_refl. apply IH.
  - apply Ascii.compare_eq_iff in Hab. subst. rewrite Hbc. congruence.
  - apply Ascii.compare_eq_iff in Hbc. subst. rewrite Hab. congruence.
  - rewrite (ascii_compare_trans a b c Lt Hab Hbc). congruence.
Qed.

Lemma codeUnitLe_trans : Transitive codeUnitLe.
Proof.
  intros s1 s2 s3. unfold codeUnitLe, String.leb. intros H12 H23.
  pose proof (compare_le_trans s1 s2 s3) as Ht.
  destruct (String.compare s1 s2), (String.compare s2 s3), (String.compare s1 s3);
    try reflexivity; try discriminate; exfalso; apply Ht; congruence.
Qed.

Lemma codeUnitLe_total : Total codeUnitLe.
Proof. intros s1 s2. apply String.leb_total. Qed.

Lemma get_push (c c' : string) (cmd : Command) (categories : Categories) :
  get c (push c' cmd categories)
  = if String.eqb c' c then Some (default [] (get c categories) ++ [cmd])
    else get c categories.
Proof.
  induction categories as [|[key cmds] rest IH]; simpl.
  - destruct (String.eqb c' c); reflexivity.
  - destruct (String.eqb key c') eqn:Hk; simpl.
    + apply String.eqb_eq in Hk as ->.
      destruct (String.eqb c' c); reflexivity.
    + destruct (String.eqb key c) eqn:Hc; [|exact IH].
      apply String.eqb_eq in Hc as ->. rewrite String.eqb_sym, Hk. reflexivity.
Qed.

Lemma keys_push (c : string) (cmd : Command) (categories : Categories) :
  fst <$> push c cmd categories
  = if bool_decide (c ∈ fst <$> categories) then fst <$> categories
    else (fst <$> categories) ++ [c].
Proof.
  induction categories as [|[key cmds] rest IH].
  - rewrite bool_decide_eq_false_2; [reflexivity | apply not_elem_of_nil].
  - cbn [push]. destruct (String.eqb key c) eqn:Hk.
    + apply String.eqb_eq in Hk as ->.
      rewrite bool_decide_eq_true_2; [reflexivity|].
      rewrite fmap_cons. apply elem_of_cons. auto.
    + apply String.eqb_neq in Hk. rewrite !fmap_cons, IH. cbn [fst].
      destruct (decide (c ∈ fst <$> rest)) as [Hin|Hin].
      * rewrite !bool_decide_eq_true_2; [reflexivity | | exact Hin].
        apply elem_of_cons. auto.
      * rewrite !bool_decide_eq_false_2; [reflexivity | | exact Hin].
        intros [?|?]%elem_of_cons; congruence.
Qed.

Lemma keys_push_NoDup (c : string) (cmd : Command) (categories : Categories) :
  NoDup (fst <$> categories) -> NoDup (fst <$> push c cmd categories).
Proof.
  intros Hnd. rewrite keys_push. case_bool_decide as Hin; [exact Hnd|].
  apply NoDup_app. split_and!; [exact Hnd | | apply NoDup_singleton].
  intros x Hx ->%list_elem_of_singleton. contradiction.
Qed.

Lemma get_key (c : string) (categories : Categories) :
  c ∈ fst <$> categories <-> is_Some (get c categories).
Proof.
  induction categories as [|[key cmds] rest IH]; simpl.
  - split; [intros []%elem_of_nil | intros [? [=]]].
  - destruct (String.eqb key c) eqn:Hk.
    + apply String.eqb_eq in Hk as ->. split; [eauto | intros _; apply elem_of_cons; auto].
    + apply String.eqb_neq in Hk. rewrite elem_of_cons, IH. cbn [fst].
      split; [intros [?|?]; [congruence | assumption] | auto].
Qed.

Lemma groupedFrom_get (c : string) (commands : list Command) (acc : Categories) :
  get c (groupedFrom acc commands)
  = match get c acc, commandsOf c commands with
    | None, [] => None
    | o, l => Some (default [] o ++ l)
    end.
Proof.
  revert acc. induction commands as [|cmd commands IH]; intros acc.
  - simpl. destruct (get c acc); simpl; [rewrite app_nil_r|]; reflexivity.
  - change (groupedFrom acc (cmd :: commands))
      with (groupedFrom (push (categoryOf cmd) cmd acc) commands).
    rewrite IH, get_push. unfold commandsOf. cbn [List.filter].
    fold (commandsOf c commands).
    destruct (String.eqb (categoryOf cmd) c) eqn:Hc; [|reflexivity].
    destruct (get c acc) as [l|]; simpl.
    + rewrite <- app_assoc. destruct (commandsOf c commands); reflexivity.
    + destruct (commandsOf c commands); reflexivity.
Qed.

Lemma groupedFrom_NoDup (commands : list Command) (acc : Categories) :
  NoDup (fst <$> acc) -> NoDup (fst <$> groupedFrom acc commands).
Proof.
  revert acc. induction commands as [|cmd commands IH]; intros acc Hnd; [exact Hnd|].
  apply IH, keys_push_NoDup, Hnd.
Qed.

Lemma commandsOf_elem (c : string) (commands : list Command) (cmd : Command) :
  cmd ∈ commandsOf c commands <-> cmd ∈ commands /\ categoryOf cmd = c.
Proof.
  unfold commandsOf. rewrite !list_elem_of_In, filter_In, String.eqb_eq. reflexivity.
Qed.

Lemma fold_lines (cmds : list Command) (text : string) :
  fold_left (fun helpText cmd => helpText +:+ commandLine cmd)%string cmds text
  = (text +:+ concatenation (commandLine <$> cmds))%string.
Proof.
  revert text. induction cmds as [|cmd cmds IH]; intros text; simpl.
  - symmetry. apply append_empty.
  - rewrite IH, append_assoc. reflexivity.
Qed.

Lemma grouped_get (c : string) (commands : list Command) :
  get c (grouped commands)
  = match commandsOf c commands with
    | [] => None
    | l => Some l
    end.
Proof. apply (groupedFrom_get c commands []). Qed.

Lemma shown_elem (c : string) (commands : list Command) :
  c ∈ sortedCategories (grouped commands) <-> commandsOf c commands <> [].
Proof.
  unfold sortedCategories. rewrite merge_sort_Permutation, get_key, grouped_get.
  destruct (commandsOf c commands); split; try congruence; eauto.
  intros [? [=]].
Qed.

(** X7: the help text names the categories of the commands in ascending
    order of their code units, each once, and under each category the
    commands of that category, all of them and in the order in which they
    were given; a command without a category is listed under [General]. *)
Theorem help_lists_each_command_once (commands : list Command) :
  let shown := sortedCategories (grouped commands) in
  StronglySorted codeUnitLe shown
  /\ NoDup shown
  /\ (forall c, c ∈ shown <-> exists cmd, cmd ∈ commands /\ categoryOf cmd = c)
  /\ helpText commands
     = (("📽 **Available Commands**" +:+ newline)
        +:+ concatenation ((fun c => categoryBlock c (commandsOf c commands)) <$> shown))%string.
Proof.
  cbv zeta. split_and!.
  - apply StronglySorted_merge_sort; [apply codeUnitLe_trans | apply codeUnitLe_total].
  - unfold sortedCategories. rewrite merge_sort_Permutation.
    apply (groupedFrom_NoDup commands []). apply NoDup_nil_2.
  - intros c. rewrite shown_elem. split.
    + destruct (commandsOf c commands) as [|cmd l] eqn:Hl; [congruence|]. intros _.
      exists cmd. apply commandsOf_elem. rewrite Hl. apply list_elem_of_here.
    + intros (cmd & Hin & Hc) Hnil.
      assert (cmd ∈ commandsOf c commands) as H by (apply commandsOf_elem; auto).
      rewrite Hnil in H. by apply elem_of_nil in H.
  - unfold helpText.
    assert (forall c, c ∈ sortedCategories (grouped commands) ->
                      get c (grouped commands) = Some (commandsOf c commands)) as Hget.
    { intros c Hc. apply shown_elem in Hc. rewrite grouped_get.
      destruct (commandsOf c commands); congruence. }
    revert Hget. generalize (sortedCategories (grouped commands)) as shown.
    generalize ("📽 **Available Commands**" +:+ newline)%string as text.
    intros text shown. revert text.
    induction shown as [|c shown IH]; intros text Hget; simpl.
    + symmetry. apply append_empty.
    + rewrite (Hget c) by apply list_elem_of_here.
      rewrite IH by (intros c' Hc'; apply Hget, list_elem_of_further, Hc').
      rewrite fold_lines. unfold categoryBlock.
      rewrite !append_assoc. reflexivity.
Qed.

Example help_of_three_commands :
  helpText [ {| name := "ping"; description := "Check bot latency";
                category := Some "System" |};
             {| name := "movie"; description := "Search for a movie";
                category := Some "Media" |};
             {| name := "help"; description := "Show available commands";
                category := Some "System" |} ]
  = ("📽 **Available Commands**" +:+ newline
     +:+ newline +:+ "**Media**" +:+ newline +:+ "```apache" +:+ newline
     +:+ "movie        : Search for a movie" +:+ newline +:+ "```"
     +:+ newline +:+ "**System**" +:+ newline +:+ "```apache" +:+ newline
     +:+ "ping         : Check bot latency" +:+ newline
     +:+ "help         : Show available commands" +:+ newline +:+ "```")%string.
Proof. vm_compute. reflexivity. Qed.

End HelpFacts.

(** ** The arguments of the tv command *)

Module TVFacts.
Import TVCommand.
Local Open Scope list_scope.

(** X8: the tv command takes the last two of three or more arguments as
    season and episode when both begin with an integer, and the arguments
    before them as the name; with fewer than three arguments, or when one of
    the two is not a number, every argument belongs to the name and season
    and episode are 1. *)
Theorem season_and_episode_follow_the_name (parseInt : string -> option Z)
    (name : list string) (a b : string) :
  (length (name ++ [a; b]) < 3 \/ parseInt a = None \/ parseInt b = None ->
   readArguments parseInt (name ++ [a; b])
   = {| args := name ++ [a; b]; season := 1; episode := 1 |})
  /\ (forall season episode,
        name <> [] -> parseInt a = Some season -> parseInt b = Some episode ->
        readArguments parseInt (name ++ [a; b])
        = {| args := name; season := season; episode := episode |})
  /\ (forall words, length words < 3 ->
        readArguments parseInt words = {| args := words; season := 1; episode := 1 |}).
Proof.
  assert (forall l : list string,
            (l ++ [a; b]) !! (length (l ++ [a; b]) - 1) = Some b
            /\ (l ++ [a; b]) !! (length (l ++ [a; b]) - 2) = Some a
            /\ take (length (l ++ [a; b]) - 2) (l ++ [a; b]) = l) as Hends.
  { intros l. rewrite length_app. simpl.
    replace (length l + 2 - 1) with (length l + 1) by lia.
    replace (length l + 2 - 2) with (length l + 0) by lia.
    rewrite !lookup_app_r by lia.
    replace (length l + 1 - length l) with 1 by lia.
    replace (length l + 0 - length l) with 0 by lia.
    rewrite Nat.add_0_r, take_app_length. auto. }
  destruct (Hends name) as (Hb & Ha & Htake).
  split_and!.
  - intros Hcase. unfold readArguments.
    destruct (Nat.leb 3 _) eqn:Hlen; [|reflexivity].
    rewrite Ha, Hb. simpl.
    destruct Hcase as [Hshort|[Hnan|Hnan]].
    + apply Nat.leb_le in Hlen. lia.
    + rewrite Hnan. destruct (parseInt b); reflexivity.
    + rewrite Hnan. reflexivity.
  - intros season episode Hname Hseason Hepisode. unfold readArguments.
    assert (Nat.leb 3 (length (name ++ [a; b])) = true) as ->.
    { apply Nat.leb_le. rewrite length_app. simpl.
      destruct name; [congruence | simpl; lia]. }
    rewrite Ha, Hb. simpl. rewrite Hseason, Hepisode, Htake. reflexivity.
  - intros words Hshort. unfold readArguments.
    assert (Nat.leb 3 (length words) = false) as -> by (apply Nat.leb_gt; lia).
    reflexivity.
Qed.
Example breaking_bad_2_5 :
  readArguments parseDigits ["Breaking"; "Bad"; "2"; "5"]
  = {| args := ["Breaking"; "Bad"]; season := 2; episode := 5 |}
  /\ query (readArguments parseDigits ["Breaking"; "Bad"; "2"; "5"]) = "Breaking Bad"
  /\ query (readArguments parseDigits ["Apollo"; "13"]) = "Apollo 13"
  /\ readArguments parseDigits ["Area"; "51"; "2"]
     = {| args := ["Area"]; season := 51; episode := 2 |}.
Proof. split_and!; vm_compute; reflexivity. Qed.

End TVFacts.

(** ** The screenshots *)

Module ShotFacts.

Import Ffmpeg.

Lemma step_exclusive (W : ShotWorld) (videoPath : string) (t : gmap string bool)
    (call other : Call) :
  shooting call && shooting other = false ->
  isRunning t videoPath = shooting call || shooting other ->
  agrees W videoPath call ->
  let '(t', call') := step W videoPath (t, call) in
  shooting call' && shooting other = false
  /\ isRunning t' videoPath = shooting call' || shooting other
  /\ agrees W videoPath call'.
Proof.
  intros Hex Hflag Hag.
  destruct call as [|[|[index timestamp] rest] images|r]; simpl in *.
  - rewrite Hflag. destruct (shooting other) eqn:Ho; simpl.
    + auto.
    + rewrite FfmpegFacts.isRunning_insert. auto.
  - rewrite Hex, FfmpegFacts.isRunning_insert. auto.
  - fold (filenameOf W videoPath index). fold (filenameOf W videoPath index) in Hag.
    rewrite Hex in *. simpl in Hflag.
    destruct (screenshot W videoPath _ timestamp) as [[]|err].
    + destruct rest as [|next rest]; simpl.
      * rewrite FfmpegFacts.isRunning_insert. auto.
      * auto.
    + simpl. rewrite FfmpegFacts.isRunning_insert. auto.
  - auto.
Qed.

Lemma turn_exclusive (W : ShotWorld) (videoPath : string) (who : bool) (sys : TwoCalls) :
  exclusive W videoPath sys -> exclusive W videoPath (turnOf W videoPath who sys).
Proof.
  intros (Hex & Hflag & HA & HB). unfold turnOf. destruct who.
  - pose proof (step_exclusive W videoPath (table sys) (callB sys) (callA sys)) as Hstep.
    rewrite andb_comm in Hex. rewrite orb_comm in Hflag.
    specialize (Hstep Hex Hflag HB).
    destruct (step W videoPath (table sys, callB sys)) as [t c].
    destruct Hstep as (H1 & H2 & H3). unfold exclusive. simpl.
    rewrite andb_comm, orb_comm. auto.
  - pose proof (step_exclusive W videoPath (table sys) (callA sys) (callB sys)
                  Hex Hflag HA) as Hstep.
    destruct (step W videoPath (table sys, callA sys)) as [t c].
    destruct Hstep as (H1 & H2 & H3). unfold exclusive. simpl. auto.
Qed.

Lemma afterTurns_exclusive (W : ShotWorld) (videoPath : string) (schedule : list bool)
    (sys : TwoCalls) :
  exclusive W videoPath sys -> exclusive W videoPath (afterTurns W videoPath schedule sys).
Proof.
  revert sys. induction schedule as [|who schedule IH]; intros sys Hex; [exact Hex|].
  apply IH, turn_exclusive, Hex.
Qed.

Lemma run_finish (W : ShotWorld) (videoPath : string) (n : nat)
    (t : gmap string bool) (todo : list (nat * string)) (images : list string) :
  length todo <= n -> todo <> [] ->
  snd (run W videoPath n (t, Shooting todo images))
  = Settled (finish W videoPath todo images).
Proof.
  revert t todo images. induction n as [|n IH]; intros t todo images Hlen Hne.
  - destruct todo; [congruence | simpl in Hlen; lia].
  - destruct todo as [|[index timestamp] rest]; [congruence|].
    simpl. fold (filenameOf W videoPath index).
    destruct (screenshot W videoPath _ timestamp) as [[]|err].
    + destruct rest as [|next rest].
      * simpl. rewrite FfmpegFacts.run_settled. reflexivity.
      * apply IH; [simpl in *; lia | discriminate].
    + rewrite FfmpegFacts.run_settled. reflexivity.
Qed.

Lemma ffmpegScreenshot_finish (W : ShotWorld) (videoPath : string)
    (ffmpegRunning : gmap string bool) :
  isRunning ffmpegRunning videoPath = false ->
  snd (ffmpegScreenshot W videoPath ffmpegRunning)
  = Settled (finish W videoPath (entries timestamps) []).
Proof.
  intros Hfree. unfold ffmpegScreenshot.
  change (run W videoPath (S (length timestamps)) (ffmpegRunning, Polling))
    with (run W videoPath (length timestamps) (step W videoPath (ffmpegRunning, Polling))).
  unfold step at 1. rewrite Hfree. apply run_finish; [reflexivity | discriminate].
Qed.

Lemma shooting_step_moves (W : ShotWorld) (videoPath : string) (t : gmap string bool)
    (todo : list (nat * string)) (images : list string) :
  snd (step W videoPath (t, Shooting todo images)) <> Shooting todo images.
Proof.
  destruct todo as [|[index timestamp] rest]; simpl; [discriminate|].
  destruct (screenshot W videoPath _ timestamp) as [[]|err]; [|discriminate].
  destruct rest as [|next rest]; simpl; [discriminate|].
  intros [= _ Hrest _].
  apply (f_equal (@length _)) in Hrest. simpl in Hrest. lia.
Qed.

Lemma turnOf_call (W : ShotWorld) (videoPath : string) (who : bool) (sys : TwoCalls) :
  (if who then callB else callA) (turnOf W videoPath who sys)
  = snd (step W videoPath (table sys, if who then callB sys else callA sys)).
Proof. unfold turnOf. destruct who; destruct (step W videoPath _); reflexivity. Qed.

(** X10: two calls of [ffmpegScreenshot] for the same path, their turns
    interleaved in any order: they never take screenshots at the same time,
    the flag of the path is set exactly while one of them does, each settles
    with what a call running alone settles with, and as long as one of them
    has not settled some call can take a turn that changes the state. *)
Theorem screenshots_one_at_a_time (W : ShotWorld) (videoPath : string)
    (ffmpegRunning : gmap string bool) (schedule : list bool) :
  isRunning ffmpegRunning videoPath = false ->
  let sys := afterTurns W videoPath schedule (bothCalled ffmpegRunning) in
  shooting (callA sys) && shooting (callB sys) = false
  /\ isRunning (table sys) videoPath = shooting (callA sys) || shooting (callB sys)
  /\ (forall r, callA sys = Settled r \/ callB sys = Settled r ->
        Settled r = snd (ffmpegScreenshot W videoPath ffmpegRunning))
  /\ (settled (callA sys) && settled (callB sys) = false ->
      exists who, turnOf W videoPath who sys <> sys).
Proof.
  intros Hfree. cbv zeta.
  assert (exclusive W videoPath (afterTurns W videoPath schedule (bothCalled ffmpegRunning)))
    as (Hex & Hflag & HA & HB).
  { apply afterTurns_exclusive. unfold exclusive. simpl. auto. }
  set (sys := afterTurns W videoPath schedule (bothCalled ffmpegRunning)) in *.
  split_and!; [exact Hex | exact Hflag | |].
  - intros r [Hr|Hr]; rewrite ffmpegScreenshot_finish by exact Hfree;
      [rewrite Hr in HA | rewrite Hr in HB]; simpl in *; congruence.
  - intros Hopen.
    assert (forall who : bool,
              snd (step W videoPath (table sys, if who then callB sys else callA sys))
              <> (if who then callB sys else callA sys) ->
              turnOf W videoPath who sys <> sys) as Hmoves.
    { intros who Hne Heq. apply Hne.
      rewrite <- turnOf_call, Heq. destruct who; reflexivity. }
    destruct (callA sys) as [|todoA imagesA|rA] eqn:HcA.
    + destruct (callB sys) as [|todoB imagesB|rB] eqn:HcB.
      * exists false. apply (Hmoves false). simpl. simpl in Hflag.
        rewrite Hflag. discriminate.
      * exists true. apply (Hmoves true). apply shooting_step_moves.
      * exists false. apply (Hmoves false). simpl. simpl in Hflag.
        rewrite Hflag. discriminate.
    + exists false. apply (Hmoves false). apply shooting_step_moves.
    + destruct (callB sys) as [|todoB imagesB|rB] eqn:HcB.
      * exists true. apply (Hmoves true). simpl. simpl in Hflag.
        rewrite Hflag. discriminate.
      * exists true. apply (Hmoves true). apply shooting_step_moves.
      * discriminate Hopen.
Qed.

Lemma finish_returned (W : ShotWorld) (videoPath : string) (todo : list (nat * string))
    (images result : list string) :
  finish W videoPath todo images = Returned result
  <-> forallb (taken W videoPath) todo = true
      /\ result = (images ++ (imageOf W videoPath <$> todo))%list.
Proof.
  revert images. induction todo as [|[index timestamp] rest IH]; intros images; simpl.
  - rewrite app_nil_r. split; [intros [= ->]; auto | intros [_ ->]; reflexivity].
  - unfold taken at 1. simpl.
    destruct (screenshot W videoPath _ timestamp) as [[]|err]; simpl.
    + rewrite IH, <- app_assoc. reflexivity.
    + split; [discriminate | intros [[=] _]].
Qed.

Lemma finish_thrown (W : ShotWorld) (videoPath : string) (todo : list (nat * string))
    (images : list string) (err : JsError) :
  finish W videoPath todo images = Thrown err ->
  exists before entry after,
    todo = (before ++ entry :: after)%list
    /\ forallb (taken W videoPath) before = true
    /\ screenshot W videoPath (filenameOf W videoPath (fst entry)) (snd entry) = Thrown err.
Proof.
  revert images. induction todo as [|[index timestamp] rest IH]; intros images; simpl;
    [discriminate|].
  destruct (screenshot W videoPath _ timestamp) as [[]|err'] eqn:Hshot.
  - intros (before & entry & after & -> & Hbefore & Hentry)%IH.
    exists ((index, timestamp) :: before), entry, after. simpl.
    unfold taken at 1. simpl. rewrite Hshot. auto.
  - intros [= ->]. exists [], (index, timestamp), rest. auto.
Qed.

(** X9: a call on a free path resolves exactly when ffmpeg ends all five
    screenshots without an error, with the five preview paths in the order
    of the timestamps; it rejects with the error of the first screenshot
    that fails, the ones before it having succeeded. *)
Theorem screenshots_in_order (W : ShotWorld) (videoPath : string)
    (ffmpegRunning : gmap string bool) :
  isRunning ffmpegRunning videoPath = false ->
  let result := snd (ffmpegScreenshot W videoPath ffmpegRunning) in
  (forall images,
      result = Settled (Returned images)
      <-> forallb (taken W videoPath) (entries timestamps) = true
          /\ images = imageOf W videoPath <$> entries timestamps)
  /\ (forall err,
        result = Settled (Thrown err) ->
        exists before entry after,
          entries timestamps = (before ++ entry :: after)%list
          /\ forallb (taken W videoPath) before = true
          /\ screenshot W videoPath (filenameOf W videoPath (fst entry)) (snd entry)
             = Thrown err).
Proof.
  intros Hfree. cbv zeta. rewrite ffmpegScreenshot_finish by exact Hfree. split.
  - intros images.
    pose proof (finish_returned W videoPath (entries timestamps) [] images) as Hiff.
    split.
    + intros [= H]. apply Hiff in H. exact H.
    + intros H. apply Hiff in H. rewrite H. reflexivity.
  - intros err Hthrown.
    apply (finish_thrown W videoPath (entries timestamps) [] err). congruence.
Qed.

Lemma screenshots_in_order_witness :
  let result := snd (ffmpegScreenshot (shots None) "clip.mp4" ∅) in
  (forall images,
      result = Settled (Returned images)
      <-> forallb (taken (shots None) "clip.mp4") (entries timestamps) = true
          /\ images = imageOf (shots None) "clip.mp4" <$> entries timestamps)
  /\ (forall err,
        result = Settled (Thrown err) ->
        exists before entry after,
          entries timestamps = (before ++ entry :: after)%list
          /\ forallb (taken (shots None) "clip.mp4") before = true
          /\ screenshot (shots None) "clip.mp4"
               (filenameOf (shots None) "clip.mp4" (fst entry)) (snd entry)
             = Thrown err).
Proof.
  cbv zeta. refine (screenshots_in_order (shots None) "clip.mp4" ∅ _). reflexivity.
Defined.

Lemma screenshots_one_at_a_time_witness :
  let schedule := [false; true; true; false; false; true] in
  let sys := afterTurns (shots None) "clip.mp4" schedule (bothCalled ∅) in
  shooting (callA sys) && shooting (callB sys) = false
  /\ isRunning (table sys) "clip.mp4" = shooting (callA sys) || shooting (callB sys)
  /\ (forall r, callA sys = Settled r \/ callB sys = Settled r ->
        Settled r = snd (ffmpegScreenshot (shots None) "clip.mp4" ∅))
  /\ (settled (callA sys) && settled (callB sys) = false ->
      exists who, turnOf (shots None) "clip.mp4" who sys <> sys).
Proof.
  cbv zeta.
  refine (screenshots_one_at_a_time (shots None) "clip.mp4" ∅
            [false; true; true; false; false; true] _).
  reflexivity.
Defined.

(** The second call waits while the first takes its screenshots, and takes
    its own afterwards. *)
Example second_call_waits :
  let turns n := afterTurns (shots None) "clip.mp4" (repeat true 3 ++ repeat false n)%list
                   (turnOf (shots None) "clip.mp4" false (bothCalled ∅)) in
  callB (turns 0) = Polling
  /\ settled (callA (turns 5)) = true
  /\ shooting (callB (turnOf (shots None) "clip.mp4" true (turns 5))) = true.
Proof. split_and!; vm_compute; reflexivity. Qed.

End ShotFacts.

(** ** Playback *)

Module PlaybackFacts.

Import Streaming Scenario Text TextFacts.

Local Open Scope list_scope.

Section Facts.

Context {Q : Type} `{!Queue.QueueService Q}.

Implicit Types (s : Service Q) (W : World) (F : gset string).

Ltac in_list :=
  repeat first [ apply list_elem_of_here | apply list_elem_of_further ].
Ltac not_in_list :=
  let Hin := fresh "Hin" in
  intros Hin;
  repeat (apply elem_of_cons in Hin as [Hin|Hin]; [discriminate Hin|]);
  apply elem_of_nil in Hin; exact Hin.

(** *** What ffmpeg is started with *)

Lemma inputOptionsFor_string (inputForFfmpeg : string) (seekTime : option Z) :
  inputOptionsFor (InString inputForFfmpeg) seekTime
  = seekOptions seekTime ++ baseOptions
    ++ (if startsWith inputForFfmpeg "http" && negb (includes inputForFfmpeg ".m3u8")
        then ["-reconnect"; "1"; "-reconnect_streamed"; "1"; "-reconnect_delay_max"; "5"]
        else [])
    ++ ["-protocol_whitelist"; "file,http,https,tcp,tls,crypto"]
    ++ (if includes inputForFfmpeg ".m3u8" then ["-f"; "hls"] else []).
Proof.
  unfold inputOptionsFor, seekOptions.
  destruct seekTime as [t|]; [destruct (t =? 0)%Z|]; reflexivity.
Qed.

Lemma seekOptions_plain (seekTime : option Z) (flag : string) :
  allChars decimalChar flag = false -> flag <> "-ss" ->
  flag ∉ seekOptions seekTime.
Proof.
  intros Hopt Hss. unfold seekOptions.
  destruct seekTime as [t|]; [destruct (t =? 0)%Z|]; try apply not_elem_of_nil.
  intros [->|[Heq|[]%elem_of_nil]%elem_of_cons]%elem_of_cons; [congruence|].
  symmetry in Heq. exact (not_a_number t flag Hopt Heq).
Qed.

Lemma option_in_options (flag inputForFfmpeg : string) (seekTime : option Z)
    (tail : list string) :
  allChars decimalChar flag = false -> flag <> "-ss" ->
  flag ∉ baseOptions ->
  inputOptionsFor (InString inputForFfmpeg) seekTime
  = seekOptions seekTime ++ baseOptions ++ tail ->
  flag ∈ inputOptionsFor (InString inputForFfmpeg) seekTime <-> flag ∈ tail.
Proof.
  intros Hopt Hss Hbase ->. rewrite !elem_of_app.
  pose proof (seekOptions_plain seekTime flag Hopt Hss). tauto.
Qed.

Lemma in_if_list (b : bool) (flag : string) (l : list string) :
  flag ∈ (if b then l else []) <-> b = true /\ flag ∈ l.
Proof.
  destruct b; split; [auto | intros [_ Hin]; exact Hin | intros []%elem_of_nil
                     | intros [[=] _]].
Qed.

Lemma piped_options (flag : string) (seekTime : option Z) :
  allChars decimalChar flag = false -> flag <> "-ss" -> flag ∉ baseOptions ->
  flag ∉ inputOptionsFor InStream seekTime.
Proof.
  intros Hopt Hss Hbase.
  assert (inputOptionsFor InStream seekTime = seekOptions seekTime ++ baseOptions) as ->.
  { unfold inputOptionsFor, seekOptions.
    destruct seekTime as [t|]; [destruct (t =? 0)%Z|]; reflexivity. }
  rewrite elem_of_app. pose proof (seekOptions_plain seekTime flag Hopt Hss). tauto.
Qed.

(** X11: the input options of ffmpeg.  Every input that is a string gets
    the protocol whitelist; it gets [-f hls] exactly when it names an
    [.m3u8] playlist and the reconnect options exactly when it starts with
    [http] and names none, so never both; the output of a yt-dlp process
    gets none of the three. *)
Theorem hls_input_is_not_reconnected (inputForFfmpeg : string) (seekTime : option Z) :
  let options := inputOptionsFor (InString inputForFfmpeg) seekTime in
  let piped := inputOptionsFor InStream seekTime in
  "-protocol_whitelist" ∈ options
  /\ ("-f" ∈ options <-> includes inputForFfmpeg ".m3u8" = true)
  /\ ("-reconnect" ∈ options
      <-> (startsWith inputForFfmpeg "http" = true
           /\ includes inputForFfmpeg ".m3u8" = false))
  /\ ~ ("-f" ∈ options /\ "-reconnect" ∈ options)
  /\ ("-protocol_whitelist" ∉ piped) /\ ("-f" ∉ piped) /\ ("-reconnect" ∉ piped).
Proof.
  cbv zeta.
  pose proof (inputOptionsFor_string inputForFfmpeg seekTime) as Hshape.
  assert ("-f" ∈ inputOptionsFor (InString inputForFfmpeg) seekTime
          <-> includes inputForFfmpeg ".m3u8" = true) as Hf.
  { rewrite (option_in_options "-f" _ _ _ eq_refl ltac:(discriminate)
               ltac:(not_in_list) Hshape).
    rewrite !elem_of_app, !in_if_list. split.
    - intros [[_ Hin]|[Hin|[Hh _]]]; [exfalso; revert Hin; not_in_list..|exact Hh].
    - intros Hh. right. right. split; [exact Hh | in_list]. }
  assert ("-reconnect" ∈ inputOptionsFor (InString inputForFfmpeg) seekTime
          <-> (startsWith inputForFfmpeg "http" = true
               /\ includes inputForFfmpeg ".m3u8" = false)) as Hr.
  { rewrite (option_in_options "-reconnect" _ _ _ eq_refl ltac:(discriminate)
               ltac:(not_in_list) Hshape).
    rewrite !elem_of_app, !in_if_list, andb_true_iff, negb_true_iff. split.
    - intros [[Hr _]|[Hin|[_ Hin]]]; [exact Hr | exfalso; revert Hin; not_in_list..].
    - intros Hr. left. split; [exact Hr | in_list]. }
  split_and!.
  - rewrite Hshape, !elem_of_app. right. right. right. left. in_list.
  - exact Hf.
  - exact Hr.
  - intros [Hhls Hre]. apply Hf in Hhls. apply Hr in Hre as [_ Hre]. congruence.
  - apply piped_options; [reflexivity | discriminate | not_in_list].
  - apply piped_options; [reflexivity | discriminate | not_in_list].
  - apply piped_options; [reflexivity | discriminate | not_in_list].
Qed.

(** X12: the headers that [executeStream] hands to the stream always hold
    a User-Agent that is not empty.  Every other header is the one of the
    merged headers; with a User-Agent of their own the headers of the source
    are sent as merged; without one the User-Agent sent is that of Chrome
    120 or the merged one, and never one of Chrome 107. *)
Theorem user_agent_is_always_sent (customHeaders headers : option Headers) :
  let sent := customHeadersFor customHeaders headers in
  let merged := mergedHeaders customHeaders headers in
  truthy_opt (sent !! "User-Agent") = true
  /\ (forall name, name <> "User-Agent" -> sent !! name = merged !! name)
  /\ (ownUserAgent headers = true -> sent = merged)
  /\ (ownUserAgent headers = false ->
      includes (default "" (sent !! "User-Agent")) "Chrome/107" = false
      /\ (sent !! "User-Agent" = Some MediaService.chromeUserAgent
          \/ sent !! "User-Agent" = merged !! "User-Agent")).
Proof.
  cbv zeta. unfold customHeadersFor, mergedHeaders, ownUserAgent.
  assert (match headers with
          | Some h => h ∪ default ∅ customHeaders
          | None => default ∅ customHeaders
          end = default ∅ headers ∪ default ∅ customHeaders) as ->.
  { destruct headers; simpl; [reflexivity | by rewrite (left_id_L ∅ (∪))]. }
  set (merged := default ∅ headers ∪ default ∅ customHeaders).
  assert (ownUserAgent headers = true -> truthy_opt (merged !! "User-Agent") = true)
    as Hown.
  { unfold ownUserAgent, merged. destruct headers as [h|]; [|discriminate]. simpl.
    destruct (h !! "User-Agent") as [ua|] eqn:Hua; [|discriminate].
    rewrite (lookup_union_Some_l _ _ _ _ Hua). auto. }
  fold (ownUserAgent headers) in *.
  destruct (ownUserAgent headers) eqn:Hhas; simpl;
    [|destruct (truthy_opt (merged !! "User-Agent")) eqn:Hua; simpl;
      [destruct (includes (default "" (merged !! "User-Agent")) "Chrome/107") eqn:H107|]];
    rewrite ?lookup_insert_eq; simpl;
    split_and!; auto; try discriminate;
    try (intros name Hne; by rewrite lookup_insert_ne).
  all: intros _; split; auto.
Qed.

(** *** The failed set *)

Ltac frame_failed :=
  intros;
  match goal with s : Service Q |- _ => destruct s end;
  simpl; repeat (case_match; simpl in *; simplify_eq); try reflexivity.

Lemma cleanup_failed F s :
  cleanupStreamStatus (with_failedVideos F s) = with_failedVideos F (cleanupStreamStatus s).
Proof.
  unfold cleanupStreamStatus, abort.
  destruct s as [q st vc c fv sk lt yp t0 pf nt sf ef]; simpl.
  destruct c, yp; simpl; destruct (Queue.isEmpty q); reflexivity.
Qed.

Lemma advancement_failed F s :
  handleQueueAdvancement (with_failedVideos F s)
  = with_failedVideos F (handleQueueAdvancement s).
Proof.
  unfold handleQueueAdvancement. 
  change (queueService (notify SendFinishMessage (with_failedVideos F s)))
    with (queueService (notify SendFinishMessage s)).
  destruct (advanceQueue _) as [q [item|]]; [reflexivity|].
  rewrite <- cleanup_failed. reflexivity.
Qed.

Lemma ensure_failed W F s :
  ensureVoiceConnection W (with_failedVideos F s)
  = (fst (ensureVoiceConnection W s), with_failedVideos F (snd (ensureVoiceConnection W s))).
Proof. unfold ensureVoiceConnection. frame_failed. Qed.

Lemma handleDownload_failed W (videoSource : string) (title : option string) F s :
  handleDownload W videoSource title (with_failedVideos F s)
  = (fst (handleDownload W videoSource title s),
     with_failedVideos F (snd (handleDownload W videoSource title s))).
Proof. unfold handleDownload. frame_failed. Qed.

Lemma prepareResolved_failed W (videoSource : string) (title : option string)
    (headers : option Headers) F s :
  prepareResolved W videoSource title headers (with_failedVideos F s)
  = (fst (prepareResolved W videoSource title headers s),
     with_failedVideos F (snd (prepareResolved W videoSource title headers s))).
Proof.
  unfold prepareResolved.
  destruct (MediaService.resolveMediaSource _ _) as [[ms|]|e]; try reflexivity.
  destruct (bool_decide _ && negb _).
  - rewrite handleDownload_failed.
    destruct (handleDownload W videoSource title s) as [[p|] s1]; reflexivity.
  - destruct (bool_decide _); [destruct (ytDlpStdout W)|]; reflexivity.
Qed.

Lemma prepare_failed W (videoSource : string) (title : option string)
    (headers : option Headers) (queueItem : option QueueItem.t) F s :
  prepareVideoSource W videoSource title headers queueItem (with_failedVideos F s)
  = (fst (prepareVideoSource W videoSource title headers queueItem s),
     with_failedVideos F (snd (prepareVideoSource W videoSource title headers queueItem s))).
Proof.
  unfold prepareVideoSource.
  destruct queueItem as [item|]; [|apply prepareResolved_failed].
  change (prefetchOf (with_failedVideos F s) item) with (prefetchOf s item).
  destruct (usable W (downloadPath _)); [reflexivity|].
  destruct (downloadPromise _) as [task|]; [|apply prepareResolved_failed].
  assert (downloadSettled W item task (log (AwaitDownload task) (with_failedVideos F s))
          = with_failedVideos F (downloadSettled W item task (log (AwaitDownload task) s)))
    as ->.
  { unfold downloadSettled. destruct (downloadTask W task); reflexivity. }
  destruct (downloadTask W task) as [path|e] eqn:Htask.
  - destruct (usable W path); [reflexivity | apply prepareResolved_failed].
  - apply prepareResolved_failed.
Qed.

Lemma execute_failed W (input : Input) (seekTime : option Z)
    (customHeaders headers : option Headers) F s :
  executeStreamWorkflow W input seekTime customHeaders headers (with_failedVideos F s)
  = (fst (executeStreamWorkflow W input seekTime customHeaders headers s),
     with_failedVideos F
       (snd (executeStreamWorkflow W input seekTime customHeaders headers s))).
Proof. unfold executeStreamWorkflow, executeStream, abort, controllerLive. frame_failed. Qed.

Lemma finalize_failed (tempFile : option string) F s :
  finalizeStream tempFile (with_failedVideos F s)
  = with_failedVideos F (finalizeStream tempFile s).
Proof.
  unfold finalizeStream.
  change (manualStop (streamStatus (with_failedVideos F s)))
    with (manualStop (streamStatus s)).
  change (controllerLive (with_failedVideos F s)) with (controllerLive s).
  destruct (negb _ && _).
  - rewrite advancement_failed. destruct tempFile as [p|]; [destruct (truthy p)|]; reflexivity.
  - change (with_queueService ?q (with_failedVideos F s))
      with (with_failedVideos F (with_queueService q s)).
    rewrite cleanup_failed. destruct tempFile as [p|]; [destruct (truthy p)|]; reflexivity.
Qed.

Lemma catch_failed (error : JsError) (videoSource : string) F s :
  playVideo_catch error videoSource (with_failedVideos F s)
  = with_failedVideos ({[videoSource]} ∪ F) (playVideo_catch error videoSource s).
Proof.
  unfold playVideo_catch.
  change (manualStop (streamStatus (markVideoAsFailed videoSource
            (handleError error (with_failedVideos F s)))))
    with (manualStop (streamStatus (markVideoAsFailed videoSource (handleError error s)))).
  change (markVideoAsFailed videoSource (handleError error (with_failedVideos F s)))
    with (with_failedVideos ({[videoSource]} ∪ F)
            (markVideoAsFailed videoSource (handleError error s))).
  destruct (negb _); [apply advancement_failed | reflexivity].
Qed.

Lemma begin_failed (title : option string) F s :
  playVideo_begin title (with_failedVideos F s)
  = with_failedVideos F (playVideo_begin title s).
Proof.
  unfold playVideo_begin. destruct (truthy_opt title); [|reflexivity].
  change (queueService (with_status (set_manualStop false) (with_failedVideos F s)))
    with (queueService (with_status (set_manualStop false) s)).
  destruct (Queue.getCurrent _) as [c|]; [|reflexivity].
  destruct (String.eqb _ _); reflexivity.
Qed.

Lemma streamStart_failed W (title : option string) (seekTime : option Z) F s :
  streamStart W title seekTime (with_failedVideos F s)
  = with_failedVideos F (streamStart W title seekTime s).
Proof. unfold streamStart. destruct (seeking seekTime); reflexivity. Qed.

Lemma playVideo_failed W (videoSource : string) (title : option string)
    (headers : option Headers) (queueItem : option QueueItem.t) (seekTime : option Z) s :
  exists failed : bool,
    forall F,
      playVideo W videoSource title headers queueItem seekTime (with_failedVideos F s)
      = with_failedVideos (if failed then {[videoSource]} ∪ F else F)
          (playVideo W videoSource title headers queueItem seekTime s).
Proof.
  unfold playVideo.
  destruct (ensureVoiceConnection W (with_leaveTimeout false (playVideo_begin title s)))
    as [[[]|e1] s2] eqn:Hjoin.
  - destruct (prepareVideoSource W videoSource title headers queueItem s2)
      as [[prepared|e2] s3] eqn:Hprep.
    + destruct (executeStreamWorkflow W (inputForFfmpeg prepared) (seeking seekTime)
                  (p_headers prepared) (p_headers prepared)
                  (streamStart W title seekTime s3)) as [[[]|e3] s7] eqn:Hexec.
      * exists false. intros F. rewrite begin_failed.
        change (with_leaveTimeout false (with_failedVideos F ?x))
          with (with_failedVideos F (with_leaveTimeout false x)).
        rewrite ensure_failed, Hjoin. simpl.
        rewrite prepare_failed, Hprep. simpl.
        rewrite streamStart_failed, execute_failed, Hexec. simpl.
        apply finalize_failed.
      * exists true. intros F. rewrite begin_failed.
        change (with_leaveTimeout false (with_failedVideos F ?x))
          with (with_failedVideos F (with_leaveTimeout false x)).
        rewrite ensure_failed, Hjoin. simpl.
        rewrite prepare_failed, Hprep. simpl.
        rewrite streamStart_failed, execute_failed, Hexec. simpl.
        apply catch_failed.
    + exists true. intros F. rewrite begin_failed.
      change (with_leaveTimeout false (with_failedVideos F ?x))
        with (with_failedVideos F (with_leaveTimeout false x)).
      rewrite ensure_failed, Hjoin. simpl.
      rewrite prepare_failed, Hprep. simpl. apply catch_failed.
  - exists true. intros F. rewrite begin_failed.
    change (with_leaveTimeout false (with_failedVideos F ?x))
      with (with_failedVideos F (with_leaveTimeout false x)).
    rewrite ensure_failed, Hjoin. simpl. apply catch_failed.
Qed.

Lemma forget_with F s : forget (with_failedVideos F s) = forget s.
Proof. reflexivity. Qed.

Lemma forget_eq s1 s2 :
  forget s1 = forget s2 -> s1 = with_failedVideos (failedVideos s1) s2.
Proof.
  intros Hsame. destruct s1, s2. unfold forget, with_failedVideos in *. simpl in *.
  injection Hsame; intros; subst; reflexivity.
Qed.

Lemma forget_playVideo W (videoSource : string) (title : option string)
    (headers : option Headers) (queueItem : option QueueItem.t) (seekTime : option Z)
    s1 s2 :
  forget s1 = forget s2 ->
  forget (playVideo W videoSource title headers queueItem seekTime s1)
  = forget (playVideo W videoSource title headers queueItem seekTime s2).
Proof.
  intros Hsame.
  rewrite (forget_eq _ _ Hsame).
  destruct (playVideo_failed W videoSource title headers queueItem seekTime s2)
    as [failed ->].
  reflexivity.
Qed.

Lemma forget_playVideoFromQueueItem W (queueItem : QueueItem.t) s1 s2 :
  forget s1 = forget s2 ->
  forget (playVideoFromQueueItem W queueItem s1)
  = forget (playVideoFromQueueItem W queueItem s2).
Proof.
  intros Hsame. unfold playVideoFromQueueItem. apply forget_playVideo.
  rewrite (forget_eq _ _ Hsame). reflexivity.
Qed.

Lemma forget_playFromQueue W s1 s2 :
  forget s1 = forget s2 -> forget (playFromQueue W s1) = forget (playFromQueue W s2).
Proof.
  intros Hsame. unfold playFromQueue.
  rewrite (forget_eq _ _ Hsame). generalize (failedVideos s1) as F. intros F.
  change (streamStatus (with_failedVideos F s2)) with (streamStatus s2).
  change (queueService (with_failedVideos F s2)) with (queueService s2).
  destruct (playing (streamStatus s2)); [reflexivity|].
  destruct (Queue.getNext (queueService s2)) as [q [item|]]; [|reflexivity].
  apply forget_playVideoFromQueueItem. reflexivity.
Qed.

Lemma forget_cleanup s1 s2 :
  forget s1 = forget s2 ->
  forget (cleanupStreamStatus s1) = forget (cleanupStreamStatus s2).
Proof.
  intros Hsame.
  rewrite (forget_eq _ _ Hsame).
  rewrite cleanup_failed. reflexivity.
Qed.

Lemma forget_skipCurrent W s1 s2 :
  forget s1 = forget s2 -> forget (skipCurrent W s1) = forget (skipCurrent W s2).
Proof.
  intros Hsame. unfold skipCurrent.
  assert (forall a b : Service Q * SkipCall,
            forget (fst a) = forget (fst b) -> snd a = snd b ->
            forget (fst (skipCurrent_step W a)) = forget (fst (skipCurrent_step W b))
            /\ snd (skipCurrent_step W a) = snd (skipCurrent_step W b)) as Hstep.
  { intros [a ca] [b cb] Hab Hc. simpl in Hab, Hc. subst cb.
    rewrite (forget_eq _ _ Hab).
    generalize (failedVideos a) as F. clear Hab. intros F.
    destruct ca as [| |nextItem|]; simpl.
    - unfold skipCurrent_enter.
      change (streamStatus (with_failedVideos F b)) with (streamStatus b).
      change (queueService (with_failedVideos F b)) with (queueService b).
      change (isSkipping (with_failedVideos F b)) with (isSkipping b).
      destruct (negb (playing (streamStatus b))); [split; reflexivity|].
      destruct (isSkipping b && _); [split; reflexivity|].
      unfold abort. destruct b as [q st vc c fv sk lt yp t0 pf nt sf ef]; simpl.
      destruct c; simpl; destruct (Queue.skip q) as [q' [item|]]; split; reflexivity.
    - change (with_queueService ?q (with_failedVideos F b))
        with (with_failedVideos F (with_queueService q b)).
      rewrite cleanup_failed. split; reflexivity.
    - split; [|reflexivity].
      change (with_isSkipping false ?x) with (with_isSkipping false x).
      assert (forall x y : Service Q, forget x = forget y ->
                forget (with_isSkipping false x) = forget (with_isSkipping false y)) as Hsk.
      { intros x y Hxy. rewrite (forget_eq _ _ Hxy). reflexivity. }
      apply Hsk, forget_playVideoFromQueueItem. reflexivity.
    - split; reflexivity. }
  destruct (Hstep (s1, SkipCalled) (s2, SkipCalled) Hsame eq_refl) as [H1 H2].
  apply Hstep; assumption.
Qed.

Lemma forget_addToQueue W (username videoSource : string) (title : option string) s1 s2 :
  forget s1 = forget s2 ->
  forget (fst (addToQueue W username videoSource title s1))
  = forget (fst (addToQueue W username videoSource title s2))
  /\ snd (addToQueue W username videoSource title s1)
     = snd (addToQueue W username videoSource title s2).
Proof.
  intros Hsame.
  rewrite (forget_eq _ _ Hsame).
  unfold addToQueue.
  change (queueService (with_failedVideos (failedVideos s1) s2)) with (queueService s2).
  destruct (MediaService.resolveMediaSource _ _) as [[ms|]|e].
  - destruct (Queue.addToQueue _ _ _ _) as [q item].
    destruct (bool_decide _ && negb _); split; reflexivity.
  - destruct (Queue.add _ _ _ _ _ _ _) as [q item]. split; reflexivity.
  - split; reflexivity.
Qed.

(** X13: the failed set is only ever written.  Whatever it holds, a
    playback attempt, [playFromQueue], [skipCurrent], [addToQueue] and
    [stopAndClearQueue] do the same and leave the same state but for the set
    itself: a source that is marked as failed is played again like any
    other.  A playback attempt adds its own source to the set or leaves the
    set as it is. *)
Theorem failed_set_is_write_only W (videoSource username : string)
    (title : option string) (headers : option Headers)
    (queueItem : option QueueItem.t) (seekTime : option Z) F s :
  let run := playVideo W videoSource title headers queueItem seekTime in
  forget (run (with_failedVideos F s)) = forget (run s)
  /\ (failedVideos (run s) = failedVideos s
      \/ failedVideos (run s) = {[videoSource]} ∪ failedVideos s)
  /\ forget (playFromQueue W (with_failedVideos F s)) = forget (playFromQueue W s)
  /\ forget (skipCurrent W (with_failedVideos F s)) = forget (skipCurrent W s)
  /\ forget (fst (addToQueue W username videoSource title (with_failedVideos F s)))
     = forget (fst (addToQueue W username videoSource title s))
  /\ snd (addToQueue W username videoSource title (with_failedVideos F s))
     = snd (addToQueue W username videoSource title s)
  /\ forget (stopAndClearQueue (with_failedVideos F s)) = forget (stopAndClearQueue s).
Proof.
  cbv zeta.
  destruct (playVideo_failed W videoSource title headers queueItem seekTime s)
    as [failed Hrun].
  split_and!.
  - rewrite Hrun. reflexivity.
  - pose proof (Hrun (failedVideos s)) as Hsame.
    assert (with_failedVideos (failedVideos s) s = s) as Hid by (destruct s; reflexivity).
    rewrite Hid in Hsame. rewrite Hsame at 1 2. destruct failed; simpl; auto.
  - apply forget_playFromQueue, forget_with.
  - apply forget_skipCurrent, forget_with.
  - apply forget_addToQueue, forget_with.
  - apply forget_addToQueue, forget_with.
  - unfold stopAndClearQueue. apply forget_cleanup. reflexivity.
Qed.


(** *** The temporary file *)

Lemma unlinked_app (l1 l2 : list Effect) :
  unlinked (l1 ++ l2) = unlinked l1 ++ unlinked l2.
Proof. apply omap_app. Qed.

Lemma unlinked_elem (path : string) (l : list Effect) :
  Unlink path ∈ l <-> path ∈ unlinked l.
Proof.
  unfold unlinked. rewrite list_elem_of_omap. split.
  - intros Hin. exists (Unlink path). auto.
  - intros (e & Hin & He). destruct e; simpl in He; try discriminate.
    injection He as ->. exact Hin.
Qed.

Lemma cleanup_unlinked s :
  unlinked (effects (cleanupStreamStatus s)) = unlinked (effects s).
Proof.
  rewrite StreamingFacts.cleanup_effects, unlinked_app.
  destruct (ytDlpProcess s); simpl; apply app_nil_r.
Qed.

Lemma advancement_unlinked s :
  unlinked (effects (handleQueueAdvancement s)) = unlinked (effects s).
Proof.
  unfold handleQueueAdvancement.
  destruct (advanceQueue _) as [q [item|]].
  - simpl. rewrite !unlinked_app. simpl. rewrite !app_nil_r. reflexivity.
  - rewrite cleanup_unlinked. simpl. rewrite unlinked_app. simpl. apply app_nil_r.
Qed.

Lemma catch_unlinked (error : JsError) (videoSource : string) s :
  unlinked (effects (playVideo_catch error videoSource s)) = unlinked (effects s).
Proof.
  unfold playVideo_catch. destruct (negb _).
  - rewrite advancement_unlinked. simpl. rewrite unlinked_app. simpl. apply app_nil_r.
  - simpl. rewrite unlinked_app. simpl. apply app_nil_r.
Qed.

Lemma ensure_unlinked W s :
  unlinked (effects (snd (ensureVoiceConnection W s))) = unlinked (effects s).
Proof.
  unfold ensureVoiceConnection.
  destruct (negb (joined _) || negb (voiceConnection _)); simpl.
  - destruct (joinVoice W); simpl; [|reflexivity].
    destruct (connectionAtCheck W); simpl; rewrite unlinked_app; simpl; apply app_nil_r.
  - destruct (connectionAtCheck W); reflexivity.
Qed.

Lemma handleDownload_unlinked W (videoSource : string) (title : option string) s :
  unlinked (effects (snd (handleDownload W videoSource title s))) = unlinked (effects s).
Proof.
  unfold handleDownload.
  destruct (MediaService.downloadYouTubeVideo _ _) as [[p|]|e]; simpl;
    [destruct (truthy p); simpl|..];
    rewrite !unlinked_app; simpl; rewrite !app_nil_r; reflexivity.
Qed.

Lemma prepareResolved_unlinked W (videoSource : string) (title : option string)
    (headers : option Headers) s :
  unlinked (effects (snd (prepareResolved W videoSource title headers s)))
  = unlinked (effects s).
Proof.
  unfold prepareResolved.
  destruct (MediaService.resolveMediaSource _ _) as [[ms|]|e]; try reflexivity.
  destruct (bool_decide _ && negb _).
  - pose proof (handleDownload_unlinked W videoSource title s) as Hd.
    destruct (handleDownload W videoSource title s) as [[p|] s1]; exact Hd.
  - destruct (bool_decide _); [destruct (ytDlpStdout W)|]; reflexivity.
Qed.

Lemma prepare_unlinked W (videoSource : string) (title : option string)
    (headers : option Headers) (queueItem : option QueueItem.t) s :
  unlinked (effects (snd (prepareVideoSource W videoSource title headers queueItem s)))
  = unlinked (effects s).
Proof.
  unfold prepareVideoSource.
  destruct queueItem as [item|]; [|apply prepareResolved_unlinked].
  destruct (usable W (downloadPath _)); [reflexivity|].
  destruct (downloadPromise _) as [task|]; [|apply prepareResolved_unlinked].
  assert (unlinked (effects (downloadSettled W item task (log (AwaitDownload task) s)))
          = unlinked (effects s)) as Hsettled.
  { destruct (StreamingFacts.downloadSettled_frame W item task (log (AwaitDownload task) s))
      as (_ & _ & ->).
    simpl. rewrite unlinked_app. simpl. apply app_nil_r. }
  destruct (downloadTask W task) as [path|e].
  - destruct (usable W path); [exact Hsettled|].
    rewrite prepareResolved_unlinked. exact Hsettled.
  - rewrite prepareResolved_unlinked. exact Hsettled.
Qed.

Lemma execute_unlinked W (input : Input) (seekTime : option Z)
    (customHeaders headers : option Headers) s :
  unlinked (effects (snd (executeStreamWorkflow W input seekTime customHeaders headers s)))
  = unlinked (effects s).
Proof.
  unfold executeStreamWorkflow, executeStream, abort.
  destruct (ffmpegError W) as [err|]; simpl;
    repeat case_match; simplify_eq; simpl;
    rewrite unlinked_app; simpl; apply app_nil_r.
Qed.

Lemma streamStart_unlinked W (title : option string) (seekTime : option Z) s :
  unlinked (effects (streamStart W title seekTime s)) = unlinked (effects s).
Proof.
  unfold streamStart. destruct (seeking seekTime); simpl;
    rewrite unlinked_app; simpl; apply app_nil_r.
Qed.

Lemma begin_unlinked (title : option string) s :
  unlinked (effects (with_leaveTimeout false (playVideo_begin title s)))
  = unlinked (effects s).
Proof.
  unfold playVideo_begin. destruct (truthy_opt title); [|reflexivity].
  destruct (Queue.getCurrent _) as [c|]; [|reflexivity].
  destruct (String.eqb _ _); reflexivity.
Qed.

Lemma finalize_unlinked (tempFile : option string) s :
  unlinked (effects (finalizeStream tempFile s))
  = unlinked (effects s)
    ++ match tempFile with
       | Some path => if truthy path then [path] else []
       | None => []
       end.
Proof.
  unfold finalizeStream.
  destruct (negb _ && _);
    (destruct tempFile as [path|]; [destruct (truthy path)|]); simpl;
    rewrite ?unlinked_app, ?advancement_unlinked, ?cleanup_unlinked; simpl;
    rewrite ?app_nil_r; reflexivity.
Qed.

(** X15: the files that a playback attempt deletes.  It deletes one file
    at most, the temporary file that [prepareVideoSource] returned (a fresh
    download or the prefetched file of the item), and only when the stream
    has ended without an error; when joining, preparing or streaming throws,
    nothing is deleted. *)
Theorem temp_file_is_deleted_after_the_stream W (videoSource : string)
    (title : option string) (headers : option Headers)
    (queueItem : option QueueItem.t) (seekTime : option Z) s :
  let final := playVideo W videoSource title headers queueItem seekTime s in
  let joining :=
    ensureVoiceConnection W (with_leaveTimeout false (playVideo_begin title s)) in
  let preparing :=
    prepareVideoSource W videoSource title headers queueItem (snd joining) in
  let streaming prepared :=
    executeStreamWorkflow W (inputForFfmpeg prepared) (seeking seekTime)
      (p_headers prepared) (p_headers prepared)
      (streamStart W title seekTime (snd preparing)) in
  unlinked (effects final)
  = unlinked (effects s)
    ++ match fst joining, fst preparing with
       | Returned _, Returned prepared =>
           match fst (streaming prepared), tempFilePath prepared with
           | Returned _, Some path => if truthy path then [path] else []
           | _, _ => []
           end
       | _, _ => []
       end.
Proof.
  cbv zeta. unfold playVideo.
  pose proof (ensure_unlinked W (with_leaveTimeout false (playVideo_begin title s)))
    as Hjoin.
  rewrite begin_unlinked in Hjoin.
  destruct (ensureVoiceConnection W _) as [[[]|e1] s2]; simpl in *.
  2:{ rewrite catch_unlinked, Hjoin, app_nil_r. reflexivity. }
  pose proof (prepare_unlinked W videoSource title headers queueItem s2) as Hprep.
  destruct (prepareVideoSource W videoSource title headers queueItem s2)
    as [[prepared|e2] s3]; simpl in *.
  2:{ rewrite catch_unlinked, Hprep, Hjoin, app_nil_r. reflexivity. }
  pose proof (execute_unlinked W (inputForFfmpeg prepared) (seeking seekTime)
                (p_headers prepared) (p_headers prepared)
                (streamStart W title seekTime s3)) as Hexec.
  rewrite streamStart_unlinked in Hexec.
  destruct (executeStreamWorkflow W _ _ _ _ _) as [[[]|e3] s7]; simpl in *.
  - rewrite finalize_unlinked, Hexec, Hprep, Hjoin. reflexivity.
  - rewrite catch_unlinked, Hexec, Hprep, Hjoin, app_nil_r.
    destruct (tempFilePath prepared); reflexivity.
Qed.

(** *** The snapshot and the stop command *)


(** X14: after [stopAndClearQueue] the queue is the cleared one, nothing
    plays, no stop is pending, the controller is aborted or absent, no
    yt-dlp process is held and the leave timer runs if the cleared queue is
    empty; a skip that follows is turned down with the notice that no video
    is playing and changes nothing else. *)
Theorem stop_command_leaves_nothing_to_skip W s :
  let stopped := stopAndClearQueue s in
  queueService stopped = Queue.clearQueue (queueService s)
  /\ playing (streamStatus stopped) = false
  /\ manualStop (streamStatus stopped) = false
  /\ controllerLive stopped = false
  /\ ytDlpProcess stopped = false
  /\ leaveTimeout stopped
     = Queue.isEmpty (Queue.clearQueue (queueService s)) || leaveTimeout s
  /\ skipCurrent W stopped = notify (SendError "No video is currently playing.") stopped
  /\ fst (skipCurrent_step W (stopped, SkipCalled)) = skipCurrent W stopped.
Proof.
  cbv zeta. unfold stopAndClearQueue.
  set (s0 := with_queueService (Queue.clearQueue (queueService s)) s).
  destruct (StreamingFacts.cleanup_status s0) as [Hp Hm].
  destruct (StreamingFacts.cleanup_frame s0) as (Hq & _).
  assert (skipCurrent_step W (cleanupStreamStatus s0, SkipCalled)
          = (notify (SendError "No video is currently playing.") (cleanupStreamStatus s0),
             SkipReturned)) as Hskip.
  { simpl. unfold skipCurrent_enter. rewrite Hp. reflexivity. }
  split_and!; try assumption.
  - unfold cleanupStreamStatus, abort, controllerLive.
    destruct s as [q st vc c fv sk lt yp t0 pf nt sf ef]; simpl.
    destruct c, yp; simpl; destruct (Queue.isEmpty _); reflexivity.
  - unfold cleanupStreamStatus, abort.
    destruct s as [q st vc c fv sk lt yp t0 pf nt sf ef]; simpl.
    destruct c, yp; simpl; destruct (Queue.isEmpty _); reflexivity.
  - unfold cleanupStreamStatus, abort.
    destruct s as [q st vc c fv sk lt yp t0 pf nt sf ef]; simpl.
    destruct c, yp; simpl; destruct (Queue.isEmpty _); reflexivity.
  - unfold skipCurrent. rewrite Hskip. reflexivity.
  - unfold skipCurrent. rewrite Hskip. reflexivity.
Qed.

(** *** The prefetched file *)

(** X17: the background download and the preparation of the item meet.
    When the task that [startBackgroundDownload] starts fulfils with a file
    that exists, [prepareVideoSource] for the item hands that file to ffmpeg
    and names it as the temporary file, whether it has to wait for the task
    or finds the path stored already, without resolving or downloading
    again; the prefetch fields of the other items stay as they were. *)
Theorem prefetched_file_is_played W (videoSource : string) (title : option string)
    (headers : option Headers) (queueItem : QueueItem.t) (path : string) s :
  downloadTask W (nextTask s) = Returned (Some path) ->
  truthy path = true ->
  existsSync W path = true ->
  usable W (downloadPath (prefetchOf s queueItem)) = false ->
  let spawned := startBackgroundDownload queueItem s in
  let settled := downloadSettled W queueItem (nextTask s) spawned in
  prepareVideoSource W videoSource title headers (Some queueItem) spawned
  = (Returned {| inputForFfmpeg := InString path; tempFilePath := Some path;
                 p_headers := None |},
     log (AwaitDownload (nextTask s)) settled)
  /\ prepareVideoSource W videoSource title headers (Some queueItem) settled
     = (Returned {| inputForFfmpeg := InString path; tempFilePath := Some path;
                    p_headers := None |}, settled)
  /\ (forall other, QueueItem.id other <> QueueItem.id queueItem ->
        prefetchOf settled other = prefetchOf s other).
Proof.
  intros Htask Htruthy Hexists Hstale. cbv zeta.
  assert (prefetchOf (startBackgroundDownload queueItem s) queueItem
          = {| downloadPath := downloadPath (prefetchOf s queueItem);
               downloadPromise := Some (nextTask s) |}) as Hspawned.
  { unfold startBackgroundDownload, prefetchOf at 1. simpl.
    rewrite lookup_insert_eq. reflexivity. }
  assert (usable W (Some path) = true) as Husable.
  { unfold usable. rewrite Htruthy, Hexists. reflexivity. }
  split_and!.
  - unfold prepareVideoSource. rewrite Hspawned. simpl. rewrite Hstale, Htask, Husable.
    f_equal. unfold downloadSettled. rewrite Htask.
    destruct s; reflexivity.
  - unfold prepareVideoSource.
    assert (prefetchOf (downloadSettled W queueItem (nextTask s)
                          (startBackgroundDownload queueItem s)) queueItem
            = {| downloadPath := Some path; downloadPromise := Some (nextTask s) |}) as ->.
    { unfold downloadSettled. rewrite Htask. unfold prefetchOf at 1. simpl.
      rewrite lookup_insert_eq. simpl. rewrite Hspawned. reflexivity. }
    simpl. rewrite Htruthy, Hexists. reflexivity.
  - intros other Hother. unfold downloadSettled. rewrite Htask.
    unfold prefetchOf, startBackgroundDownload. simpl.
    rewrite !lookup_insert_ne by congruence. reflexivity.
Qed.

End Facts.


Lemma prefetched_file_witness :
  let path := "/tmp/prefetch.mp4" in
  let spawned := startBackgroundDownload song withSong in
  let settled := downloadSettled calm song (nextTask withSong) spawned in
  prepareVideoSource calm (QueueItem.url song) (Some "Song") None (Some song) spawned
  = (Returned {| inputForFfmpeg := InString path; tempFilePath := Some path;
                 p_headers := None |},
     log (AwaitDownload (nextTask withSong)) settled)
  /\ prepareVideoSource calm (QueueItem.url song) (Some "Song") None (Some song) settled
     = (Returned {| inputForFfmpeg := InString path; tempFilePath := Some path;
                    p_headers := None |}, settled)
  /\ (forall other, QueueItem.id other <> QueueItem.id song ->
        prefetchOf settled other = prefetchOf withSong other).
Proof.
  cbv zeta.
  refine (prefetched_file_is_played calm (QueueItem.url song) (Some "Song") None song
            "/tmp/prefetch.mp4" withSong _ _ _ _); vm_compute; reflexivity.
Defined.

(** A downloaded file stays on disk when ffmpeg fails, and is deleted when
    the stream ends. *)
Example downloaded_file_after_the_stream :
  let prefetched :=
    downloadSettled calm song 0 (startBackgroundDownload song withSong) in
  unlinked (effects (playVideoFromQueueItem brokenStream song prefetched)) = []
  /\ unlinked (effects (playVideoFromQueueItem calm song prefetched))
     = ["/tmp/prefetch.mp4"].
Proof. split; vm_compute; reflexivity. Qed.

End PlaybackFacts.

(** ** The service of src/services/streaming.ts *)

Module PlainFacts.

Import Streaming PlainStreaming.
Local Open Scope list_scope.

Section Facts.

Context {Q : Type} `{!Queue.QueueService Q}.

Implicit Types s : PlainStreaming.Service Q.

Lemma keeps_refl s : keeps s s.
Proof. repeat split. Qed.

Lemma keeps_trans s1 s2 s3 : keeps s1 s2 -> keeps s2 s3 -> keeps s1 s3.
Proof.
  unfold keeps. intros (-> & -> & -> & -> & ->) (-> & -> & -> & -> & ->).
  repeat split.
Qed.

Ltac events := unfold removed, scheduled, started in *; simpl;
  rewrite ?omap_app; simpl; rewrite ?app_nil_r.

Ltac kept := unfold keeps; simpl; events; repeat split; reflexivity.

Lemma cleanup_idle s :
  let s' := cleanupStreamStatus s in
  queueService s' = queueService s
  /\ failedVideos s' = failedVideos s
  /\ removed (events s') = removed (events s)
  /\ scheduled (events s') = scheduled (events s)
  /\ started (events s') = started (events s)
  /\ playing (streamStatus s') = false
  /\ manualStop (streamStatus s') = false
  /\ controllerLive s' = false.
Proof.
  cbv zeta. unfold cleanupStreamStatus, abort, controllerLive.
  destruct (controller s) eqn:Hc; simpl.
  all: destruct (ytDlpProcess s); simpl.
  all: destruct (Queue.isEmpty _); simpl; rewrite ?Hc; events; repeat split; reflexivity.
Qed.

Lemma handleDownload_keeps W videoSource title s :
  keeps s (snd (handleDownload W videoSource title s))
  /\ started (events (snd (handleDownload W videoSource title s))) = started (events s).
Proof.
  unfold handleDownload.
  destruct (MediaService.downloadYouTubeVideo _ _) as [[path|]|]; simpl.
  1: destruct (truthy path); simpl.
  all: split; [kept | events; reflexivity].
Qed.

Lemma prepare_keeps W videoSource title headers s :
  keeps s (snd (prepareVideoSource W videoSource title headers s))
  /\ started (events (snd (prepareVideoSource W videoSource title headers s)))
     = started (events s).
Proof.
  unfold prepareVideoSource.
  destruct (MediaService.resolveMediaSource _ _) as [[mediaSource|]|]; simpl.
  2,3: split; [kept | reflexivity].
  destruct (_ && _).
  - pose proof (handleDownload_keeps W videoSource title s) as Hd.
    destruct (handleDownload W videoSource title s) as [[path|] s1]; exact Hd.
  - destruct (bool_decide _).
    + destruct (ytDlpStdout _); simpl; (split; [kept | reflexivity]).
    + simpl. split; [kept | reflexivity].
Qed.

Lemma ensure_keeps W title s :
  keeps s (snd (ensureVoiceConnection W title s))
  /\ started (events (snd (ensureVoiceConnection W title s))) = started (events s).
Proof.
  unfold ensureVoiceConnection.
  destruct (negb _ || negb _).
  1: destruct (joinVoice _); simpl.
  all: try (split; [kept | reflexivity]).
  all: destruct title as [t|]; [destruct (truthy t)|].
  all: destruct (connectionAtCheck _); simpl; (split; [kept | events; reflexivity]).
Qed.

Lemma validate_keeps W prepared s :
  keeps s (snd (validateUrl W prepared s))
  /\ started (events (snd (validateUrl W prepared s))) = started (events s).
Proof.
  unfold validateUrl.
  destruct (inputForFfmpeg prepared) as [input|]; [destruct (startsWith _ _)|]; simpl.
  all: split; [kept | events; reflexivity].
Qed.

(** A stream that runs to its end without an error leaves its controller
    live. *)
Lemma workflow_keeps W input headers s :
  let result := executeStreamWorkflow W input headers s in
  keeps s (snd result)
  /\ started (events (snd result)) = started (events s) ++ [input]
  /\ (forall u, fst result = Returned u -> controllerLive (snd result) = true).
Proof.
  cbv zeta. unfold executeStreamWorkflow, executeStream.
  destruct (ffmpegError _) as [err|]; simpl.
  1: destruct (negb _); simpl.
  all: destruct (playStream _); simpl.
  all: split; [kept | split; [events; reflexivity | ] ].
  all: intros u Hu; try discriminate Hu; reflexivity.
Qed.

Lemma begin_keeps title s :
  let s' := playVideo_begin title s in
  failedVideos s' = failedVideos s
  /\ events s' = events s
  /\ manualStop (streamStatus s') = false.
Proof.
  cbv zeta. unfold playVideo_begin.
  destruct (truthy_opt title); simpl; [|repeat split].
  destruct (Queue.getCurrent _); simpl; [|repeat split].
  destruct (String.eqb _ _); repeat split.
Qed.

Lemma activity_keeps (title : option string) s :
  let s' := match title with
            | Some t => if truthy t then did (SetActivity (Watching t)) s else s
            | None => s
            end in
  keeps s s' /\ started (events s') = started (events s).
Proof.
  cbv zeta. destruct title as [t|]; [destruct (truthy t)|];
    (split; [kept | events; reflexivity]).
Qed.

(** The [try] block of [playVideo]: it does not touch the queue, the set of
    failed sources or the manual-stop flag, it deletes no file and schedules
    no item; when it ends without an error, a stream has been started and
    its controller is live. *)
Lemma try_keeps W videoSource title headers s :
  let attempt := playVideo_try W videoSource title headers s in
  keeps s (after attempt)
  /\ (forall u, outcome attempt = Returned u -> controllerLive (after attempt) = true).
Proof.
  cbv zeta. unfold playVideo_try.
  pose proof (prepare_keeps W videoSource title headers s) as [Hp _].
  destruct (prepareVideoSource W videoSource title headers s) as [[prepared|e] s1];
    simpl in *.
  2:{ split; [exact Hp | discriminate]. }
  pose proof (ensure_keeps W title s1) as [He _].
  destruct (ensureVoiceConnection W title s1) as [[[]|e] s2]; simpl in *.
  2:{ split; [exact (keeps_trans _ _ _ Hp He) | discriminate]. }
  pose proof (activity_keeps title s2) as [Ha _]. cbv zeta in Ha.
  set (s3 := match title with Some _ => _ | None => _ end) in *.
  assert (keeps s3 (log (SendPlaying (or_else title videoSource)) s3)) as Hs by kept.
  set (s4 := log _ s3) in *.
  pose proof (validate_keeps W prepared s4) as [Hv _].
  destruct (validateUrl W prepared s4) as [[[]|e] s5]; simpl in *.
  2:{ split; [|discriminate].
      exact (keeps_trans _ _ _ Hp
               (keeps_trans _ _ _ He (keeps_trans _ _ _ Ha (keeps_trans _ _ _ Hs Hv)))). }
  pose proof (workflow_keeps W (inputForFfmpeg prepared) (p_headers prepared) s5)
    as (Hw & _ & Hlive). cbv zeta in Hw, Hlive.
  destruct (executeStreamWorkflow W _ _ s5) as [result s6]; simpl in *.
  split; [|exact Hlive].
  exact (keeps_trans _ _ _ Hp
           (keeps_trans _ _ _ He
              (keeps_trans _ _ _ Ha
                 (keeps_trans _ _ _ Hs (keeps_trans _ _ _ Hv Hw))))).
Qed.

Lemma catch_keeps error videoSource s :
  let s' := playVideo_catch error videoSource s in
  queueService s' = queueService s
  /\ failedVideos s' = {[videoSource]} ∪ failedVideos s
  /\ manualStop (streamStatus s') = manualStop (streamStatus s)
  /\ removed (events s') = removed (events s)
  /\ scheduled (events s') = scheduled (events s)
  /\ started (events s') = started (events s)
  /\ controllerLive s' = false.
Proof.
  cbv zeta. unfold playVideo_catch, controllerLive, abort, handleError, notify, did.
  destruct (_ || _); simpl.
  all: destruct (controller s) as [[]|] eqn:Hc; simpl; rewrite ?Hc; simpl; events;
    repeat split; reflexivity.
Qed.

Lemma advancement_keeps s :
  let s' := handleQueueAdvancement s in
  failedVideos s' = failedVideos s
  /\ removed (events s') = removed (events s)
  /\ queueService s'
     = (let '(q, nextItem) := advanceQueue (queueService s) in
        match nextItem with
        | Some _ => q
        | None => Queue.setPlaying false q
        end)
  /\ scheduled (events s')
     = scheduled (events s) ++ option_list (snd (advanceQueue (queueService s))).
Proof.
  cbv zeta. unfold handleQueueAdvancement.
  change (queueService (notify SendFinishMessage s)) with (queueService s).
  destruct (advanceQueue (queueService s)) as [q [item|]].
  - simpl. events. repeat split.
  - pose proof (cleanup_idle
                  (with_queueService (Queue.setPlaying false q)
                     (notify SendFinishMessage s))) as Hidle.
    cbv zeta in Hidle. destruct Hidle as (Hq & Hf & Hr & Hs & _).
    rewrite Hq, Hf, Hr, Hs. simpl. events. repeat split.
Qed.

Lemma finalize_removed tempFile s :
  removed (events (finalizeStream tempFile s)) = removed (events s) ++ deletable tempFile.
Proof.
  unfold finalizeStream.
  assert (removed (events (handleQueueAdvancement s)) = removed (events s)) as Ha
    by apply advancement_keeps.
  pose proof (cleanup_idle
                (with_queueService
                   (Queue.resetCurrentIndex (Queue.setPlaying false (queueService s))) s))
    as Hc.
  cbv zeta in Hc. destruct Hc as (_ & _ & Hc & _).
  change (events (with_queueService _ s)) with (events s) in Hc.
  set (advanced := handleQueueAdvancement s) in *.
  set (cleaned := cleanupStreamStatus _) in *.
  clearbody advanced cleaned.
  destruct (_ && _);
    (destruct tempFile as [path|]; simpl; [destruct (truthy path)|]); simpl; events;
    rewrite ?Ha, ?Hc, ?app_nil_r; reflexivity.
Qed.

Lemma finalize_idle tempFile s :
  controllerLive s = false ->
  let s' := finalizeStream tempFile s in
  queueService s' = Queue.resetCurrentIndex (Queue.setPlaying false (queueService s))
  /\ failedVideos s' = failedVideos s
  /\ scheduled (events s') = scheduled (events s)
  /\ started (events s') = started (events s)
  /\ playing (streamStatus s') = false
  /\ manualStop (streamStatus s') = false
  /\ controllerLive s' = false.
Proof.
  intros Hlive. cbv zeta. unfold finalizeStream. rewrite Hlive, andb_false_r.
  pose proof (cleanup_idle
                (with_queueService
                   (Queue.resetCurrentIndex (Queue.setPlaying false (queueService s))) s))
    as Hidle.
  cbv zeta in Hidle. destruct Hidle as (Hq & Hf & _ & Hs & Hst & Hp & Hm & Hc).
  set (cleaned := cleanupStreamStatus _) in *. clearbody cleaned.
  unfold controllerLive in *.
  destruct tempFile as [path|]; [destruct (truthy path)|]; simpl; events;
    rewrite ?Hq, ?Hf, ?Hs, ?Hst, ?Hp, ?Hm, ?Hc; repeat split; reflexivity.
Qed.

Lemma finalize_advance tempFile s :
  controllerLive s = true ->
  manualStop (streamStatus s) = false ->
  let s' := finalizeStream tempFile s in
  failedVideos s' = failedVideos s
  /\ queueService s'
     = (let '(q, nextItem) := advanceQueue (queueService s) in
        match nextItem with
        | Some _ => q
        | None => Queue.setPlaying false q
        end)
  /\ scheduled (events s')
     = scheduled (events s) ++ option_list (snd (advanceQueue (queueService s))).
Proof.
  intros Hlive Hstop. cbv zeta. unfold finalizeStream. rewrite Hlive, Hstop.
  destruct (advancement_keeps s) as (Hf & _ & Hq & Hs). cbv zeta in *.
  set (advanced := handleQueueAdvancement s) in *. clearbody advanced.
  destruct tempFile as [path|]; [destruct (truthy path)|]; simpl; events;
    rewrite ?Hf, ?Hs, ?Hq; repeat split; reflexivity.
Qed.


Lemma cleanup_grows s :
  exists more, events (cleanupStreamStatus s) = events s ++ more.
Proof.
  unfold cleanupStreamStatus, abort.
  destruct (controller s); simpl.
  all: destruct (ytDlpProcess s); simpl.
  all: destruct (Queue.isEmpty _); simpl; rewrite <- ?app_assoc; eexists; reflexivity.
Qed.

Lemma finalize_grows tempFile s :
  exists more, events (finalizeStream tempFile s) = events s ++ more.
Proof.
  unfold finalizeStream.
  assert (exists more, events (handleQueueAdvancement s) = events s ++ more) as [m1 H1].
  { unfold handleQueueAdvancement.
    change (queueService (notify SendFinishMessage s)) with (queueService s).
    destruct (advanceQueue (queueService s)) as [q [item|]].
    - simpl. rewrite <- app_assoc. eexists; reflexivity.
    - destruct (cleanup_grows
                  (with_queueService (Queue.setPlaying false q)
                     (notify SendFinishMessage s))) as [m ->].
      simpl. rewrite <- app_assoc. eexists; reflexivity. }
  destruct (cleanup_grows
              (with_queueService
                 (Queue.resetCurrentIndex (Queue.setPlaying false (queueService s))) s))
    as [m2 H2].
  change (events (with_queueService _ s)) with (events s) in H2.
  set (advanced := handleQueueAdvancement s) in *.
  set (cleaned := cleanupStreamStatus _) in *.
  clearbody advanced cleaned.
  destruct (_ && _);
    (destruct tempFile as [path|]; [destruct (truthy path)|]); simpl;
    rewrite ?H1, ?H2, <- ?app_assoc; eexists; reflexivity.
Qed.

(** The value of [tempFile] when the [try] block ends is the temporary file
    of the prepared source, if the source was prepared. *)
Lemma try_tempFile W videoSource title headers s :
  tempFile (playVideo_try W videoSource title headers s)
  = match fst (prepareVideoSource W videoSource title headers s) with
    | Returned prepared => tempFilePath prepared
    | Thrown _ => None
    end.
Proof.
  unfold playVideo_try.
  destruct (prepareVideoSource W videoSource title headers s) as [[prepared|e] s1];
    simpl; [|reflexivity].
  destruct (ensureVoiceConnection W title s1) as [[[]|e] s2]; simpl; [|reflexivity].
  destruct (validateUrl W prepared _) as [[[]|e] s5]; simpl; [|reflexivity].
  destruct (executeStreamWorkflow W _ _ s5); reflexivity.
Qed.

(** X18: in the service of src/services/streaming.ts a playback attempt
    that throws, at whatever stage, ends idle: the queue is told that
    nothing plays and its cursor is reset, the source is marked as failed,
    the service is not playing, its controller is not live, and no next
    item is scheduled. *)
Theorem failed_playback_ends_idle W (videoSource : string) (title : option string)
    (headers : option Headers) s (error : JsError) :
  let begun := playVideo_begin title s in
  let final := playVideo W videoSource title headers s in
  outcome (playVideo_try W videoSource title headers begun) = Thrown error ->
  queueService final
  = Queue.resetCurrentIndex (Queue.setPlaying false (queueService begun))
  /\ failedVideos final = {[videoSource]} ∪ failedVideos s
  /\ playing (streamStatus final) = false
  /\ controllerLive final = false
  /\ scheduled (events final) = scheduled (events s).
Proof.
  cbv zeta. intros Hthrown. unfold playVideo. rewrite Hthrown.
  destruct (try_keeps W videoSource title headers (playVideo_begin title s))
    as [(Hq & Hf & _ & _ & Hs) _].
  destruct (begin_keeps title s) as (Hbf & Hbe & _). cbv zeta in *.
  set (attempt := playVideo_try W videoSource title headers (playVideo_begin title s)) in *.
  clearbody attempt.
  destruct (catch_keeps error videoSource (after attempt))
    as (Hcq & Hcf & _ & _ & Hcs & _ & Hlive).
  cbv zeta in *.
  destruct (finalize_idle (tempFile attempt) _ Hlive)
    as (Hfq & Hff & Hfs & _ & Hp & _ & Hc).
  cbv zeta in *.
  rewrite Hfq, Hff, Hfs, Hcq, Hcf, Hcs, Hq, Hf, Hs, Hbf, Hbe.
  repeat split; assumption.
Qed.

(** X19: the service of src/services/streaming.ts deletes the temporary
    file of a prepared source on every path, whether the attempt streams to
    its end or throws after the download; it deletes nothing else. *)
Theorem temp_file_is_deleted_on_every_path W (videoSource : string)
    (title : option string) (headers : option Headers) s :
  let final := playVideo W videoSource title headers s in
  removed (events final)
  = removed (events s)
    ++ match fst (prepareVideoSource W videoSource title headers
                    (playVideo_begin title s)) with
       | Returned prepared => deletable (tempFilePath prepared)
       | Thrown _ => []
       end.
Proof.
  cbv zeta. unfold playVideo.
  pose proof (try_tempFile W videoSource title headers (playVideo_begin title s)) as Htemp.
  destruct (try_keeps W videoSource title headers (playVideo_begin title s))
    as [(_ & _ & _ & Hr & _) _].
  destruct (begin_keeps title s) as (_ & Hbe & _). cbv zeta in *.
  rewrite Hbe in Hr.
  set (attempt := playVideo_try W videoSource title headers (playVideo_begin title s)) in *.
  clearbody attempt.
  assert (deletable (tempFile attempt)
          = match fst (prepareVideoSource W videoSource title headers
                         (playVideo_begin title s)) with
            | Returned prepared => deletable (tempFilePath prepared)
            | Thrown _ => []
            end) as <-.
  { rewrite Htemp. destruct (fst _); reflexivity. }
  destruct (outcome attempt) as [[]|error]; rewrite finalize_removed.
  - rewrite Hr. reflexivity.
  - destruct (catch_keeps error videoSource (after attempt)) as (_ & _ & _ & Hcr & _).
    cbv zeta in Hcr. rewrite Hcr, Hr. reflexivity.
Qed.

(** X20: a remote source whose URL answers the validation request with an
    HTML content type is never handed to ffmpeg: no stream is started, the
    source is marked as failed, and once the voice channel is joined the
    channel is told that the stream is unavailable. *)
Theorem web_page_is_not_streamed W (videoSource : string) (title : option string)
    (headers : option Headers) s (prepared : Prepared) s1 (url contentType : string)
    (text : option JsError) :
  let begun := playVideo_begin title s in
  let final := playVideo W videoSource title headers s in
  prepareVideoSource W videoSource title headers begun = (Returned prepared, s1) ->
  inputForFfmpeg prepared = InString url ->
  startsWith url "http" = true ->
  fetch W url (validationHeaders (p_headers prepared)) = Ok (Some contentType) text ->
  includes contentType "text/html" = true ->
  started (events final) = started (events s)
  /\ videoSource ∈ failedVideos final
  /\ (fst (ensureVoiceConnection W title s1) = Returned tt ->
      StreamUnavailable ∈ events final).
Proof.
  cbv zeta. intros Hprep Hinput Hhttp Hfetch Hhtml.
  assert (truthy contentType = true) as Htruthy.
  { destruct contentType; [discriminate Hhtml | reflexivity]. }
  destruct (prepare_keeps W videoSource title headers (playVideo_begin title s))
    as [_ Hps].
  destruct (begin_keeps title s) as (_ & Hbe & _). cbv zeta in *.
  rewrite Hprep, Hbe in Hps. simpl in Hps.
  destruct (ensure_keeps W title s1) as [_ Hes].
  assert (exists error attempt,
             playVideo_try W videoSource title headers (playVideo_begin title s) = attempt
             /\ outcome attempt = Thrown error
             /\ started (events (after attempt)) = started (events s)
             /\ (fst (ensureVoiceConnection W title s1) = Returned tt ->
                 error = webpageError)) as (error & attempt & Htry & Hout & Hst & Hweb).
  { unfold playVideo_try. rewrite Hprep.
    destruct (ensureVoiceConnection W title s1) as [[[]|e] s2]; simpl in *.
    2:{ eexists _, _. split; [reflexivity|]. simpl.
        repeat split; [congruence | discriminate]. }
    destruct (activity_keeps title s2) as [_ Has]. cbv zeta in Has.
    set (s3 := match title with Some _ => _ | None => _ end) in *. clearbody s3.
    unfold validateUrl, checkResponse. rewrite Hinput, Hhttp, Hfetch. simpl.
    rewrite Htruthy, Hhtml. simpl.
    eexists _, _. split; [reflexivity|]. simpl. events.
    repeat split. congruence. }
  unfold playVideo. rewrite Htry, Hout.
  destruct (catch_keeps error videoSource (after attempt))
    as (_ & Hcf & _ & _ & _ & Hcst & Hlive).
  cbv zeta in *.
  destruct (finalize_idle (tempFile attempt) _ Hlive) as (_ & Hff & _ & Hfst & _).
  cbv zeta in *.
  rewrite Hfst, Hff, Hcst, Hcf, Hst.
  split; [reflexivity|]. split; [apply elem_of_union_l, elem_of_singleton; reflexivity|].
  intros Hjoined. rewrite (Hweb Hjoined).
  destruct (finalize_grows (tempFile attempt)
              (playVideo_catch webpageError videoSource (after attempt))) as [more ->].
  apply elem_of_app. left.
  unfold playVideo_catch.
  replace (includes webpageError "Invalid data found when processing input"
           || includes webpageError "Could not open source file"
           || String.eqb webpageError webpageError) with true by reflexivity.
  set (s4 := log StreamUnavailable (after attempt)).
  assert (StreamUnavailable ∈ events s4) as Hin.
  { subst s4. simpl. apply elem_of_app. right. apply list_elem_of_singleton. reflexivity. }
  clearbody s4. unfold controllerLive, abort.
  destruct (controller s4) as [[]|]; exact Hin.
Qed.

(** X21: a playback attempt of the service of src/services/streaming.ts
    that ends without an error goes on in the queue: the current item, if
    there is one, is removed by its id, and [getNext()] is asked.  The item
    it answers with is scheduled to play; when it answers with none, the
    queue is told that nothing plays and the service is idle, whatever the
    queue still holds.  No source is marked as failed. *)
Theorem finished_playback_advances W (videoSource : string) (title : option string)
    (headers : option Headers) s (u : unit) :
  let begun := playVideo_begin title s in
  let final := playVideo W videoSource title headers s in
  let removed :=
    match Queue.getCurrent (queueService begun) with
    | Some finishedItem =>
        Queue.removeFromQueue (QueueItem.id finishedItem) (queueService begun)
    | None => queueService begun
    end in
  outcome (playVideo_try W videoSource title headers begun) = Returned u ->
  failedVideos final = failedVideos s
  /\ (forall q next,
        Queue.getNext removed = (q, Some next) ->
        queueService final = q
        /\ scheduled (events final) = scheduled (events s) ++ [next])
  /\ (forall q,
        Queue.getNext removed = (q, None) ->
        queueService final = Queue.setPlaying false q
        /\ scheduled (events final) = scheduled (events s)
        /\ playing (streamStatus final) = false).
Proof.
  cbv zeta. intros Hreturned. unfold playVideo. rewrite Hreturned.
  destruct (try_keeps W videoSource title headers (playVideo_begin title s))
    as [(Hq & Hf & Hm & _ & Hs) Hlive].
  destruct (begin_keeps title s) as (Hbf & Hbe & Hbm). cbv zeta in *.
  specialize (Hlive u Hreturned). rewrite Hbm in Hm.
  set (attempt := playVideo_try W videoSource title headers (playVideo_begin title s)) in *.
  clearbody attempt.
  destruct (finalize_advance (tempFile attempt) _ Hlive Hm) as (Hff & Hfq & Hfs).
  cbv zeta in *.
  rewrite Hff, Hfq, Hfs, Hq, Hf, Hs, Hbf, Hbe.
  unfold advanceQueue.
  split; [reflexivity|]. split.
  - intros q next ->. simpl. auto.
  - intros q Hnone. rewrite Hnone. simpl. rewrite app_nil_r.
    split; [reflexivity|]. split; [reflexivity|].
    unfold finalizeStream. rewrite Hlive, Hm. simpl.
    unfold handleQueueAdvancement.
    change (queueService (notify SendFinishMessage (after attempt)))
      with (queueService (after attempt)).
    rewrite Hq. unfold advanceQueue. rewrite Hnone.
    pose proof (cleanup_idle
                  (with_queueService (Queue.setPlaying false q)
                     (notify SendFinishMessage (after attempt)))) as Hidle.
    cbv zeta in Hidle. destruct Hidle as (_ & _ & _ & _ & _ & Hp & _).
    set (cleaned := cleanupStreamStatus _) in *. clearbody cleaned.
    destruct (tempFile attempt) as [path|]; [destruct (truthy path)|]; exact Hp.
Qed.

End Facts.

Lemma failed_playback_witness :
  let s := idleService (Scenario.queueOf [Scenario.itemA; Scenario.itemB] (Some 0) true) in
  let final :=
    playVideo (answering Scenario.brokenStream NotOk) "https://example.com/a.mp4" (Some "A") None s in
  queueService final = Scenario.queueOf [Scenario.itemA; Scenario.itemB] None false
  /\ failedVideos final = {["https://example.com/a.mp4"]} ∪ ∅
  /\ playing (streamStatus final) = false
  /\ controllerLive final = false
  /\ scheduled (events final) = [].
Proof.
  cbv zeta.
  refine (failed_playback_ends_idle (answering Scenario.brokenStream NotOk)
            "https://example.com/a.mp4" (Some "A") None
            (idleService (Scenario.queueOf [Scenario.itemA; Scenario.itemB] (Some 0) true)) "Invalid data found" _).
  vm_compute. reflexivity.
Defined.

Lemma web_page_witness :
  let W := answering Scenario.calm (Ok (Some "text/html; charset=utf-8") None) in
  let s := PlainStreaming.idleService
             (Scenario.queueOf [Scenario.itemA; Scenario.itemB] (Some 0) true) in
  let final := playVideo W "https://example.com/a.mp4" (Some "A") None s in
  started (events final) = started (events s)
  /\ "https://example.com/a.mp4" ∈ failedVideos final
  /\ (fst (ensureVoiceConnection W (Some "A") (playVideo_begin (Some "A") s)) = Returned tt ->
      StreamUnavailable ∈ events final).
Proof.
  cbv zeta.
  refine (web_page_is_not_streamed
            (answering Scenario.calm (Ok (Some "text/html; charset=utf-8") None))
            "https://example.com/a.mp4" (Some "A") None
            (PlainStreaming.idleService
               (Scenario.queueOf [Scenario.itemA; Scenario.itemB] (Some 0) true))
            {| inputForFfmpeg := InString "https://example.com/a.mp4";
               tempFilePath := None; p_headers := None |}
            _ "https://example.com/a.mp4" "text/html; charset=utf-8" None _ _ _ _ _);
    vm_compute; reflexivity.
Defined.

Lemma finished_playback_witness :
  let s := PlainStreaming.idleService
             (Scenario.queueOf [Scenario.itemA; Scenario.itemB; Scenario.itemC]
                (Some 0) true) in
  let begun := playVideo_begin (Some "A") s in
  let final :=
    playVideo (answering Scenario.calm NotOk) "https://example.com/a.mp4" (Some "A") None s in
  let removed :=
    match Queue.getCurrent (queueService begun) with
    | Some finishedItem =>
        Queue.removeFromQueue (QueueItem.id finishedItem) (queueService begun)
    | None => queueService begun
    end in
  failedVideos final = failedVideos s
  /\ (forall q next,
        Queue.getNext removed = (q, Some next) ->
        queueService final = q
        /\ scheduled (events final) = scheduled (events s) ++ [next])
  /\ (forall q,
        Queue.getNext removed = (q, None) ->
        queueService final = Queue.setPlaying false q
        /\ scheduled (events final) = scheduled (events s)
        /\ playing (streamStatus final) = false).
Proof.
  cbv zeta.
  refine (finished_playback_advances (answering Scenario.calm NotOk)
            "https://example.com/a.mp4" (Some "A") None
            (PlainStreaming.idleService
               (Scenario.queueOf [Scenario.itemA; Scenario.itemB; Scenario.itemC]
                  (Some 0) true)) tt _).
  vm_compute. reflexivity.
Defined.

(** What the queue of the specification answers after a stream that has
    played to its end: behind the finished item A, the item B is passed
    over; C is scheduled when it is there, and otherwise the service is
    idle with B still queued. *)
Example finished_playback_on_the_queue :
  let play items :=
    playVideo (answering Scenario.calm NotOk) "https://example.com/a.mp4" (Some "A") None
      (PlainStreaming.idleService (Scenario.queueOf items (Some 0) true)) in
  let three := play [Scenario.itemA; Scenario.itemB; Scenario.itemC] in
  let two := play [Scenario.itemA; Scenario.itemB] in
  scheduled (events three) = [Scenario.itemC]
  /\ Queue.vq_items (queueService three) = [Scenario.itemB; Scenario.itemC]
  /\ scheduled (events two) = []
  /\ Queue.vq_items (queueService two) = [Scenario.itemB]
  /\ playing (streamStatus two) = false.
Proof. vm_compute. repeat split; reflexivity. Qed.

(** The downloaded song is deleted when ffmpeg fails, when the voice channel
    cannot be joined, and when the stream plays to its end; after the
    failure the queue still holds the song, with no current item. *)
Example song_file_is_deleted :
  let s := PlainStreaming.idleService (Scenario.queueOf [Scenario.song] (Some 0) true) in
  let play W := playVideo W "https://www.youtube.com/watch?v=song" (Some "Song") None s in
  removed (events (play brokenAfterDownload)) = ["/tmp/song.mp4"]
  /\ removed (events (play unreachableAfterDownload)) = ["/tmp/song.mp4"]
  /\ removed (events (play calmAfterDownload)) = ["/tmp/song.mp4"]
  /\ queueService (play brokenAfterDownload)
     = Scenario.queueOf [Scenario.song] None false.
Proof.
  cbv zeta. split_and!; vm_compute; reflexivity.
Qed.

End PlainFacts.
